(** * QuickClaude accounting core: ledger posting, balances and reports

    A shallow embedding of the backend services

    - [modules/accounts/account.service.ts] (AccountService: balances,
      system accounts, reparenting, deactivation, default chart),
    - [modules/journal/journal.service.ts] (JournalService: posting and
      its validation, voiding, reversal),
    - [modules/reports/report.service.ts] (ReportService: balances as of
      a date, trial balance, balance sheet, aging buckets),

    with the schemas and helpers they use, followed by the properties of
    the accounting core stated in the specification.

    Modelling conventions.

    - Money.  The services compute on JavaScript numbers obtained from
      Prisma [Decimal] columns.  Amounts are modelled as exact rationals
      [Q] and are stored as given; equalities between amounts are stated
      with [==].  Binary floating-point rounding and the rounding of the
      decimal columns are not modelled.
    - Dates are modelled as their epoch time stamp, an integer [Z].
    - Identifiers (uuids), codes and messages are [string]s.  The uuid
      the store generates for a new row, and the reading of the clock,
      are arguments of the operation that needs them.
    - The database is a record of tables (lists of rows, in stored
      order).  A journal entry row carries its lines (the Prisma relation
      [lines]).
    - Service methods that write, or that can throw, live in a small
      state-and-error monad [M] over the database.  A loop without a
      bound of its own is modelled by its step function and iterated
      with fuel. *)

From Stdlib Require Import QArith Qabs Qround Lqa ZArith Lia.
From Stdlib Require Import List String Ascii Bool Permutation Sorted DecimalString.
Import ListNotations.

Local Open Scope string_scope.
Local Open Scope Z_scope.
Local Open Scope Q_scope.

(* ================================================================= *)
(** ** Enumerations of the Prisma schema *)

(** Modelled from the spec: the Prisma schema, which declares the
    enumerations, is not among the sources.  Account types and journal
    sources are those the specification lists; account subtypes are
    those the sources use.  [EXPENSE_SUBTYPE] is [AccountSubType.EXPENSE]
    (the name [EXPENSE] is taken by the account type). *)

Inductive AccountType : Type :=
| ASSET | LIABILITY | EQUITY | REVENUE | EXPENSE.

Inductive AccountSubType : Type :=
| CASH | BANK | ACCOUNTS_RECEIVABLE | OTHER_ASSET | FIXED_ASSET
| ACCOUNTS_PAYABLE | CREDIT_CARD | CURRENT_LIABILITY | LONG_TERM_LIABILITY
| OWNERS_EQUITY | RETAINED_EARNINGS
| INCOME | OTHER_INCOME
| COST_OF_GOODS_SOLD | EXPENSE_SUBTYPE | OTHER_EXPENSE.

Inductive JournalSource : Type :=
| MANUAL | INVOICE | BILL | CUSTOMER_PAYMENT | BILL_PAYMENT | BANK_IMPORT.

Definition AccountType_eqb (a b : AccountType) : bool :=
  match a, b with
  | ASSET, ASSET | LIABILITY, LIABILITY | EQUITY, EQUITY
  | REVENUE, REVENUE | EXPENSE, EXPENSE => true
  | _, _ => false
  end.

Definition AccountSubType_eqb (a b : AccountSubType) : bool :=
  match a, b with
  | CASH, CASH | BANK, BANK | ACCOUNTS_RECEIVABLE, ACCOUNTS_RECEIVABLE
  | OTHER_ASSET, OTHER_ASSET | FIXED_ASSET, FIXED_ASSET
  | ACCOUNTS_PAYABLE, ACCOUNTS_PAYABLE | CREDIT_CARD, CREDIT_CARD
  | CURRENT_LIABILITY, CURRENT_LIABILITY
  | LONG_TERM_LIABILITY, LONG_TERM_LIABILITY
  | OWNERS_EQUITY, OWNERS_EQUITY | RETAINED_EARNINGS, RETAINED_EARNINGS
  | INCOME, INCOME | OTHER_INCOME, OTHER_INCOME
  | COST_OF_GOODS_SOLD, COST_OF_GOODS_SOLD
  | EXPENSE_SUBTYPE, EXPENSE_SUBTYPE | OTHER_EXPENSE, OTHER_EXPENSE => true
  | _, _ => false
  end.

Definition JournalSource_eqb (a b : JournalSource) : bool :=
  match a, b with
  | MANUAL, MANUAL | INVOICE, INVOICE | BILL, BILL
  | CUSTOMER_PAYMENT, CUSTOMER_PAYMENT | BILL_PAYMENT, BILL_PAYMENT
  | BANK_IMPORT, BANK_IMPORT => true
  | _, _ => false
  end.

(* ================================================================= *)
(** ** Rows *)

Module Account.
Record t : Type := mk {
  id : string;
  companyId : string;
  code : string;
  name : string;
  type : AccountType;
  subType : AccountSubType;
  parentId : option string;
  isSystemAccount : bool;
  isActive : bool;
  openingBalance : Q
}.
End Account.

Module JournalLine.
Record t : Type := mk {
  accountId : string;
  debit : Q;
  credit : Q;
  memo : option string;
  customerId : option string;
  vendorId : option string
}.
End JournalLine.

Module JournalEntry.
Record t : Type := mk {
  id : string;
  companyId : string;
  entryNumber : Z;
  date : Z;
  memo : option string;
  reference : option string;
  source : JournalSource;
  sourceId : option string;
  isAdjusting : bool;
  isPosted : bool;
  isReversing : bool;
  reversedEntryId : option string;
  createdById : string;
  lines : list JournalLine.t
}.
End JournalEntry.

(** The tables of the database the core reads and writes. *)
Record Database : Type := mkDatabase {
  accountTable : list Account.t;
  journalEntryTable : list JournalEntry.t
}.

(** Modelled from the spec: the Prisma schema (schema.prisma) is not part
    of the sources; it holds the column defaults.  A created journal
    entry counts toward balances ("Posting: committing a journal entry
    such that its lines count toward balances (isPosted = true)"), so
    [isPosted] defaults to [true]; [isReversing] and [isAdjusting]
    default to [false]; a created account is active and is not a system
    account unless a template says so. *)
Definition default_isPosted : bool := true.
Definition default_isReversing : bool := false.
Definition default_isAdjusting : bool := false.
Definition default_isActive : bool := true.
Definition default_openingBalance : Q := 0.

(* ================================================================= *)
(** ** Errors and the service monad *)

(** Modelled from the spec: [utils/errors], which declares the error
    classes the services throw, is not among the sources.
    [BadRequestError] is the InvalidArgument of the specification,
    [NotFoundError] its NotFound, [ConflictError] its Conflict. *)
Inductive AppError : Type :=
| NotFoundError (message : string)
| BadRequestError (message : string)
| ConflictError (message : string).

Inductive Result (A : Type) : Type :=
| Throw (e : AppError)
| Ok (a : A).
Arguments Throw {A} e.
Arguments Ok {A} a.

Definition M (A : Type) : Type := Database -> Result A * Database.

Definition ret {A} (a : A) : M A := fun db => (Ok a, db).
Definition throw {A} (e : AppError) : M A := fun db => (Throw e, db).
Definition bind {A B} (m : M A) (k : A -> M B) : M B :=
  fun db =>
    match m db with
    | (Throw e, db') => (Throw e, db')
    | (Ok a, db') => k a db'
    end.
Definition get : M Database := fun db => (Ok db, db).
Definition put (db' : Database) : M unit := fun _ => (Ok tt, db').

Notation "x <- m ;; k" := (bind m (fun x => k))
  (at level 61, m at next level, right associativity).
Notation "m ;;; k" := (bind m (fun _ => k))
  (at level 61, right associativity).

(** Pure validation steps are [Result unit]; [lift] runs one in [M]. *)
Definition lift {A} (r : Result A) : M A := fun db => (r, db).

(* ================================================================= *)
(** ** [utils/helpers] and JavaScript primitives *)

(** [decimalToNumber]: [null]/[undefined] become [0]. *)
Definition decimalToNumber (value : option Q) : Q :=
  match value with
  | None => 0
  | Some v => v
  end.

Definition Qltb (x y : Q) : bool := negb (Qle_bool y x).
Definition Qgeb (x y : Q) : bool := Qle_bool y x.

(** [`${n}`] for an integer. *)
Definition string_of_Z (n : Z) : string := NilZero.string_of_int (Z.to_int n).

Definition pad2 (n : Z) : string :=
  if (n <? 10)%Z then "0" ++ string_of_Z n else string_of_Z n.

(** [x.toFixed(2)]: the integer [n] with [n / 100] closest to [x], the
    larger one on a tie, printed with two decimals. *)
Definition toFixed2 (x : Q) : string :=
  let fmt (y : Q) :=
    let n := Qfloor (y * 100 + (1 # 2)) in
    string_of_Z (n / 100) ++ "." ++ pad2 (n mod 100) in
  if Qltb x 0 then "-" ++ fmt (- x) else fmt x.

(** [Array.prototype.reduce((sum, x) => sum + f(x), 0)]. *)
Definition reduce_sum {A} (f : A -> Q) (l : list A) : Q :=
  fold_left (fun sum x => sum + f x) l 0.

(** Prisma [aggregate({ _sum })]: [null] when no row matches. *)
Definition aggregate_sum {A} (f : A -> Q) (rows : list A) : option Q :=
  match rows with
  | [] => None
  | _ => Some (fold_right (fun x acc => f x + acc) 0 rows)
  end.

(** [[...new Set(xs)]]: distinct elements in order of first occurrence. *)
Fixpoint dedupe (seen xs : list string) : list string :=
  match xs with
  | [] => []
  | x :: xs' =>
      if existsb (String.eqb x) seen then dedupe seen xs'
      else x :: dedupe (x :: seen) xs'
  end.

(** [x || 0] on a number: [0] when [x] is zero, [x] otherwise. *)
Definition or_zero (x : Q) : Q := if Qeq_bool x 0 then 0 else x.

(** A JavaScript [Map] with string keys, in insertion order: [has],
    [set], and [get] followed by a change of the object it returns. *)
Definition map_has {V} (key : string) (m : list (string * V)) : bool :=
  existsb (fun kv => String.eqb (fst kv) key) m.

Definition map_set {V} (key : string) (v : V) (m : list (string * V))
  : list (string * V) :=
  if map_has key m
  then map (fun kv => if String.eqb (fst kv) key then (fst kv, v) else kv) m
  else (m ++ [(key, v)])%list.

Definition map_update {V} (key : string) (f : V -> V) (m : list (string * V))
  : list (string * V) :=
  map (fun kv => if String.eqb (fst kv) key then (fst kv, f (snd kv)) else kv) m.

(* ================================================================= *)
(** ** JournalService *)

Module JournalService.
Import JournalLine JournalEntry.

(** [CreateJournalEntryInput] after [new Date(input.date)]. *)
Record CreateJournalEntryInput : Type := mkCreateInput {
  in_date : Z;
  in_memo : option string;
  in_reference : option string;
  in_isAdjusting : bool;
  in_lines : list JournalLine.t
}.

(** The [data] argument of [createFromTransaction]. *)
Record TransactionData : Type := mkTransactionData {
  tx_date : Z;
  tx_memo : option string;
  tx_reference : option string;
  tx_source : JournalSource;
  tx_sourceId : string;
  tx_lines : list JournalLine.t
}.


(** The [for (const line of lines)] loop of [validateDoubleEntry]. *)
Fixpoint validateDoubleEntry_lines (lines : list JournalLine.t) : Result unit :=
  match lines with
  | [] => Ok tt
  | line :: rest =>
      if Qltb 0 (or_zero (debit line)) && Qltb 0 (or_zero (credit line)) then
        Throw (BadRequestError "A line cannot have both debit and credit")
      else if Qeq_bool (or_zero (debit line)) 0
              && Qeq_bool (or_zero (credit line)) 0 then
        Throw (BadRequestError
                 "Each line must have either a debit or credit amount")
      else validateDoubleEntry_lines rest
  end.

Definition unbalancedMessage (totalDebit totalCredit : Q) : string :=
  "Debits (" ++ toFixed2 totalDebit ++ ") must equal credits ("
             ++ toFixed2 totalCredit ++ ")".

Definition validateDoubleEntry (lines : list JournalLine.t) : Result unit :=
  let totalDebit := reduce_sum (fun line => or_zero (debit line)) lines in
  let totalCredit := reduce_sum (fun line => or_zero (credit line)) lines in
  if Qgeb (Qabs (totalDebit - totalCredit)) (1 # 100) then
    Throw (BadRequestError (unbalancedMessage totalDebit totalCredit))
  else validateDoubleEntry_lines lines.

Definition validateAccounts (companyId : string) (lines : list JournalLine.t)
  : M unit :=
  db <- get ;;
  let accountIds := dedupe [] (map accountId lines) in
  let accounts :=
    filter (fun a => existsb (String.eqb (Account.id a)) accountIds
                     && String.eqb (Account.companyId a) companyId)
           (accountTable db) in
  if negb (Nat.eqb (List.length accounts) (List.length accountIds)) then
    throw (BadRequestError "One or more accounts not found")
  else
    match find (fun a => negb (Account.isActive a)) accounts with
    | Some inactiveAccount =>
        throw (BadRequestError
                 ("Account " ++ Account.code inactiveAccount ++ " is inactive"))
    | None => ret tt
    end.

(** [findFirst({ where: { companyId }, orderBy: { entryNumber: 'desc' } })]. *)
Fixpoint maxEntryNumber (l : list JournalEntry.t) : option JournalEntry.t :=
  match l with
  | [] => None
  | e :: rest =>
      match maxEntryNumber rest with
      | None => Some e
      | Some m =>
          if (entryNumber m <=? entryNumber e)%Z then Some e else Some m
      end
  end.

Definition lastEntry (companyId : string) (db : Database)
  : option JournalEntry.t :=
  maxEntryNumber
    (filter (fun e => String.eqb (JournalEntry.companyId e) companyId)
            (journalEntryTable db)).

(** [(lastEntry?.entryNumber || 0) + 1]. *)
Definition nextEntryNumber (companyId : string) (db : Database) : Z :=
  match lastEntry companyId db with
  | None => 0 + 1
  | Some e => (if (entryNumber e =? 0)%Z then 0 else entryNumber e) + 1
  end%Z.

(** [prisma.journalEntry.create]: the row and its lines are written in
    one statement.  [newId] is the uuid the store generates. *)
Definition journalEntry_create (e : JournalEntry.t) : M JournalEntry.t :=
  db <- get ;;
  put (mkDatabase (accountTable db) (journalEntryTable db ++ [e])) ;;;
  ret e.

Definition createLine (line : JournalLine.t) : JournalLine.t :=
  JournalLine.mk (accountId line) (or_zero (debit line))
                 (or_zero (credit line)) (JournalLine.memo line)
                 (customerId line) (vendorId line).

Definition createJournalEntry (companyId userId : string)
           (input : CreateJournalEntryInput) (newId : string)
  : M JournalEntry.t :=
  lift (validateDoubleEntry (in_lines input)) ;;;
  validateAccounts companyId (in_lines input) ;;;
  db <- get ;;
  let entryNumber := nextEntryNumber companyId db in
  journalEntry_create
    (JournalEntry.mk newId companyId entryNumber (in_date input)
       (in_memo input) (in_reference input) MANUAL None
       (in_isAdjusting input) default_isPosted default_isReversing None
       userId (map createLine (in_lines input))).

Definition createFromTransaction (companyId userId : string)
           (data : TransactionData) (newId : string)
  : M JournalEntry.t :=
  lift (validateDoubleEntry (tx_lines data)) ;;;
  db <- get ;;
  let entryNumber := nextEntryNumber companyId db in
  journalEntry_create
    (JournalEntry.mk newId companyId entryNumber (tx_date data)
       (tx_memo data) (tx_reference data) (tx_source data)
       (Some (tx_sourceId data))
       default_isAdjusting default_isPosted default_isReversing None
       userId (map createLine (tx_lines data))).

(** [findFirst({ where: { id: entryId, companyId } })]. *)
Definition findEntry (companyId entryId : string) (db : Database)
  : option JournalEntry.t :=
  find (fun e => String.eqb (JournalEntry.id e) entryId
                 && String.eqb (JournalEntry.companyId e) companyId)
       (journalEntryTable db).

Definition setPosted (b : bool) (e : JournalEntry.t) : JournalEntry.t :=
  JournalEntry.mk (JournalEntry.id e) (JournalEntry.companyId e)
    (entryNumber e) (date e) (JournalEntry.memo e) (reference e) (source e)
    (sourceId e) (isAdjusting e) b (isReversing e) (reversedEntryId e)
    (createdById e) (lines e).

Definition voidJournalEntry (companyId entryId : string) : M unit :=
  db <- get ;;
  match findEntry companyId entryId db with
  | None => throw (NotFoundError "Journal entry not found")
  | Some entry =>
      if negb (JournalSource_eqb (source entry) MANUAL) then
        throw (BadRequestError "Only manual entries can be voided directly")
      else
        put (mkDatabase (accountTable db)
               (map (fun e => if String.eqb (JournalEntry.id e) entryId
                              then setPosted false e else e)
                    (journalEntryTable db)))
  end.

(** The line of the reversing entry: debit and credit swapped. *)
Definition reverseLine (line : JournalLine.t) : JournalLine.t :=
  JournalLine.mk (accountId line)
                 (decimalToNumber (Some (credit line)))
                 (decimalToNumber (Some (debit line)))
                 (JournalLine.memo line) (customerId line) (vendorId line).

(** [reverseDate || new Date()]; [now] is the clock reading. *)
Definition reverseJournalEntry (companyId userId entryId : string)
           (reverseDate : option Z) (now : Z) (newId : string)
  : M JournalEntry.t :=
  db <- get ;;
  match findEntry companyId entryId db with
  | None => throw (NotFoundError "Journal entry not found")
  | Some entry =>
      let entryNumber := nextEntryNumber companyId db in
      journalEntry_create
        (JournalEntry.mk newId companyId entryNumber
           (match reverseDate with Some d => d | None => now end)
           (Some ("Reversal of Entry #"
                    ++ string_of_Z (JournalEntry.entryNumber entry)))
           (reference entry) MANUAL None
           default_isAdjusting default_isPosted true
           (Some (JournalEntry.id entry))
           userId (map reverseLine (lines entry)))
  end.

(** [formatJournalEntry]: the amounts of the lines pass through
    [decimalToNumber]. *)
Definition formatJournalEntry (entry : JournalEntry.t) : JournalEntry.t :=
  JournalEntry.mk (JournalEntry.id entry) (JournalEntry.companyId entry)
    (entryNumber entry) (date entry) (JournalEntry.memo entry)
    (reference entry) (source entry) (sourceId entry) (isAdjusting entry)
    (isPosted entry) (isReversing entry) (reversedEntryId entry)
    (createdById entry)
    (map (fun line =>
            JournalLine.mk (accountId line)
                           (decimalToNumber (Some (debit line)))
                           (decimalToNumber (Some (credit line)))
                           (JournalLine.memo line) (customerId line)
                           (vendorId line))
         (lines entry)).


(** [UpdateJournalEntryInput]; an absent field is [None].  [upd_date] is
    [input.date ? new Date(input.date) : undefined]. *)
Record UpdateJournalEntryInput : Type := mkUpdateEntryInput {
  upd_date : option Z;
  upd_memo : option string;
  upd_reference : option string;
  upd_lines : option (list JournalLine.t)
}.

(** [prisma.journalEntry.update({ where: { id }, data })] on a row: a
    field that is [undefined] is left as it is; given lines replace the
    stored ones ([deleteMany: {}] followed by [create]). *)
Definition applyEntryUpdate (input : UpdateJournalEntryInput)
           (e : JournalEntry.t) : JournalEntry.t :=
  JournalEntry.mk (JournalEntry.id e) (JournalEntry.companyId e)
    (entryNumber e)
    (match upd_date input with Some d => d | None => date e end)
    (match upd_memo input with Some m => Some m | None => JournalEntry.memo e end)
    (match upd_reference input with Some r => Some r | None => reference e end)
    (source e) (sourceId e) (isAdjusting e) (isPosted e) (isReversing e)
    (reversedEntryId e) (createdById e)
    (match upd_lines input with
     | Some ls => map createLine ls
     | None => lines e
     end).

Definition updateJournalEntry (companyId entryId : string)
           (input : UpdateJournalEntryInput) : M JournalEntry.t :=
  db <- get ;;
  match findEntry companyId entryId db with
  | None => throw (NotFoundError "Journal entry not found")
  | Some entry =>
      if negb (JournalSource_eqb (source entry) MANUAL) then
        throw (BadRequestError "Only manual entries can be edited")
      else
        match upd_lines input with
        | Some ls =>
            lift (validateDoubleEntry ls) ;;; validateAccounts companyId ls
        | None => ret tt
        end ;;;
        put (mkDatabase (accountTable db)
               (map (fun e => if String.eqb (JournalEntry.id e) entryId
                              then applyEntryUpdate input e else e)
                    (journalEntryTable db))) ;;;
        ret (formatJournalEntry (applyEntryUpdate input entry))
  end.

End JournalService.

(* ================================================================= *)
(** ** AccountService *)

Definition AccountSubType_toString (s : AccountSubType) : string :=
  match s with
  | CASH => "CASH" | BANK => "BANK"
  | ACCOUNTS_RECEIVABLE => "ACCOUNTS_RECEIVABLE"
  | OTHER_ASSET => "OTHER_ASSET" | FIXED_ASSET => "FIXED_ASSET"
  | ACCOUNTS_PAYABLE => "ACCOUNTS_PAYABLE" | CREDIT_CARD => "CREDIT_CARD"
  | CURRENT_LIABILITY => "CURRENT_LIABILITY"
  | LONG_TERM_LIABILITY => "LONG_TERM_LIABILITY"
  | OWNERS_EQUITY => "OWNERS_EQUITY"
  | RETAINED_EARNINGS => "RETAINED_EARNINGS"
  | INCOME => "INCOME" | OTHER_INCOME => "OTHER_INCOME"
  | COST_OF_GOODS_SOLD => "COST_OF_GOODS_SOLD"
  | EXPENSE_SUBTYPE => "EXPENSE" | OTHER_EXPENSE => "OTHER_EXPENSE"
  end.

(** [['ASSET', 'EXPENSE'].includes(type)]. *)
Definition isDebitNormal (type : AccountType) : bool :=
  match type with
  | ASSET | EXPENSE => true
  | _ => false
  end.

(** [prisma.account.findUnique({ where: { id } })]. *)
Definition account_findUnique (db : Database) (id : string)
  : option Account.t :=
  find (fun a => String.eqb (Account.id a) id) (accountTable db).

(** [prisma.journalLine] rows selected by a condition on the line and on
    the journal entry it belongs to. *)
Definition journalLine_where (db : Database)
           (cond : JournalEntry.t -> JournalLine.t -> bool)
  : list JournalLine.t :=
  flat_map (fun e => filter (cond e) (JournalEntry.lines e)) (journalEntryTable db).

Module AccountService.
Import Account.

(** An entry of [defaultChartOfAccounts]. *)
Record Template : Type := mkTemplate {
  t_code : string;
  t_name : string;
  t_type : AccountType;
  t_subType : AccountSubType;
  t_isSystemAccount : bool
}.

(** [defaultChartOfAccounts.service] of [account.schema.ts]. *)
Definition defaultChartOfAccounts_service : list Template :=
  [
    mkTemplate "1000" "Cash" ASSET CASH true;
    mkTemplate "1100" "Checking Account" ASSET BANK false;
    mkTemplate "1200" "Savings Account" ASSET BANK false;
    mkTemplate "1300" "Accounts Receivable" ASSET ACCOUNTS_RECEIVABLE true;
    mkTemplate "1400" "Undeposited Funds" ASSET OTHER_ASSET true;
    mkTemplate "1500" "Prepaid Expenses" ASSET OTHER_ASSET false;
    mkTemplate "1600" "Office Equipment" ASSET FIXED_ASSET false;
    mkTemplate "1650" "Accumulated Depreciation - Equipment" ASSET FIXED_ASSET false;
    mkTemplate "2000" "Accounts Payable" LIABILITY ACCOUNTS_PAYABLE true;
    mkTemplate "2100" "Credit Card" LIABILITY CREDIT_CARD false;
    mkTemplate "2200" "Sales Tax Payable" LIABILITY CURRENT_LIABILITY true;
    mkTemplate "2300" "Payroll Liabilities" LIABILITY CURRENT_LIABILITY false;
    mkTemplate "2400" "Unearned Revenue" LIABILITY CURRENT_LIABILITY false;
    mkTemplate "2500" "Line of Credit" LIABILITY CURRENT_LIABILITY false;
    mkTemplate "2600" "Long-term Debt" LIABILITY LONG_TERM_LIABILITY false;
    mkTemplate "3000" "Owner's Equity" EQUITY OWNERS_EQUITY true;
    mkTemplate "3100" "Owner's Draws" EQUITY OWNERS_EQUITY false;
    mkTemplate "3200" "Retained Earnings" EQUITY RETAINED_EARNINGS true;
    mkTemplate "3900" "Opening Balance Equity" EQUITY OWNERS_EQUITY true;
    mkTemplate "4000" "Service Revenue" REVENUE INCOME false;
    mkTemplate "4100" "Consulting Revenue" REVENUE INCOME false;
    mkTemplate "4200" "Sales Revenue" REVENUE INCOME false;
    mkTemplate "4900" "Other Income" REVENUE OTHER_INCOME false;
    mkTemplate "4910" "Interest Income" REVENUE OTHER_INCOME false;
    mkTemplate "4920" "Discounts Taken" REVENUE OTHER_INCOME false;
    mkTemplate "5000" "Cost of Services" EXPENSE COST_OF_GOODS_SOLD false;
    mkTemplate "5100" "Subcontractor Expense" EXPENSE COST_OF_GOODS_SOLD false;
    mkTemplate "6000" "Advertising & Marketing" EXPENSE EXPENSE_SUBTYPE false;
    mkTemplate "6100" "Bank Charges" EXPENSE EXPENSE_SUBTYPE false;
    mkTemplate "6200" "Depreciation Expense" EXPENSE EXPENSE_SUBTYPE false;
    mkTemplate "6300" "Insurance" EXPENSE EXPENSE_SUBTYPE false;
    mkTemplate "6400" "Interest Expense" EXPENSE EXPENSE_SUBTYPE false;
    mkTemplate "6500" "Office Supplies" EXPENSE EXPENSE_SUBTYPE false;
    mkTemplate "6600" "Professional Fees" EXPENSE EXPENSE_SUBTYPE false;
    mkTemplate "6700" "Rent Expense" EXPENSE EXPENSE_SUBTYPE false;
    mkTemplate "6800" "Repairs & Maintenance" EXPENSE EXPENSE_SUBTYPE false;
    mkTemplate "6900" "Telephone & Internet" EXPENSE EXPENSE_SUBTYPE false;
    mkTemplate "7000" "Travel & Entertainment" EXPENSE EXPENSE_SUBTYPE false;
    mkTemplate "7100" "Utilities" EXPENSE EXPENSE_SUBTYPE false;
    mkTemplate "7200" "Wages & Salaries" EXPENSE EXPENSE_SUBTYPE false;
    mkTemplate "7300" "Payroll Taxes" EXPENSE EXPENSE_SUBTYPE false;
    mkTemplate "7400" "Employee Benefits" EXPENSE EXPENSE_SUBTYPE false;
    mkTemplate "7900" "Miscellaneous Expense" EXPENSE OTHER_EXPENSE false
  ].

(** [importDefaultChart]; [newId i] is the uuid generated for row [i]. *)
Definition importDefaultChart (companyId : string) (newId : nat -> string)
  : M nat :=
  db <- get ;;
  let accounts := defaultChartOfAccounts_service in
  let existingCount :=
    List.length (filter (fun a => String.eqb (Account.companyId a) companyId)
                        (accountTable db)) in
  if Nat.ltb 0 existingCount then
    throw (BadRequestError
             "Company already has accounts. Cannot import default chart.")
  else
    let created :=
      map (fun '(i, acc) =>
             Account.mk (newId i) companyId (t_code acc) (t_name acc)
               (t_type acc) (t_subType acc) None
               (t_isSystemAccount acc || false)
               default_isActive default_openingBalance)
          (combine (seq 0 (List.length accounts)) accounts) in
    put (mkDatabase (accountTable db ++ created) (journalEntryTable db)) ;;;
    ret (List.length created).

(** [calculateAccountBalance]: every posted line of the account. *)
Definition calculateAccountBalance (db : Database) (accountId : string)
           (accountType : AccountType) : Q :=
  let rows :=
    journalLine_where db
      (fun e l => String.eqb (JournalLine.accountId l) accountId
                  && JournalEntry.isPosted e) in
  let debits := decimalToNumber (aggregate_sum JournalLine.debit rows) in
  let credits := decimalToNumber (aggregate_sum JournalLine.credit rows) in
  let openingBalance :=
    match account_findUnique db accountId with
    | Some account => decimalToNumber (Some (openingBalance account))
    | None => 0
    end in
  if isDebitNormal accountType then openingBalance + debits - credits
  else openingBalance + credits - debits.

Definition getSystemAccount (companyId : string) (subType : AccountSubType)
  : M Account.t :=
  db <- get ;;
  match find (fun a => String.eqb (Account.companyId a) companyId
                       && AccountSubType_eqb (Account.subType a) subType
                       && Bool.eqb (isSystemAccount a) true)
             (accountTable db) with
  | None =>
      throw (NotFoundError
               ("System account not found: " ++ AccountSubType_toString subType))
  | Some account => ret account
  end.

Definition setActive (b : bool) (a : Account.t) : Account.t :=
  Account.mk (Account.id a) (Account.companyId a) (code a) (name a) (type a)
             (subType a) (parentId a) (isSystemAccount a) b (openingBalance a).

(** [deactivateAccount]: inactive when a line references the account,
    deleted otherwise. *)
Definition deactivateAccount (companyId accountId : string) : M unit :=
  db <- get ;;
  match find (fun a => String.eqb (Account.id a) accountId
                       && String.eqb (Account.companyId a) companyId)
             (accountTable db) with
  | None => throw (NotFoundError "Account not found")
  | Some account =>
      if isSystemAccount account then
        throw (BadRequestError "Cannot deactivate system account")
      else
        let hasTransactions :=
          existsb (fun e =>
                     existsb (fun l => String.eqb (JournalLine.accountId l)
                                                  accountId)
                             (JournalEntry.lines e))
                  (journalEntryTable db) in
        if hasTransactions then
          put (mkDatabase
                 (map (fun a => if String.eqb (Account.id a) accountId
                                then setActive false a else a)
                      (accountTable db))
                 (journalEntryTable db))
        else
          put (mkDatabase
                 (filter (fun a => negb (String.eqb (Account.id a) accountId))
                         (accountTable db))
                 (journalEntryTable db))
  end.

(** *** The parent validation of [updateAccount]

    The [while (currentParent.parentId)] loop has no bound of its own,
    so it is modelled by its step function; [circularCheck] iterates
    the step at most [fuel] times and answers [None] while the loop is
    still running. *)
Inductive LoopState : Type :=
| Running (currentParent : Account.t)
| Finished (r : Result unit).

Definition circularCheck_step (db : Database) (accountId : string)
           (currentParent : Account.t) : LoopState :=
  match parentId currentParent with
  | None => Finished (Ok tt)
  | Some p =>
      if String.eqb p "" then Finished (Ok tt)
      else if String.eqb p accountId then
        Finished (Throw (BadRequestError "Circular parent reference detected"))
      else
        match account_findUnique db p with
        | None => Finished (Ok tt)
        | Some next => Running next
        end
  end.

Fixpoint circularCheck (fuel : nat) (db : Database) (accountId : string)
         (currentParent : Account.t) : option (Result unit) :=
  match fuel with
  | O => None
  | S fuel' =>
      match circularCheck_step db accountId currentParent with
      | Finished r => Some r
      | Running next => circularCheck fuel' db accountId next
      end
  end.

(** The block [if (input.parentId) { ... }] of [updateAccount], for the
    account [account] found under [accountId]. *)
Definition validateParent (fuel : nat) (db : Database)
           (companyId accountId : string) (account : Account.t)
           (input_parentId : string) : option (Result unit) :=
  if String.eqb input_parentId accountId then
    Some (Throw (BadRequestError "Account cannot be its own parent"))
  else
    match find (fun a => String.eqb (Account.id a) input_parentId
                         && String.eqb (Account.companyId a) companyId)
               (accountTable db) with
    | None => Some (Throw (BadRequestError "Parent account not found"))
    | Some parent =>
        if negb (AccountType_eqb (type parent) (type account)) then
          Some (Throw (BadRequestError
                         "Parent account must be of the same type"))
        else circularCheck fuel db accountId parent
    end.

(** [UpdateAccountInput]; an absent field is [None], and [parentId] may
    also be given as [null]. *)
Record UpdateAccountInput : Type := mkUpdateInput {
  up_code : option string;
  up_name : option string;
  up_parentId : option (option string);
  up_isActive : option bool
}.

(** A string that is given and not empty (a truthy string). *)
Definition given (x : option string) : bool :=
  match x with
  | Some v => negb (String.eqb v "")
  | None => false
  end.

(** [prisma.account.update({ where: { id }, data: input })] on a row. *)
Definition applyUpdate (input : UpdateAccountInput) (a : Account.t)
  : Account.t :=
  Account.mk (Account.id a) (Account.companyId a)
    (match up_code input with Some c => c | None => code a end)
    (match up_name input with Some n => n | None => name a end)
    (type a) (subType a)
    (match up_parentId input with Some p => p | None => parentId a end)
    (isSystemAccount a)
    (match up_isActive input with Some b => b | None => isActive a end)
    (openingBalance a).

(** [updateAccount].  The answer is [None] while the loop of the parent
    validation is still running after [fuel] iterations.  The result is
    the updated row with its balance. *)
Definition updateAccount (fuel : nat) (companyId accountId : string)
           (input : UpdateAccountInput) (db : Database)
  : option (Result (Account.t * Q) * Database) :=
  match find (fun a => String.eqb (Account.id a) accountId
                       && String.eqb (Account.companyId a) companyId)
             (accountTable db) with
  | None => Some (Throw (NotFoundError "Account not found"), db)
  | Some account =>
      if isSystemAccount account
         && (given (up_code input)
             || match up_isActive input with
                | Some false => true
                | _ => false
                end) then
        Some (Throw (BadRequestError
                       "Cannot modify system account code or deactivate it"),
              db)
      else if given (up_code input)
              && negb (String.eqb (match up_code input with
                                   | Some c => c
                                   | None => ""
                                   end) (code account))
              && existsb (fun a =>
                            String.eqb (Account.companyId a) companyId
                            && String.eqb (code a)
                                          (match up_code input with
                                           | Some c => c
                                           | None => ""
                                           end))
                         (accountTable db) then
        Some (Throw (ConflictError "Account code already exists"), db)
      else
        let parentCheck :=
          match up_parentId input with
          | Some (Some p) =>
              if String.eqb p "" then Some (Ok tt)
              else validateParent fuel db companyId accountId account p
          | _ => Some (Ok tt)
          end in
        match parentCheck with
        | None => None
        | Some (Throw e) => Some (Throw e, db)
        | Some (Ok _) =>
            let db' :=
              mkDatabase
                (map (fun a => if String.eqb (Account.id a) accountId
                               then applyUpdate input a else a)
                     (accountTable db))
                (journalEntryTable db) in
            let updated := applyUpdate input account in
            Some (Ok (updated,
                      calculateAccountBalance db' (Account.id updated)
                                              (type updated)),
                  db')
        end
  end.

(** [getAccount]: the row with its balance. *)
Definition getAccount (companyId accountId : string) : M (Account.t * Q) :=
  db <- get ;;
  match find (fun a => String.eqb (Account.id a) accountId
                       && String.eqb (Account.companyId a) companyId)
             (accountTable db) with
  | None => throw (NotFoundError "Account not found")
  | Some account =>
      ret (account,
           calculateAccountBalance db (Account.id account) (type account))
  end.

(** [CreateAccountInput]; [openingBalance] has the default of the
    schema applied.  The description and the date of the opening balance
    are stored and never read by the services modelled here; they are
    not part of the rows. *)
Record CreateAccountInput : Type := mkCreateAccountInput {
  ca_code : string;
  ca_name : string;
  ca_type : AccountType;
  ca_subType : AccountSubType;
  ca_parentId : option string;
  ca_openingBalance : Q
}.

(** [createAccount]; [newId] is the uuid the store generates.  The
    result is the created row with its balance. *)
Definition createAccount (companyId : string) (input : CreateAccountInput)
           (newId : string) : M (Account.t * Q) :=
  db <- get ;;
  match find (fun a => String.eqb (Account.companyId a) companyId
                       && String.eqb (code a) (ca_code input))
             (accountTable db) with
  | Some existing => throw (ConflictError "Account code already exists")
  | None =>
      (if given (ca_parentId input) then
         match find (fun a => String.eqb (Account.id a)
                                         (match ca_parentId input with
                                          | Some p => p
                                          | None => ""
                                          end)
                              && String.eqb (Account.companyId a) companyId)
                    (accountTable db) with
         | None => throw (BadRequestError "Parent account not found")
         | Some parent =>
             if negb (AccountType_eqb (type parent) (ca_type input)) then
               throw (BadRequestError
                        "Parent account must be of the same type")
             else ret tt
         end
       else ret tt) ;;;
      let account :=
        Account.mk newId companyId (ca_code input) (ca_name input)
                   (ca_type input) (ca_subType input) (ca_parentId input)
                   false default_isActive (ca_openingBalance input) in
      put (mkDatabase (accountTable db ++ [account]) (journalEntryTable db)) ;;;
      ret (account, decimalToNumber (Some (openingBalance account)))
  end.

(** *** The list and the tree of accounts *)

(** An account row with its balance ([AccountWithBalance] without its
    children). *)
Definition AccountWithBalance : Type := (Account.t * Q)%type.

(** A node of the tree: the objects [{ ...account, children: [] }] that
    [buildAccountTree] creates.  The map [accountMap] holds one node per
    account id, and a node is referred to by that id. *)
Record TreeNode : Type := mkTreeNode {
  node_account : AccountWithBalance;
  node_children : list string
}.

(** The array [rootAccounts] returned by [buildAccountTree], with the
    nodes its elements and their [children] arrays point to. *)
Record AccountTree : Type := mkAccountTree {
  rootAccounts : list string;
  accountMap : list (string * TreeNode)
}.

(** The second [forEach] of [buildAccountTree], for one account. *)
Definition attachNode (state : list (string * TreeNode) * list string)
           (account : AccountWithBalance)
  : list (string * TreeNode) * list string :=
  let '(nodes, roots) := state in
  let node := Account.id (fst account) in
  if given (parentId (fst account))
     && map_has (match parentId (fst account) with
                 | Some p => p
                 | None => ""
                 end) nodes
  then (map_update (match parentId (fst account) with
                    | Some p => p
                    | None => ""
                    end)
                   (fun parent =>
                      mkTreeNode (node_account parent)
                                 (node_children parent ++ [node]))
                   nodes,
        roots)
  else (nodes, (roots ++ [node])%list).

Definition buildAccountTree (accounts : list AccountWithBalance)
  : AccountTree :=
  let nodes :=
    fold_left (fun m account =>
                 map_set (Account.id (fst account)) (mkTreeNode account []) m)
              accounts [] in
  let '(nodes, roots) := fold_left attachNode accounts (nodes, []) in
  mkAccountTree roots nodes.

(** [AccountQuery]; an absent field is [None]. *)
Record AccountQuery : Type := mkAccountQuery {
  q_type : option AccountType;
  q_subType : option AccountSubType;
  q_isActive : option bool;
  q_search : option string;
  q_flat : option bool
}.

Inductive AccountListing : Type :=
| FlatListing (accounts : list AccountWithBalance)
| TreeListing (tree : AccountTree).

(** [orderBy: { code: 'asc' }]. *)
Fixpoint insert_account (a : Account.t) (l : list Account.t)
  : list Account.t :=
  match l with
  | [] => [a]
  | b :: rest =>
      if String.leb (code a) (code b) then a :: l
      else b :: insert_account a rest
  end.

(** The [where] of [getAccounts].  [contains] is the matching of
    [{ contains: search, mode: 'insensitive' }], which the database
    decides; it is an argument. *)
Definition accountWhere (contains : string -> string -> bool)
           (companyId : string) (query : AccountQuery) (a : Account.t) : bool :=
  String.eqb (Account.companyId a) companyId
  && match q_type query with
     | Some t => AccountType_eqb (type a) t
     | None => true
     end
  && match q_subType query with
     | Some s => AccountSubType_eqb (subType a) s
     | None => true
     end
  && match q_isActive query with
     | Some b => Bool.eqb (isActive a) b
     | None => true
     end
  && (if given (q_search query)
      then contains (code a) (match q_search query with
                              | Some s => s
                              | None => EmptyString
                              end)
           || contains (name a) (match q_search query with
                                 | Some s => s
                                 | None => EmptyString
                                 end)
      else true).

(** [getAccounts]. *)
Definition getAccounts (contains : string -> string -> bool) (db : Database)
           (companyId : string) (query : AccountQuery) : AccountListing :=
  let accounts :=
    fold_right insert_account []
               (filter (accountWhere contains companyId query)
                       (accountTable db)) in
  let accountsWithBalances :=
    map (fun account =>
           (account,
            calculateAccountBalance db (Account.id account) (type account)))
        accounts in
  match q_flat query with
  | Some true => FlatListing accountsWithBalances
  | _ => TreeListing (buildAccountTree accountsWithBalances)
  end.

End AccountService.

(* ================================================================= *)
(** ** General ledger of an account *)

(** [prisma.journalLine.findMany({ where, include: { journalEntry } })]:
    the selected lines, each with the journal entry it belongs to. *)
Definition journalLine_findMany (db : Database)
           (cond : JournalEntry.t -> JournalLine.t -> bool)
  : list (JournalEntry.t * JournalLine.t) :=
  flat_map (fun e => map (pair e) (filter (cond e) (JournalEntry.lines e)))
           (journalEntryTable db).

(** [orderBy: [{ journalEntry: { date: 'asc' } },
               { journalEntry: { entryNumber: 'asc' } }]]; rows that tie
    keep their stored order. *)
Definition entry_leb (e1 e2 : JournalEntry.t) : bool :=
  (JournalEntry.date e1 <? JournalEntry.date e2)%Z
  || ((JournalEntry.date e1 =? JournalEntry.date e2)%Z
      && (JournalEntry.entryNumber e1 <=? JournalEntry.entryNumber e2)%Z).

Fixpoint insert_by_entry (x : JournalEntry.t * JournalLine.t)
         (l : list (JournalEntry.t * JournalLine.t))
  : list (JournalEntry.t * JournalLine.t) :=
  match l with
  | [] => [x]
  | y :: rest =>
      if entry_leb (fst x) (fst y) then x :: l
      else y :: insert_by_entry x rest
  end.

Definition orderBy_entry (l : list (JournalEntry.t * JournalLine.t))
  : list (JournalEntry.t * JournalLine.t) :=
  fold_right insert_by_entry [] l.

(** [a || b] on optional strings: [b] when [a] is absent or empty. *)
Definition or_string (a b : option string) : option string :=
  match a with
  | Some s => if String.eqb s "" then b else Some s
  | None => b
  end.

(** A row of a general ledger.  The lines of this model carry no id of
    their own, so the [id] the journal service copies from the line is
    not part of the row. *)
Record LedgerRow : Type := mkLedgerRow {
  lr_date : Z;
  lr_entryNumber : Z;
  lr_memo : option string;
  lr_reference : option string;
  lr_source : JournalSource;
  lr_debit : Q;
  lr_credit : Q;
  lr_balance : Q
}.

(** [lines.map((line) => { runningBalance += ...; return { ... } })]: the
    rows, and [runningBalance] after the last line. *)
Fixpoint runningRows (isDebitNormal : bool) (runningBalance : Q)
         (lines : list (JournalEntry.t * JournalLine.t))
  : list LedgerRow * Q :=
  match lines with
  | [] => ([], runningBalance)
  | (entry, line) :: rest =>
      let debit := decimalToNumber (Some (JournalLine.debit line)) in
      let credit := decimalToNumber (Some (JournalLine.credit line)) in
      let runningBalance :=
        if isDebitNormal then runningBalance + (debit - credit)
        else runningBalance + (credit - debit) in
      let '(rows, final) := runningRows isDebitNormal runningBalance rest in
      (mkLedgerRow (JournalEntry.date entry) (JournalEntry.entryNumber entry)
                   (or_string (JournalLine.memo line) (JournalEntry.memo entry))
                   (JournalEntry.reference entry) (JournalEntry.source entry)
                   debit credit runningBalance :: rows,
       final)
  end.

Module JournalServiceQueries.

(** The [date] filter of [getGeneralLedger]: present when a start or an
    end date is given. *)
Definition dateFilter (startDate endDate : option Z) (e : JournalEntry.t)
  : bool :=
  match startDate, endDate with
  | None, None => true
  | _, _ =>
      match startDate with
      | Some s => (s <=? JournalEntry.date e)%Z
      | None => true
      end
      && match endDate with
         | Some d => (JournalEntry.date e <=? d)%Z
         | None => true
         end
  end.

(** [JournalService.getGeneralLedger]. *)
Definition getGeneralLedger (companyId accountId : string)
           (startDate endDate : option Z) : M (list LedgerRow) :=
  db <- get ;;
  let lines :=
    orderBy_entry
      (journalLine_findMany db
         (fun e l => String.eqb (JournalLine.accountId l) accountId
                     && String.eqb (JournalEntry.companyId e) companyId
                     && JournalEntry.isPosted e
                     && dateFilter startDate endDate e)) in
  match account_findUnique db accountId with
  | None => throw (NotFoundError "Account not found")
  | Some account =>
      let runningBalance :=
        decimalToNumber (Some (Account.openingBalance account)) in
      let isDebitNormal := isDebitNormal (Account.type account) in
      ret (fst (runningRows isDebitNormal runningBalance lines))
  end.

End JournalServiceQueries.

(* ================================================================= *)
(** ** Invoices and bills *)

(** Modelled from the spec: the Prisma schema is not among the sources.
    The aging reports select "open invoices/bills"; the statuses are
    those the sources use, and the rows have the columns the report
    service reads, with the name of the customer or vendor the query
    includes. *)
Module InvoiceStatus.
Inductive t : Type := DRAFT | SENT | PARTIAL | PAID | OVERDUE | VOID.
End InvoiceStatus.

Module BillStatus.
Inductive t : Type := DRAFT | RECEIVED | PARTIAL | PAID | OVERDUE | VOID.
End BillStatus.

Module Invoice.
Record t : Type := mk {
  id : string;
  companyId : string;
  invoiceNumber : string;
  customerId : string;
  customerName : string;
  status : InvoiceStatus.t;
  date : Z;
  dueDate : Z;
  total : Q;
  amountDue : Q
}.
End Invoice.

Module Bill.
Record t : Type := mk {
  id : string;
  companyId : string;
  billNumber : string;
  vendorId : string;
  vendorName : string;
  status : BillStatus.t;
  date : Z;
  dueDate : Z;
  total : Q;
  amountDue : Q
}.
End Bill.

(* ================================================================= *)
(** ** ReportService *)

Module ReportService.

Record ReportAccount : Type := mkReportAccount {
  ra_id : string;
  ra_code : string;
  ra_name : string;
  ra_type : AccountType;
  balance : Q;
  compareBalance : option Q
}.

Record AgingBucket : Type := mkAgingBucket {
  period : string;
  amount : Q;
  count : Z
}.

(** [orderBy: { code: 'asc' }]. *)
Fixpoint insert_by_code (a : Account.t) (l : list Account.t)
  : list Account.t :=
  match l with
  | [] => [a]
  | b :: rest =>
      if String.leb (Account.code a) (Account.code b) then a :: l
      else b :: insert_by_code a rest
  end.

Definition orderBy_code (l : list Account.t) : list Account.t :=
  fold_right insert_by_code [] l.

(** [prisma.account.findMany({ where, orderBy: { code: 'asc' } })]. *)
Definition account_findMany (db : Database) (where_ : Account.t -> bool)
  : list Account.t :=
  orderBy_code (filter where_ (accountTable db)).

Definition calculateAccountBalanceAsOf (db : Database) (accountId : string)
           (type : AccountType) (asOfDate : Z) : Q :=
  let openingBalance :=
    match account_findUnique db accountId with
    | Some account => decimalToNumber (Some (Account.openingBalance account))
    | None => 0
    end in
  let rows :=
    journalLine_where db
      (fun e l => String.eqb (JournalLine.accountId l) accountId
                  && JournalEntry.isPosted e
                  && (JournalEntry.date e <=? asOfDate)%Z) in
  let debits := decimalToNumber (aggregate_sum JournalLine.debit rows) in
  let credits := decimalToNumber (aggregate_sum JournalLine.credit rows) in
  if isDebitNormal type then openingBalance + debits - credits
  else openingBalance + credits - debits.




(** [acc.compareBalance = compare?.balance || 0]. *)
Definition mergeCompare (compareAccounts : list ReportAccount)
           (acc : ReportAccount) : ReportAccount :=
  let compare :=
    find (fun c => String.eqb (ra_id c) (ra_id acc)) compareAccounts in
  mkReportAccount (ra_id acc) (ra_code acc) (ra_name acc) (ra_type acc)
    (balance acc)
    (Some match compare with
          | Some c => or_zero (balance c)
          | None => 0
          end).





Record TrialBalanceRow : Type := mkRow {
  row_id : string;
  row_code : string;
  row_name : string;
  row_type : AccountType;
  row_debit : Q;
  row_credit : Q
}.

Record TrialBalance : Type := mkTrialBalance {
  tb_asOfDate : Z;
  tb_accounts : list TrialBalanceRow;
  totalDebits : Q;
  totalCredits : Q;
  isBalanced : bool
}.

Definition trialBalanceRow (db : Database) (asOfDate : Z)
           (account : Account.t) : TrialBalanceRow :=
  let balance :=
    calculateAccountBalanceAsOf db (Account.id account)
                                (Account.type account) asOfDate in
  let isDebitNormal := isDebitNormal (Account.type account) in
  mkRow (Account.id account) (Account.code account) (Account.name account)
        (Account.type account)
        (if isDebitNormal && Qltb 0 balance then balance
         else if negb isDebitNormal && Qltb balance 0 then - balance
         else 0)
        (if negb isDebitNormal && Qltb 0 balance then balance
         else if isDebitNormal && Qltb balance 0 then - balance
         else 0).

Definition getTrialBalance (db : Database) (companyId : string)
           (asOfDate : Z) : TrialBalance :=
  let accounts :=
    account_findMany db
      (fun a => String.eqb (Account.companyId a) companyId
                && Bool.eqb (Account.isActive a) true) in
  let balances := map (trialBalanceRow db asOfDate) accounts in
  let nonZeroBalances :=
    filter (fun b => Qltb 0 (row_debit b) || Qltb 0 (row_credit b))
           balances in
  let totalDebits := reduce_sum row_debit nonZeroBalances in
  let totalCredits := reduce_sum row_credit nonZeroBalances in
  mkTrialBalance asOfDate nonZeroBalances totalDebits totalCredits
                 (Qltb (Qabs (totalDebits - totalCredits)) (1 # 100)).

(** *** Aging buckets *)

(** [periods[i]]; [`${undefined}`] prints as "undefined". *)
Definition printPeriod (p : option Z) : string :=
  match p with
  | Some n => string_of_Z n
  | None => "undefined"
  end.

Definition buildAgingBuckets (periods : list Z) : list AgingBucket :=
  [mkAgingBucket "Current" 0 0]
  ++ map (fun i =>
            let start :=
              if Nat.eqb i 0 then 1%Z
              else (nth (i - 1) periods 0 + 1)%Z in
            let end_ := nth i periods 0%Z in
            mkAgingBucket
              (string_of_Z start ++ "-" ++ string_of_Z end_ ++ " days") 0 0)
         (seq 0 (List.length periods))
  ++ [mkAgingBucket
        ("Over " ++ printPeriod (nth_error periods (List.length periods - 1))
                 ++ " days") 0 0].

(** The [for] loop of [getBucketIndex], from index [i] on. *)
Fixpoint getBucketIndex_from (i : nat) (daysOverdue : Z) (rest : list Z)
  : nat :=
  match rest with
  | [] => i + 1
  | p :: rest' =>
      if (daysOverdue <=? p)%Z then i + 1
      else getBucketIndex_from (S i) daysOverdue rest'
  end.

Definition getBucketIndex (daysOverdue : Z) (periods : list Z) : nat :=
  if (daysOverdue <=? 0)%Z then 0%nat
  else getBucketIndex_from 0 daysOverdue periods.

(** [Math.floor((asOfDate.getTime() - dueDate.getTime()) / 86400000)]. *)
Definition daysOverdue (asOfDate dueDate : Z) : Z :=
  ((asOfDate - dueDate) / (1000 * 60 * 60 * 24))%Z.

(** [buckets[bucketIndex].period] for an open item. *)
Definition bucketLabel (daysOverdue : Z) (periods : list Z)
  : option string :=
  let buckets := buildAgingBuckets periods in
  let bucketIndex := getBucketIndex daysOverdue periods in
  option_map period (nth_error buckets bucketIndex).

(** *** Balances over a period, profit and loss *)

Definition getAccountBalances (db : Database) (companyId : string)
           (type : AccountType) (startDate endDate : Z)
  : list ReportAccount :=
  let accounts :=
    account_findMany db
      (fun a => String.eqb (Account.companyId a) companyId
                && AccountType_eqb (Account.type a) type
                && Bool.eqb (Account.isActive a) true) in
  map (fun account =>
         let result :=
           journalLine_where db
             (fun e l => String.eqb (JournalLine.accountId l)
                                    (Account.id account)
                         && JournalEntry.isPosted e
                         && ((startDate <=? JournalEntry.date e)%Z
                             && (JournalEntry.date e <=? endDate)%Z)) in
         let debits := decimalToNumber (aggregate_sum JournalLine.debit result) in
         let credits :=
           decimalToNumber (aggregate_sum JournalLine.credit result) in
         let balance :=
           match type with
           | REVENUE | LIABILITY | EQUITY => credits - debits
           | ASSET | EXPENSE => debits - credits
           end in
         mkReportAccount (Account.id account) (Account.code account)
                         (Account.name account) (Account.type account)
                         balance None)
      accounts.

(** [a.compareBalance || 0]. *)
Definition compareBalance_or_zero (a : ReportAccount) : Q :=
  match compareBalance a with
  | Some b => or_zero b
  | None => 0
  end.

Record StatementSection : Type := mkStatementSection {
  ss_accounts : list ReportAccount;
  ss_total : Q;
  ss_compareTotal : option Q
}.

Record ProfitAndLoss : Type := mkProfitAndLoss {
  pl_period : Z * Z;
  pl_comparePeriod : option (Z * option Z);
  pl_revenue : StatementSection;
  pl_expenses : StatementSection;
  netIncome : Q;
  compareNetIncome : option Q
}.

Definition getProfitAndLoss (db : Database) (companyId : string)
           (startDate endDate : Z) (compareStartDate compareEndDate : option Z)
  : ProfitAndLoss :=
  let revenueAccounts :=
    getAccountBalances db companyId REVENUE startDate endDate in
  let expenseAccounts :=
    getAccountBalances db companyId EXPENSE startDate endDate in
  let '(revenueAccounts, expenseAccounts) :=
    match compareStartDate, compareEndDate with
    | Some compareStart, Some compareEnd =>
        let compareRevenue :=
          getAccountBalances db companyId REVENUE compareStart compareEnd in
        let compareExpense :=
          getAccountBalances db companyId EXPENSE compareStart compareEnd in
        (map (mergeCompare compareRevenue) revenueAccounts,
         map (mergeCompare compareExpense) expenseAccounts)
    | _, _ => (revenueAccounts, expenseAccounts)
    end in
  let totalRevenue := reduce_sum balance revenueAccounts in
  let totalExpenses := reduce_sum balance expenseAccounts in
  let netIncome := totalRevenue - totalExpenses in
  let compareTotalRevenue :=
    reduce_sum compareBalance_or_zero revenueAccounts in
  let compareTotalExpenses :=
    reduce_sum compareBalance_or_zero expenseAccounts in
  let compareNetIncome := compareTotalRevenue - compareTotalExpenses in
  let ifCompare {A} (x : A) : option A :=
    match compareStartDate with
    | Some _ => Some x
    | None => None
    end in
  mkProfitAndLoss (startDate, endDate)
    (match compareStartDate with
     | Some compareStart => Some (compareStart, compareEndDate)
     | None => None
     end)
    (mkStatementSection revenueAccounts totalRevenue
                        (ifCompare compareTotalRevenue))
    (mkStatementSection expenseAccounts totalExpenses
                        (ifCompare compareTotalExpenses))
    netIncome (ifCompare compareNetIncome).

(** *** General ledger report *)

Record AccountLedger : Type := mkAccountLedger {
  al_id : string;
  al_code : string;
  al_name : string;
  al_type : AccountType;
  al_openingBalance : Q;
  al_transactions : list LedgerRow;
  al_closingBalance : Q
}.

Record GeneralLedger : Type := mkGeneralLedger {
  gl_period : Z * Z;
  gl_accounts : list AccountLedger
}.

(** [getGeneralLedger].  [addDays] of [utils/helpers] moves a date by
    calendar days in the local time of the server ([setDate]); the time
    zone is not fixed by the sources, so the function is an argument. *)
Definition getGeneralLedger (addDays : Z -> Z -> Z) (db : Database)
           (companyId : string) (startDate endDate : Z)
           (accountId : option string) : GeneralLedger :=
  let accounts :=
    account_findMany db
      (fun a => String.eqb (Account.companyId a) companyId
                && Bool.eqb (Account.isActive a) true
                && (if AccountService.given accountId
                    then String.eqb (Account.id a)
                                    (match accountId with
                                     | Some i => i
                                     | None => ""
                                     end)
                    else true)) in
  let ledger :=
    map (fun account =>
           let openingBalance :=
             calculateAccountBalanceAsOf db (Account.id account)
               (Account.type account) (addDays startDate (-1)%Z) in
           let lines :=
             orderBy_entry
               (journalLine_findMany db
                  (fun e l => String.eqb (JournalLine.accountId l)
                                         (Account.id account)
                              && JournalEntry.isPosted e
                              && ((startDate <=? JournalEntry.date e)%Z
                                  && (JournalEntry.date e <=? endDate)%Z))) in
           let isDebitNormal := isDebitNormal (Account.type account) in
           let '(transactions, runningBalance) :=
             runningRows isDebitNormal openingBalance lines in
           mkAccountLedger (Account.id account) (Account.code account)
                           (Account.name account) (Account.type account)
                           openingBalance transactions runningBalance)
        accounts in
  mkGeneralLedger (startDate, endDate)
    (filter (fun l => Nat.ltb 0 (List.length (al_transactions l))
                      || negb (Qeq_bool (al_openingBalance l) 0))
            ledger).

(** *** Aging reports *)

Record AgingDetail : Type := mkAgingDetail {
  ad_id : string;
  ad_number : string;
  ad_name : string;
  ad_date : Z;
  ad_dueDate : Z;
  ad_total : Q;
  ad_amountDue : Q;
  ad_daysOverdue : Z;
  ad_bucket : string
}.

(** A value of the map [customerTotals] / [vendorTotals]. *)
Record PartyTotals : Type := mkPartyTotals {
  pt_name : string;
  pt_buckets : list Q;
  pt_total : Q
}.

Record AgingReport : Type := mkAgingReport {
  ar_asOfDate : Z;
  ar_agingPeriods : list Z;
  ar_buckets : list AgingBucket;
  ar_total : Q;
  ar_byParty : list PartyTotals;
  ar_details : list AgingDetail
}.

(** What the [for] loop of an aging report updates. *)
Record AgingState : Type := mkAgingState {
  st_buckets : list AgingBucket;
  st_details : list AgingDetail;
  st_totals : list (string * PartyTotals)
}.

(** [xs[i] = f(xs[i])] for an index inside the array. *)
Fixpoint update_at {A} (i : nat) (f : A -> A) (l : list A) : list A :=
  match l, i with
  | [], _ => []
  | x :: rest, O => f x :: rest
  | x :: rest, S j => x :: update_at j f rest
  end.

(** [.sort((a, b) => b.total - a.total)]. *)
Fixpoint insert_by_total (x : PartyTotals) (l : list PartyTotals)
  : list PartyTotals :=
  match l with
  | [] => [x]
  | y :: rest =>
      if Qle_bool (pt_total y) (pt_total x) then x :: l
      else y :: insert_by_total x rest
  end.

Definition sort_by_total (l : list PartyTotals) : list PartyTotals :=
  fold_right insert_by_total [] l.

(** The two aging reports run the same loop, on invoices with their
    customers and on bills with their vendors. *)
Section Aging.
Variable Row : Type.
Variables r_id r_number r_partyId r_partyName : Row -> string.
Variables r_date r_dueDate : Row -> Z.
Variables r_total r_amountDue : Row -> Q.

(** [orderBy: { dueDate: 'asc' }]. *)
Fixpoint insert_by_dueDate (x : Row) (l : list Row) : list Row :=
  match l with
  | [] => [x]
  | y :: rest =>
      if (r_dueDate x <=? r_dueDate y)%Z then x :: l
      else y :: insert_by_dueDate x rest
  end.

Definition orderBy_dueDate (l : list Row) : list Row :=
  fold_right insert_by_dueDate [] l.

(** One turn of the loop; [None] is the [TypeError] of reading [period]
    from a bucket that does not exist. *)
Definition agingStep (asOfDate : Z) (agingPeriods : list Z)
           (st : AgingState) (row : Row) : option AgingState :=
  let amountDue := decimalToNumber (Some (r_amountDue row)) in
  if Qle_bool amountDue 0 then Some st
  else
    let days := daysOverdue asOfDate (r_dueDate row) in
    let bucketIndex := getBucketIndex days agingPeriods in
    match nth_error (st_buckets st) bucketIndex with
    | None => None
    | Some bucket =>
        let bucketLabel := period bucket in
        let details :=
          (st_details st
           ++ [mkAgingDetail (r_id row) (r_number row) (r_partyName row)
                 (r_date row) (r_dueDate row)
                 (decimalToNumber (Some (r_total row)))
                 amountDue days bucketLabel])%list in
        let buckets :=
          update_at bucketIndex
            (fun b => mkAgingBucket (period b) (amount b + amountDue)
                                    (count b + 1)%Z)
            (st_buckets st) in
        let totals :=
          if map_has (r_partyId row) (st_totals st) then st_totals st
          else (st_totals st
                ++ [(r_partyId row,
                     mkPartyTotals (r_partyName row)
                       (repeat 0 (List.length buckets)) 0)])%list in
        let totals :=
          map_update (r_partyId row)
            (fun party =>
               mkPartyTotals (pt_name party)
                 (update_at bucketIndex (fun x => x + amountDue)
                            (pt_buckets party))
                 (pt_total party + amountDue))
            totals in
        Some (mkAgingState buckets details totals)
    end.

Fixpoint agingLoop (asOfDate : Z) (agingPeriods : list Z)
         (st : AgingState) (rows : list Row) : option AgingState :=
  match rows with
  | [] => Some st
  | row :: rest =>
      match agingStep asOfDate agingPeriods st row with
      | None => None
      | Some st' => agingLoop asOfDate agingPeriods st' rest
      end
  end.

Definition agingReport (rows : list Row) (asOfDate : Z)
           (agingPeriods : list Z) : option AgingReport :=
  let buckets := buildAgingBuckets agingPeriods in
  match agingLoop asOfDate agingPeriods (mkAgingState buckets [] []) rows with
  | None => None
  | Some st =>
      let totalAmount := reduce_sum amount (st_buckets st) in
      Some (mkAgingReport asOfDate agingPeriods (st_buckets st) totalAmount
              (sort_by_total (map snd (st_totals st))) (st_details st))
  end.

End Aging.

(** [agingPeriods: number[] = [30, 60, 90, 120]]. *)
Definition defaultAgingPeriods : list Z := [30; 60; 90; 120]%Z.

Definition periods_or_default (agingPeriods : option (list Z)) : list Z :=
  match agingPeriods with
  | Some periods => periods
  | None => defaultAgingPeriods
  end.

(** [getARAgingReport]; [invoices] is the invoice table. *)
Definition getARAgingReport (invoices : list Invoice.t) (companyId : string)
           (asOfDate : Z) (agingPeriods : option (list Z))
  : option AgingReport :=
  let selected :=
    orderBy_dueDate Invoice.t Invoice.dueDate
      (filter (fun i => String.eqb (Invoice.companyId i) companyId
                        && match Invoice.status i with
                           | InvoiceStatus.SENT | InvoiceStatus.PARTIAL
                           | InvoiceStatus.OVERDUE => true
                           | _ => false
                           end
                        && (Invoice.dueDate i <=? asOfDate)%Z)
              invoices) in
  agingReport Invoice.t Invoice.id Invoice.invoiceNumber Invoice.customerId
              Invoice.customerName Invoice.date Invoice.dueDate Invoice.total
              Invoice.amountDue selected asOfDate
              (periods_or_default agingPeriods).

(** [getAPAgingReport]; [bills] is the bill table. *)
Definition getAPAgingReport (bills : list Bill.t) (companyId : string)
           (asOfDate : Z) (agingPeriods : option (list Z))
  : option AgingReport :=
  let selected :=
    orderBy_dueDate Bill.t Bill.dueDate
      (filter (fun b => String.eqb (Bill.companyId b) companyId
                        && match Bill.status b with
                           | BillStatus.RECEIVED | BillStatus.PARTIAL
                           | BillStatus.OVERDUE => true
                           | _ => false
                           end
                        && (Bill.dueDate b <=? asOfDate)%Z)
              bills) in
  agingReport Bill.t Bill.id Bill.billNumber Bill.vendorId Bill.vendorName
              Bill.date Bill.dueDate Bill.total Bill.amountDue
              selected asOfDate (periods_or_default agingPeriods).

End ReportService.

(* ================================================================= *)
(** ** InvoiceService *)

(** The columns of an invoice line that posting reads. *)
Module InvoiceLine.
Record t : Type := mk {
  accountId : string;
  description : string;
  amount : Q;
  discountAmount : Q
}.
End InvoiceLine.

(** A row of the invoice table with its lines; [invoice] holds the
    columns that the aging report reads as well. *)
Module StoredInvoice.
Record t : Type := mk {
  invoice : Invoice.t;
  taxTotal : Q;
  amountPaid : Q;
  sentAt : option Z;
  lines : list InvoiceLine.t
}.
End StoredInvoice.

Module InvoiceService.
Import StoredInvoice.

(** [findFirst({ where: { id: invoiceId, companyId } })]. *)
Definition invoice_findFirst (companyId invoiceId : string)
           (invoices : list StoredInvoice.t) : option StoredInvoice.t :=
  find (fun r => String.eqb (Invoice.id (invoice r)) invoiceId
                 && String.eqb (Invoice.companyId (invoice r)) companyId)
       invoices.

(** [prisma.invoice.update({ where: { id: invoiceId }, data })]. *)
Definition invoice_update (invoiceId : string)
           (data : StoredInvoice.t -> StoredInvoice.t)
           (invoices : list StoredInvoice.t) : list StoredInvoice.t :=
  map (fun r => if String.eqb (Invoice.id (invoice r)) invoiceId
                then data r else r)
      invoices.

Definition setStatus (status : InvoiceStatus.t) (r : StoredInvoice.t)
  : StoredInvoice.t :=
  mk (Invoice.mk (Invoice.id (invoice r)) (Invoice.companyId (invoice r))
                 (Invoice.invoiceNumber (invoice r))
                 (Invoice.customerId (invoice r))
                 (Invoice.customerName (invoice r)) status
                 (Invoice.date (invoice r)) (Invoice.dueDate (invoice r))
                 (Invoice.total (invoice r)) (Invoice.amountDue (invoice r)))
     (taxTotal r) (amountPaid r) (sentAt r) (lines r).

(** [data: { status: InvoiceStatus.SENT, sentAt: new Date() }]. *)
Definition markSent (now : Z) (r : StoredInvoice.t) : StoredInvoice.t :=
  mk (invoice (setStatus InvoiceStatus.SENT r)) (taxTotal r) (amountPaid r)
     (Some now) (lines r).

(** The debit of the receivable. *)
Definition receivableLine (arAccount : Account.t) (r : StoredInvoice.t)
  : JournalLine.t :=
  JournalLine.mk (Account.id arAccount)
                 (decimalToNumber (Some (Invoice.total (invoice r)))) 0
                 (Some ("Invoice " ++ Invoice.invoiceNumber (invoice r)))
                 (Some (Invoice.customerId (invoice r))) None.

(** The credits of the revenue accounts: one for each line whose amount
    after discount is positive. *)
Definition revenueLines (r : StoredInvoice.t) : list JournalLine.t :=
  flat_map
    (fun line =>
       let amount := decimalToNumber (Some (InvoiceLine.amount line))
                     - decimalToNumber (Some (InvoiceLine.discountAmount line)) in
       if Qltb 0 amount
       then [JournalLine.mk (InvoiceLine.accountId line) 0 amount
                            (Some (InvoiceLine.description line)) None None]
       else [])
    (lines r).

(** The credit of the tax payable. *)
Definition taxLines (taxAccount : Account.t) (r : StoredInvoice.t)
  : list JournalLine.t :=
  let taxTotal := decimalToNumber (Some (taxTotal r)) in
  if Qltb 0 taxTotal
  then [JournalLine.mk (Account.id taxAccount) 0 taxTotal (Some "Sales tax")
                       None None]
  else [].

Definition journalLines (arAccount taxAccount : Account.t)
           (r : StoredInvoice.t) : list JournalLine.t :=
  (receivableLine arAccount r :: revenueLines r ++ taxLines taxAccount r)%list.

(** The [data] handed to [createFromTransaction]. *)
Definition invoiceTransaction (arAccount taxAccount : Account.t)
           (r : StoredInvoice.t) : JournalService.TransactionData :=
  JournalService.mkTransactionData
    (Invoice.date (invoice r))
    (Some ("Invoice " ++ Invoice.invoiceNumber (invoice r) ++ " - "
                      ++ Invoice.customerName (invoice r)))
    (Some (Invoice.invoiceNumber (invoice r)))
    INVOICE
    (Invoice.id (invoice r))
    (journalLines arAccount taxAccount r).

(** [sendInvoice]: [now] is the clock reading, [newId] the id of the
    journal entry.  The invoice table is threaded next to the database;
    the result is the row as the first update returned it. *)
Definition sendInvoice (companyId userId invoiceId : string) (now : Z)
           (newId : string) (db : Database) (invoices : list StoredInvoice.t)
  : Result StoredInvoice.t * Database * list StoredInvoice.t :=
  match invoice_findFirst companyId invoiceId invoices with
  | None => (Throw (NotFoundError "Invoice not found"), db, invoices)
  | Some r =>
      match Invoice.status (invoice r) with
      | InvoiceStatus.DRAFT =>
          match AccountService.getSystemAccount companyId ACCOUNTS_RECEIVABLE
                                                db with
          | (Throw e, db1) => (Throw e, db1, invoices)
          | (Ok arAccount, db1) =>
              match AccountService.getSystemAccount companyId
                                                    CURRENT_LIABILITY db1 with
              | (Throw e, db2) => (Throw e, db2, invoices)
              | (Ok taxAccount, db2) =>
                  match JournalService.createFromTransaction
                          companyId userId
                          (invoiceTransaction arAccount taxAccount r)
                          newId db2 with
                  | (Throw e, db3) => (Throw e, db3, invoices)
                  | (Ok _, db3) =>
                      let updated := markSent now r in
                      let invoices1 :=
                        invoice_update invoiceId (markSent now) invoices in
                      let invoices2 :=
                        if (Invoice.dueDate (invoice updated) <? now)%Z
                           && Qltb 0 (Invoice.amountDue (invoice updated))
                        then invoice_update invoiceId
                                            (setStatus InvoiceStatus.OVERDUE)
                                            invoices1
                        else invoices1 in
                      (Ok updated, db3, invoices2)
                  end
              end
          end
      | _ => (Throw (BadRequestError "Invoice has already been sent"), db,
              invoices)
      end
  end.

(** [journalEntry.updateMany({ where: { companyId, source: INVOICE,
    sourceId }, data: { isPosted: false } })]. *)
Definition unpostSource (companyId : string) (source : JournalSource)
           (sourceId : string) (db : Database) : Database :=
  mkDatabase
    (accountTable db)
    (map (fun e =>
            if String.eqb (JournalEntry.companyId e) companyId
               && JournalSource_eqb (JournalEntry.source e) source
               && match JournalEntry.sourceId e with
                  | Some s => String.eqb s sourceId
                  | None => false
                  end
            then JournalService.setPosted false e else e)
         (journalEntryTable db)).

Definition voidInvoice (companyId invoiceId : string) (db : Database)
           (invoices : list StoredInvoice.t)
  : Result unit * Database * list StoredInvoice.t :=
  match invoice_findFirst companyId invoiceId invoices with
  | None => (Throw (NotFoundError "Invoice not found"), db, invoices)
  | Some r =>
      match Invoice.status (invoice r) with
      | InvoiceStatus.VOID =>
          (Throw (BadRequestError "Invoice is already voided"), db, invoices)
      | _ =>
          if Qltb 0 (decimalToNumber (Some (amountPaid r))) then
            (Throw (BadRequestError
                      "Cannot void invoice with payments. Remove payments first."),
             db, invoices)
          else
            (Ok tt,
             unpostSource companyId INVOICE (Invoice.id (invoice r)) db,
             invoice_update invoiceId (setStatus InvoiceStatus.VOID) invoices)
      end
  end.

End InvoiceService.

(* ================================================================= *)
(** * Definitions used to state the properties *)

(** ** Labels and ranges of the aging buckets *)

Section AgingBucketsDefinitions.
Import ReportService.

(** The label of the bucket of the [i]-th period. *)
Definition periodLabel (periods : list Z) (i : nat) : string :=
  string_of_Z (match i with
               | O => 1
               | S j => nth j periods 0 + 1
               end)%Z
  ++ "-" ++ string_of_Z (nth i periods 0%Z) ++ " days".

(** The lower end of the range of the [i]-th period bucket. *)
Definition prevBoundary (periods : list Z) (i : nat) : Z :=
  match i with
  | O => 0
  | S j => nth j periods 0
  end%Z.

End AgingBucketsDefinitions.

(* ================================================================= *)
(** ** Sums, posted lines and balances *)

(** The sum of [f] over the rows of a list. *)
Definition sum_of {A} (f : A -> Q) (l : list A) : Q :=
  fold_right (fun x acc => f x + acc) 0 l.

(** The sign convention of the specification: ASSET and EXPENSE accounts
    increase on debit, LIABILITY, EQUITY and REVENUE accounts on credit. *)
Definition signedAmount (type : AccountType) (l : JournalLine.t) : Q :=
  match type with
  | ASSET | EXPENSE => JournalLine.debit l - JournalLine.credit l
  | LIABILITY | EQUITY | REVENUE => JournalLine.credit l - JournalLine.debit l
  end.

(** The entries that are posted and dated on or before [asOfDate]. *)
Definition postedEntriesAsOf (db : Database) (asOfDate : Z)
  : list JournalEntry.t :=
  filter (fun e => JournalEntry.isPosted e
                   && (JournalEntry.date e <=? asOfDate)%Z)
         (journalEntryTable db).

Definition linesOfAccount (accountId : string) (e : JournalEntry.t)
  : list JournalLine.t :=
  filter (fun l => String.eqb (JournalLine.accountId l) accountId)
         (JournalEntry.lines e).

(** The lines of the account in posted entries up to [asOfDate]. *)
Definition postedLinesAsOf (db : Database) (accountId : string) (asOfDate : Z)
  : list JournalLine.t :=
  flat_map (linesOfAccount accountId) (postedEntriesAsOf db asOfDate).


(* ================================================================= *)
(** ** Reversal *)

(** What a journal entry contributes to the balance of an account. *)
Definition entryContribution (accountId : string) (type : AccountType)
           (asOfDate : Z) (e : JournalEntry.t) : Q :=
  if JournalEntry.isPosted e && (JournalEntry.date e <=? asOfDate)%Z
  then sum_of (signedAmount type) (linesOfAccount accountId e)
  else 0.

(** The stored opening balance read by the balance computation. *)
Definition openingBalanceOf (db : Database) (accountId : string) : Q :=
  match account_findUnique db accountId with
  | Some account => Account.openingBalance account
  | None => 0
  end.

(** A list without the first element that satisfies [p]. *)
Fixpoint removeFirst {A} (p : A -> bool) (l : list A) : list A :=
  match l with
  | [] => []
  | x :: rest => if p x then rest else x :: removeFirst p rest
  end.

(** The database in which the entry [entryId] of the tenant was never
    posted: the row found by [findEntry] is absent. *)
Definition withoutEntry (companyId entryId : string) (db : Database)
  : Database :=
  mkDatabase (accountTable db)
    (removeFirst (fun e => String.eqb (JournalEntry.id e) entryId
                           && String.eqb (JournalEntry.companyId e) companyId)
                 (journalEntryTable db)).

Section ReversalDefinitions.
Import ReportService JournalService.

(** The reversing entry built by [reverseJournalEntry] from [entry]. *)
Definition reversingEntry (db : Database) (companyId userId : string)
           (entry : JournalEntry.t) (reverseDate : option Z) (now : Z)
           (newId : string) : JournalEntry.t :=
  JournalEntry.mk newId companyId (nextEntryNumber companyId db)
    (match reverseDate with Some d => d | None => now end)
    (Some ("Reversal of Entry #"
             ++ string_of_Z (JournalEntry.entryNumber entry)))
    (JournalEntry.reference entry) MANUAL None
    default_isAdjusting default_isPosted true
    (Some (JournalEntry.id entry))
    userId (map reverseLine (JournalEntry.lines entry)).

End ReversalDefinitions.

(* ================================================================= *)
(** ** The scenario of the specification

    One ASSET account "Cash" with opening balance 1000 and one REVENUE
    account "Sales"; an entry dated 2024-01-10 debits Cash 500 and
    credits Sales 500; it is reversed on 2024-02-01. *)

Module Scenario.
Import JournalService ReportService.

Definition cash : Account.t :=
  Account.mk "acc-cash" "acme" "1000" "Cash" ASSET CASH None false true 1000.

Definition sales : Account.t :=
  Account.mk "acc-sales" "acme" "4000" "Sales" REVENUE INCOME None false true 0.

Definition jan10 : Z := 1704844800000.

Definition jan31 : Z := 1706659200000.

Definition feb01 : Z := 1706745600000.

Definition feb28 : Z := 1709078400000.

Definition db0 : Database := mkDatabase [cash; sales] [].

Definition saleLines : list JournalLine.t :=
  [ JournalLine.mk "acc-cash" 500 0 None None None;
    JournalLine.mk "acc-sales" 0 500 None None None ].

Definition sale : CreateJournalEntryInput :=
  mkCreateInput jan10 (Some "Cash sale") None false saleLines.

Definition db1 : Database :=
  snd (createJournalEntry "acme" "user-1" sale "je-1" db0).

Definition entry1 : JournalEntry.t :=
  JournalEntry.mk "je-1" "acme" 1 jan10 (Some "Cash sale") None MANUAL None
                  false true false None "user-1" saleLines.

Definition db2 : Database :=
  snd (reverseJournalEntry "acme" "user-1" "je-1" (Some feb01) feb01 "je-2"
                           db1).

(** The sale voided, and the voided sale then reversed. *)
Definition dbVoided : Database := snd (voidJournalEntry "acme" "je-1" db1).

Definition dbVoidedReversed : Database :=
  snd (reverseJournalEntry "acme" "user-1" "je-1" (Some feb01) feb01 "je-2"
                           dbVoided).

End Scenario.

(* ================================================================= *)
(** ** Posting and its validation *)

(** A line as the double-entry rule wants it: exactly one of debit and
    credit is positive. *)
Definition bothPositive (l : JournalLine.t) : Prop :=
  0 < JournalLine.debit l /\ 0 < JournalLine.credit l.


(** Total debits and total credits differ by 0.01 or more. *)
Definition unbalanced (lines : list JournalLine.t) : Prop :=
  (1 # 100) <= Qabs (sum_of JournalLine.debit lines
                     - sum_of JournalLine.credit lines).


Section PostingDefinitions.
Import JournalService.


(** What the loop over the lines accepts. *)
Definition lineAccepted (l : JournalLine.t) : Prop :=
  ~ bothPositive l
  /\ ~ (JournalLine.debit l == 0 /\ JournalLine.credit l == 0).

(** The line references an account of the tenant that is active. *)
Definition referencesActive (db : Database) (companyId : string)
           (l : JournalLine.t) : Prop :=
  exists a, In a (accountTable db)
            /\ Account.id a = JournalLine.accountId l
            /\ Account.companyId a = companyId
            /\ Account.isActive a = true.

(** The accounts selected by [validateAccounts]. *)
Definition selectedAccounts (db : Database) (companyId : string)
           (lines : list JournalLine.t) : list Account.t :=
  filter (fun a =>
            existsb (String.eqb (Account.id a))
                    (dedupe [] (map JournalLine.accountId lines))
            && String.eqb (Account.companyId a) companyId)
         (accountTable db).

(** The rows written by the two posting paths. *)
Definition manualEntry (db : Database) (companyId userId : string)
           (input : CreateJournalEntryInput) (newId : string)
  : JournalEntry.t :=
  JournalEntry.mk newId companyId (nextEntryNumber companyId db)
    (in_date input) (in_memo input) (in_reference input) MANUAL None
    (in_isAdjusting input) default_isPosted default_isReversing None
    userId (map createLine (in_lines input)).

Definition transactionEntry (db : Database) (companyId userId : string)
           (data : TransactionData) (newId : string) : JournalEntry.t :=
  JournalEntry.mk newId companyId (nextEntryNumber companyId db)
    (tx_date data) (tx_memo data) (tx_reference data) (tx_source data)
    (Some (tx_sourceId data))
    default_isAdjusting default_isPosted default_isReversing None
    userId (map createLine (tx_lines data)).

Definition appendEntry (db : Database) (e : JournalEntry.t) : Database :=
  mkDatabase (accountTable db) (journalEntryTable db ++ [e]).


End PostingDefinitions.

(* ================================================================= *)
(** ** Posting requests on an inactive account *)

Module PostingExamples.
Import JournalService Scenario.

(** A closed bank account of the tenant, next to its cash account. *)
Definition oldBank : Account.t :=
  Account.mk "acc-old" "acme" "1100" "Checking Account" ASSET BANK None
             false false 0.

Definition dbInactive : Database := mkDatabase [cash; oldBank] [].


(** Balanced lines, one of them on the inactive account. *)
Definition inactiveLines : list JournalLine.t :=
  [ JournalLine.mk "acc-old" 10 0 None None None;
    JournalLine.mk "acc-cash" 0 10 None None None ].



Definition inactiveData : TransactionData :=
  mkTransactionData jan10 None None INVOICE "inv-1" inactiveLines.

End PostingExamples.

(* ================================================================= *)
(** ** System accounts *)


Module SystemAccountExamples.
Import AccountService.

(** The uuid generated for the [i]-th row of an import. *)
Definition newId (i : nat) : string := "acc-" ++ string_of_Z (Z.of_nat i).

Definition emptyDb : Database := mkDatabase [] [].

(** The tenant right after importing the default chart. *)
Definition dbImported : Database :=
  snd (importDefaultChart "acme" newId emptyDb).

Definition ownersEquity : Account.t :=
  Account.mk "acc-15" "acme" "3000" "Owner's Equity" EQUITY OWNERS_EQUITY
             None true true 0.




End SystemAccountExamples.

(* ================================================================= *)
(** ** The cycle check of reparenting *)


Module CycleExamples.
Import AccountService.

Definition asset (id code : string) (parentId : option string) : Account.t :=
  Account.mk id "acme" code code ASSET OTHER_ASSET parentId false true 0.

(** A chart whose stored parent links already form a cycle between
    [acc-b] and [acc-c]; [acc-a] is a root. *)
Definition accA : Account.t := asset "acc-a" "1500" None.

Definition accB : Account.t := asset "acc-b" "1510" (Some "acc-c").

Definition accC : Account.t := asset "acc-c" "1520" (Some "acc-b").

Definition dbCycle : Database := mkDatabase [accA; accB; accC] [].


(** A sound chart: [acc-y] is a child of [acc-x]. *)
Definition accX : Account.t := asset "acc-x" "1600" None.

Definition accY : Account.t := asset "acc-y" "1610" (Some "acc-x").

Definition dbTree : Database := mkDatabase [accX; accY] [].

End CycleExamples.

(* ================================================================= *)
(** ** Report totals in terms of posted lines *)












(* ================================================================= *)
(** ** Small ledgers *)

Module TrialBalanceExamples.
Import JournalService AccountService ReportService Scenario.

(** The accounts of the scenario, with no opening balance. *)
Definition till : Account.t :=
  Account.mk "acc-cash" "acme" "1000" "Cash" ASSET CASH None false true 0.

Definition ledger0 : Database := mkDatabase [till; sales] [].

(** One balanced sale. *)
Definition ledger1 : Database :=
  snd (createJournalEntry "acme" "user-1" sale "je-1" ledger0).





End TrialBalanceExamples.

(* ================================================================= *)
(** ** Balance sheet *)








Module BalanceSheetExamples.
Import JournalService AccountService ReportService Scenario.
Import TrialBalanceExamples.



End BalanceSheetExamples.

(* ================================================================= *)
(** ** Writes of the journal service *)

Section JournalWriteDefinitions.
Import JournalService.

(** A call of one of the writing methods of [JournalService]. *)
Inductive JournalWrite : Type :=
| PostManual (companyId userId : string) (input : CreateJournalEntryInput)
             (newId : string)
| PostTransaction (companyId userId : string) (data : TransactionData)
                  (newId : string)
| UpdateEntry (companyId entryId : string) (input : UpdateJournalEntryInput)
| VoidEntry (companyId entryId : string)
| ReverseEntry (companyId userId entryId : string) (reverseDate : option Z)
               (now : Z) (newId : string).

(** The error thrown, if any, and the database left behind. *)
Definition outcome {A} (r : Result A * Database) : option AppError * Database :=
  (match fst r with
   | Throw e => Some e
   | Ok _ => None
   end, snd r).

Definition journalWrite (w : JournalWrite) (db : Database)
  : option AppError * Database :=
  match w with
  | PostManual companyId userId input newId =>
      outcome (createJournalEntry companyId userId input newId db)
  | PostTransaction companyId userId data newId =>
      outcome (createFromTransaction companyId userId data newId db)
  | UpdateEntry companyId entryId input =>
      outcome (updateJournalEntry companyId entryId input db)
  | VoidEntry companyId entryId =>
      outcome (voidJournalEntry companyId entryId db)
  | ReverseEntry companyId userId entryId reverseDate now newId =>
      outcome (reverseJournalEntry companyId userId entryId reverseDate now
                                   newId db)
  end.

(** The entry numbers a tenant has used, in stored order. *)
Definition tenantEntryNumbers (companyId : string) (db : Database) : list Z :=
  map JournalEntry.entryNumber
      (filter (fun e => String.eqb (JournalEntry.companyId e) companyId)
              (journalEntryTable db)).

(** Every stored entry passes the double-entry validation. *)
Definition ledgerValid (db : Database) : Prop :=
  Forall (fun e => validateDoubleEntry (JournalEntry.lines e) = Ok tt)
         (journalEntryTable db).

(** What identifies a stored entry and records where it came from. *)
Definition entryOrigin (e : JournalEntry.t)
  : string * string * Z * JournalSource * option string * bool
    * option string * string :=
  (JournalEntry.id e, JournalEntry.companyId e, JournalEntry.entryNumber e,
   JournalEntry.source e, JournalEntry.sourceId e, JournalEntry.isReversing e,
   JournalEntry.reversedEntryId e, JournalEntry.createdById e).

(** [e'] is the row [e] after a write: same origin, and posted only if
    [e] was. *)
Definition keptAs (e e' : JournalEntry.t) : Prop :=
  entryOrigin e' = entryOrigin e
  /\ (JournalEntry.isPosted e' = true -> JournalEntry.isPosted e = true).

End JournalWriteDefinitions.

Module JournalWriteExamples.
Import JournalService Scenario.



(** A ledger whose only entry was posted for an invoice. *)
Definition invoiceEntry : JournalEntry.t :=
  transactionEntry PostingExamples.dbInactive "acme" "user-1"
                   PostingExamples.inactiveData "je-9".

Definition dbInvoiced : Database :=
  snd (createFromTransaction "acme" "user-1" PostingExamples.inactiveData
                             "je-9" PostingExamples.dbInactive).

End JournalWriteExamples.

(* ================================================================= *)
(** ** General ledgers *)


Definition lineSigned (debitNormal : bool) (l : JournalLine.t) : Q :=
  if debitNormal then JournalLine.debit l - JournalLine.credit l
  else JournalLine.credit l - JournalLine.debit l.





Module LedgerExamples.
Import ReportService Scenario.


End LedgerExamples.

(* ================================================================= *)
(** ** Aging reports *)

Section AgingRows.
Import ReportService.
Variable Row : Type.
Variables r_id r_number r_partyId r_partyName : Row -> string.
Variables r_date r_dueDate : Row -> Z.
Variables r_total r_amountDue : Row -> Q.

(** The row is not skipped by the loop: its amount due is positive. *)
Definition isOpenRow (row : Row) : bool := negb (Qle_bool (r_amountDue row) 0).

(** The detail line of a row. *)
Definition detailOf (asOfDate : Z) (periods : list Z) (row : Row)
  : AgingDetail :=
  mkAgingDetail (r_id row) (r_number row) (r_partyName row) (r_date row)
    (r_dueDate row) (r_total row) (r_amountDue row)
    (daysOverdue asOfDate (r_dueDate row))
    (match bucketLabel (daysOverdue asOfDate (r_dueDate row)) periods with
     | Some label => label
     | None => EmptyString
     end).

(** What holds of the state of the loop once the rows [done] have been
    visited. *)
Definition agingInvariant (asOfDate : Z) (periods : list Z) (done : list Row)
           (st : AgingState) : Prop :=
  map period (st_buckets st) = map period (buildAgingBuckets periods)
  /\ st_details st = map (detailOf asOfDate periods) (filter isOpenRow done)
  /\ (forall i b,
         nth_error (st_buckets st) i = Some b ->
         amount b
         == sum_of ad_amountDue
                   (filter (fun d => Nat.eqb (getBucketIndex (ad_daysOverdue d)
                                                             periods) i)
                           (st_details st))
         /\ count b
            = Z.of_nat
                (List.length
                   (filter (fun d => Nat.eqb (getBucketIndex (ad_daysOverdue d)
                                                             periods) i)
                           (st_details st))))
  /\ sum_of amount (st_buckets st) == sum_of ad_amountDue (st_details st)
  /\ NoDup (map fst (st_totals st))
  /\ sum_of (fun kv => pt_total (snd kv)) (st_totals st)
     == sum_of ad_amountDue (st_details st)
  /\ Forall (fun kv =>
               sum_of (fun x => x) (pt_buckets (snd kv)) == pt_total (snd kv)
               /\ List.length (pt_buckets (snd kv))
                  = List.length (st_buckets st))
            (st_totals st).

End AgingRows.

Section AgingStatements.
Import ReportService.

(** The invoices and bills an aging report is about: those of the
    tenant that are open, due on or before the reference date, with a
    positive amount due. *)
Definition openInvoice (companyId : string) (asOfDate : Z) (i : Invoice.t)
  : bool :=
  String.eqb (Invoice.companyId i) companyId
  && match Invoice.status i with
     | InvoiceStatus.SENT | InvoiceStatus.PARTIAL | InvoiceStatus.OVERDUE =>
         true
     | _ => false
     end
  && (Invoice.dueDate i <=? asOfDate)%Z
  && negb (Qle_bool (Invoice.amountDue i) 0).

Definition openBill (companyId : string) (asOfDate : Z) (b : Bill.t) : bool :=
  String.eqb (Bill.companyId b) companyId
  && match Bill.status b with
     | BillStatus.RECEIVED | BillStatus.PARTIAL | BillStatus.OVERDUE => true
     | _ => false
     end
  && (Bill.dueDate b <=? asOfDate)%Z
  && negb (Qle_bool (Bill.amountDue b) 0).

(** The bucket a listed item belongs to. *)
Definition bucketOf (periods : list Z) (d : AgingDetail) : nat :=
  getBucketIndex (ad_daysOverdue d) periods.

Definition inBucket (periods : list Z) (i : nat) (d : AgingDetail) : bool :=
  Nat.eqb (bucketOf periods d) i.

(** The details of a report list the items with the ids [ids], each
    once, by due date; each is overdue by a whole number of days that is
    not negative and carries the label of its bucket. *)
Definition agingDetailsSound (asOfDate : Z) (periods : list Z)
           (ids : list string) (report : AgingReport) : Prop :=
  Permutation (map ad_id (ar_details report)) ids
  /\ StronglySorted (fun d1 d2 => (ad_dueDate d1 <= ad_dueDate d2)%Z)
                    (ar_details report)
  /\ Forall (fun d =>
               0 < ad_amountDue d
               /\ (ad_dueDate d <= asOfDate)%Z
               /\ ad_daysOverdue d = daysOverdue asOfDate (ad_dueDate d)
               /\ (0 <= ad_daysOverdue d)%Z
               /\ (bucketOf periods d = 0%nat
                   <-> (asOfDate - ad_dueDate d < 86400000)%Z)
               /\ bucketLabel (ad_daysOverdue d) periods = Some (ad_bucket d))
            (ar_details report).

(** The totals of a report agree with its details. *)
Definition agingTotalsAgree (periods : list Z) (report : AgingReport) : Prop :=
  map period (ar_buckets report) = map period (buildAgingBuckets periods)
  /\ (forall i b,
         nth_error (ar_buckets report) i = Some b ->
         amount b
         == sum_of ad_amountDue
                   (filter (inBucket periods i) (ar_details report))
         /\ count b
            = Z.of_nat (List.length (filter (inBucket periods i)
                                            (ar_details report))))
  /\ ar_total report == sum_of ad_amountDue (ar_details report)
  /\ sum_of pt_total (ar_byParty report) == ar_total report
  /\ Forall (fun party =>
               sum_of (fun x => x) (pt_buckets party) == pt_total party
               /\ List.length (pt_buckets party)
                  = List.length (ar_buckets report))
            (ar_byParty report)
  /\ StronglySorted (fun p q => pt_total q <= pt_total p) (ar_byParty report).

End AgingStatements.

Module AgingExamples.

(** Three invoices of one tenant, as of 2024-02-28: one due on
    2024-01-10 and partly paid, one due on 2024-02-01, one that is a
    draft; and one of another tenant. *)
Definition invoices : list Invoice.t :=
  [ Invoice.mk "inv-1" "acme" "INV-000001" "cust-1" "Ada" InvoiceStatus.PARTIAL
               1704844800000 1704844800000 300 120;
    Invoice.mk "inv-2" "acme" "INV-000002" "cust-2" "Bob" InvoiceStatus.SENT
               1706745600000 1706745600000 80 80;
    Invoice.mk "inv-3" "acme" "INV-000003" "cust-1" "Ada" InvoiceStatus.DRAFT
               1706745600000 1706745600000 50 50;
    Invoice.mk "inv-4" "other" "INV-000001" "cust-9" "Eve" InvoiceStatus.SENT
               1704844800000 1704844800000 70 70 ].

End AgingExamples.

(* ================================================================= *)
(** ** Writes of the account service *)

Section AccountWriteDefinitions.
Import AccountService.

(** A call of one of the writing methods of [AccountService]. *)
Inductive AccountWrite : Type :=
| CreateAccount (companyId : string) (input : CreateAccountInput)
                (newId : string)
| UpdateAccount (fuel : nat) (companyId accountId : string)
                (input : UpdateAccountInput)
| DeactivateAccount (companyId accountId : string)
| ImportDefaultChart (companyId : string) (newId : nat -> string).

(** The error thrown, if any, and the database left behind; [None]
    while the loop of [updateAccount] is still running. *)
Definition accountWrite (w : AccountWrite) (db : Database)
  : option (option AppError * Database) :=
  match w with
  | CreateAccount companyId input newId =>
      Some (outcome (createAccount companyId input newId db))
  | UpdateAccount fuel companyId accountId input =>
      option_map outcome (updateAccount fuel companyId accountId input db)
  | DeactivateAccount companyId accountId =>
      Some (outcome (deactivateAccount companyId accountId db))
  | ImportDefaultChart companyId newId =>
      Some (outcome (importDefaultChart companyId newId db))
  end.

(** The row written by [createAccount], and the rows written by
    [importDefaultChart]. *)
Definition createdAccount (companyId : string) (input : CreateAccountInput)
           (newId : string) : Account.t :=
  Account.mk newId companyId (ca_code input) (ca_name input) (ca_type input)
             (ca_subType input) (ca_parentId input) false default_isActive
             (ca_openingBalance input).

Definition importedAccounts (companyId : string) (newId : nat -> string)
  : list Account.t :=
  map (fun '(i, acc) =>
         Account.mk (newId i) companyId (t_code acc) (t_name acc)
                    (t_type acc) (t_subType acc) None
                    (t_isSystemAccount acc || false)
                    default_isActive default_openingBalance)
      (combine (seq 0 (List.length defaultChartOfAccounts_service))
               defaultChartOfAccounts_service).

(** The account table with the rows of id [accountId] replaced by [g]
    of them. *)
Definition replaceAccount (accountId : string) (g : Account.t -> Account.t)
           (db : Database) : Database :=
  mkDatabase
    (map (fun a => if String.eqb (Account.id a) accountId then g a else a)
         (accountTable db))
    (journalEntryTable db).

(** A line of a stored entry references the account. *)
Definition referenced (db : Database) (accountId : string) : Prop :=
  exists e l, In e (journalEntryTable db) /\ In l (JournalEntry.lines e)
              /\ JournalLine.accountId l = accountId.

(** [createAccountSchema] and [updateAccountSchema]: a code that is
    given has at least one character. *)
Definition passesSchema (w : AccountWrite) : Prop :=
  match w with
  | CreateAccount _ input _ => ca_code input <> EmptyString
  | UpdateAccount _ _ _ input => up_code input <> Some EmptyString
  | DeactivateAccount _ _ | ImportDefaultChart _ _ => True
  end.

(** No stored account has the id [i], and none names it as its parent. *)
Definition unusedId (db : Database) (i : string) : Prop :=
  forall a, In a (accountTable db) ->
            Account.id a <> i /\ Account.parentId a <> Some i.

(** The uuids generated for the new rows are new and pairwise distinct. *)
Definition freshIds (w : AccountWrite) (db : Database) : Prop :=
  match w with
  | CreateAccount _ _ newId => unusedId db newId
  | ImportDefaultChart _ newId =>
      (forall i, (i < List.length defaultChartOfAccounts_service)%nat ->
                 unusedId db (newId i))
      /\ NoDup (map newId (seq 0 (List.length defaultChartOfAccounts_service)))
  | UpdateAccount _ _ _ _ | DeactivateAccount _ _ => True
  end.

(** The codes of the accounts of a tenant, in stored order. *)
Definition tenantCodes (companyId : string) (db : Database) : list string :=
  map Account.code
      (filter (fun a => String.eqb (Account.companyId a) companyId)
              (accountTable db)).

(** What a write may not change of a system account. *)
Definition protectedPart (a : Account.t)
  : string * string * string * AccountType * AccountSubType * bool :=
  (Account.id a, Account.companyId a, Account.code a, Account.type a,
   Account.subType a, Account.isSystemAccount a).

(** Following the parent links from [a] ends within [fuel] steps: at an
    account without parent, or at a parent that is not stored. *)
Fixpoint reachesRoot (fuel : nat) (db : Database) (a : Account.t) : bool :=
  match fuel with
  | O => false
  | S fuel' =>
      match Account.parentId a with
      | None => true
      | Some p =>
          if String.eqb p EmptyString then true
          else
            match account_findUnique db p with
            | None => true
            | Some next => reachesRoot fuel' db next
            end
      end
  end.

(** The parent links of the chart form no cycle. *)
Definition acyclic (db : Database) : Prop :=
  forall a, In a (accountTable db) -> exists fuel, reachesRoot fuel db a = true.

(** A stored parent has the type and the tenant of its child. *)
Definition parentsAgree (db : Database) : Prop :=
  forall a p, In a (accountTable db) -> In p (accountTable db) ->
              Account.parentId a = Some (Account.id p) ->
              Account.id p <> EmptyString ->
              Account.type p = Account.type a
              /\ Account.companyId p = Account.companyId a.

(** The subtypes for which the default chart holds a system account. *)
Definition provisionedSubTypes : list AccountSubType :=
  [CASH; ACCOUNTS_RECEIVABLE; OTHER_ASSET; ACCOUNTS_PAYABLE;
   CURRENT_LIABILITY; OWNERS_EQUITY; RETAINED_EARNINGS].

End AccountWriteDefinitions.

Module AccountWriteExamples.
Import AccountService CycleExamples.

(** Requests on the sound chart [dbTree]: a new code for [acc-x], a new
    account under [acc-x], and [acc-y] moved to the top. *)
Definition recode : UpdateAccountInput :=
  mkUpdateInput (Some "1700") None None None.

Definition newChild : CreateAccountInput :=
  mkCreateAccountInput "1620" "Vehicles" ASSET FIXED_ASSET (Some "acc-x") 0.


End AccountWriteExamples.

(* ================================================================= *)
(** ** The tree of accounts *)

Section AccountTreeDefinitions.
Import AccountService.

(** The parent an account names, when it names one. *)
Definition namedParent (a : AccountWithBalance) : option string :=
  match Account.parentId (fst a) with
  | Some p => if String.eqb p EmptyString then None else Some p
  | None => None
  end.

(** The account is a child of the listed account of id [p]. *)
Definition isChildOf (p : string) (a : AccountWithBalance) : bool :=
  match namedParent a with
  | Some q => String.eqb q p
  | None => false
  end.

(** The account names no parent, or none that is listed. *)
Definition isTop (accounts : list AccountWithBalance) (a : AccountWithBalance)
  : bool :=
  match namedParent a with
  | Some q => negb (existsb (fun b => String.eqb (Account.id (fst b)) q)
                            accounts)
  | None => true
  end.

(** The node of id [i] is part of what [buildAccountTree] returns: it is
    an element of the array of roots, or of the [children] array of a
    node that is. *)
Inductive shown (tree : AccountTree) : string -> Prop :=
| shown_root (i : string) :
    In i (rootAccounts tree) -> shown tree i
| shown_child (p : string) (node : TreeNode) (i : string) :
    shown tree p -> In (p, node) (accountMap tree) ->
    In i (node_children node) -> shown tree i.

End AccountTreeDefinitions.

Module AccountTreeExamples.
Import AccountService.

(** The accounts of [dbCycle], listed with a balance of zero. *)
Definition cycleAccounts : list AccountWithBalance :=
  map (fun a => (a, 0)) (accountTable CycleExamples.dbCycle).

(** The query without any filter. *)
Definition everyAccount : AccountQuery :=
  mkAccountQuery None None None None None.

End AccountTreeExamples.

(* ================================================================= *)
(** ** Invoices and the journal *)

Section InvoiceWriteDefinitions.
Import StoredInvoice InvoiceService.

(** A call of one of the methods of [InvoiceService] that write to the
    journal. *)
Inductive InvoiceWrite : Type :=
| SendInvoice (companyId userId invoiceId : string) (now : Z) (newId : string)
| VoidInvoice (companyId invoiceId : string).

(** The error thrown, if any, and the two tables left behind. *)
Record InvoiceOutcome : Type := mkInvoiceOutcome {
  thrown : option AppError;
  booksAfter : Database;
  invoicesAfter : list StoredInvoice.t
}.

Definition invoiceOutcome {A}
           (r : Result A * Database * list StoredInvoice.t) : InvoiceOutcome :=
  mkInvoiceOutcome (match fst (fst r) with
                    | Throw e => Some e
                    | Ok _ => None
                    end)
                   (snd (fst r)) (snd r).

Definition invoiceWrite (w : InvoiceWrite) (db : Database)
           (invoices : list StoredInvoice.t) : InvoiceOutcome :=
  match w with
  | SendInvoice companyId userId invoiceId now newId =>
      invoiceOutcome (sendInvoice companyId userId invoiceId now newId db
                                  invoices)
  | VoidInvoice companyId invoiceId =>
      invoiceOutcome (voidInvoice companyId invoiceId db invoices)
  end.

(** Everything stored for an invoice but its status and the time it was
    sent. *)
Definition invoiceContent (r : StoredInvoice.t)
  : string * string * string * string * string * Z * Z * Q * Q * Q * Q
    * list InvoiceLine.t :=
  (Invoice.id (invoice r), Invoice.companyId (invoice r),
   Invoice.invoiceNumber (invoice r), Invoice.customerId (invoice r),
   Invoice.customerName (invoice r), Invoice.date (invoice r),
   Invoice.dueDate (invoice r), Invoice.total (invoice r),
   Invoice.amountDue (invoice r), taxTotal r, amountPaid r, lines r).



(** The status that [sendInvoice] leaves in the table. *)
Definition statusAfterSend (now : Z) (r : StoredInvoice.t) : InvoiceStatus.t :=
  if (Invoice.dueDate (invoice r) <? now)%Z
     && Qltb 0 (Invoice.amountDue (invoice r))
  then InvoiceStatus.OVERDUE else InvoiceStatus.SENT.

(** The journal entry of the tenant comes from the invoice. *)
Definition fromInvoice (companyId invoiceId : string) (e : JournalEntry.t)
  : Prop :=
  JournalEntry.companyId e = companyId
  /\ JournalEntry.source e = INVOICE
  /\ JournalEntry.sourceId e = Some invoiceId.

End InvoiceWriteDefinitions.

Module InvoiceExamples.
Import Scenario.

(** A draft invoice of 1000 plus 80 of tax, due on January 31. *)
Definition consulting : StoredInvoice.t :=
  StoredInvoice.mk
    (Invoice.mk "inv-1" "acme" "INV-1001" "cust-1" "Globex"
                InvoiceStatus.DRAFT jan10 jan31 1080 1080)
    80 0 None
    [InvoiceLine.mk "acc-19" "Consulting" 1000 0].

Definition invoiceTable : list StoredInvoice.t := [consulting].

(** The invoice sent on February 28, on the books of a tenant that has
    just imported the default chart. *)
Definition sent
  : Result StoredInvoice.t * Database * list StoredInvoice.t :=
  InvoiceService.sendInvoice "acme" "user-1" "inv-1" feb28 "je-1"
                             SystemAccountExamples.dbImported invoiceTable.

End InvoiceExamples.

(* ================================================================= *)
(** * Properties *)

(** ** Enumerations *)

(** The ids of a concrete table are pairwise distinct. *)
Ltac distinct_ids := simpl; repeat constructor; simpl; intuition discriminate.

(** A closed fact settled by evaluating the services. *)
Ltac by_evaluation := vm_compute; reflexivity.

Lemma AccountType_eqb_eq (a b : AccountType) :
  AccountType_eqb a b = true <-> a = b.
Proof. destruct a, b; simpl; split; congruence. Qed.


(** ** Aging buckets *)

Section AgingBuckets.
Import ReportService.

Lemma buildAgingBuckets_length (periods : list Z) :
  List.length (buildAgingBuckets periods) = (List.length periods + 2)%nat.
Proof.
  unfold buildAgingBuckets.
  rewrite !length_app, length_map, length_seq. simpl. lia.
Qed.

Lemma buildAgingBuckets_current (periods : list Z) :
  option_map period (nth_error (buildAgingBuckets periods) 0)
  = Some "Current".
Proof. reflexivity. Qed.

Lemma buildAgingBuckets_period (periods : list Z) (i : nat) :
  (i < List.length periods)%nat ->
  option_map period (nth_error (buildAgingBuckets periods) (S i))
  = Some (periodLabel periods i).
Proof.
  intros Hi. unfold buildAgingBuckets. simpl nth_error.
  rewrite nth_error_app1 by (rewrite length_map, length_seq; exact Hi).
  rewrite nth_error_map, nth_error_seq.
  apply Nat.ltb_lt in Hi. rewrite Hi. simpl.
  unfold periodLabel. destruct i as [|j]; simpl.
  - reflexivity.
  - rewrite Nat.sub_0_r. reflexivity.
Qed.

Lemma buildAgingBuckets_over (periods : list Z) (lastBoundary : Z) :
  nth_error periods (List.length periods - 1) = Some lastBoundary ->
  option_map period
    (nth_error (buildAgingBuckets periods) (List.length periods + 1))
  = Some ("Over " ++ string_of_Z lastBoundary ++ " days").
Proof.
  intros Hlast. unfold buildAgingBuckets.
  replace (List.length periods + 1)%nat with (S (List.length periods)) by lia.
  simpl nth_error.
  rewrite nth_error_app2 by (rewrite length_map, length_seq; lia).
  rewrite length_map, length_seq, Nat.sub_diag. simpl.
  rewrite Hlast. reflexivity.
Qed.

(** The loop stops at the first boundary that is not below the item. *)
Lemma getBucketIndex_from_first (rest : list Z) :
  forall (i j : nat) (d : Z),
    (j < List.length rest)%nat ->
    (forall m, (m < j)%nat -> (nth m rest 0 < d)%Z) ->
    (d <= nth j rest 0)%Z ->
    getBucketIndex_from i d rest = (i + j + 1)%nat.
Proof.
  induction rest as [|p rest IH]; intros i j d Hj Hbelow Hle; simpl in *.
  - lia.
  - destruct j as [|j].
    + apply Z.leb_le in Hle. rewrite Hle. lia.
    + assert (Hp : (p < d)%Z) by (apply (Hbelow 0%nat); lia).
      apply Z.leb_gt in Hp. rewrite Hp.
      rewrite (IH (S i) j d).
      * lia.
      * lia.
      * intros m Hm. apply (Hbelow (S m)). lia.
      * exact Hle.
Qed.

Lemma getBucketIndex_from_beyond (rest : list Z) :
  forall (i : nat) (d : Z),
    Forall (fun p => (p < d)%Z) rest ->
    getBucketIndex_from i d rest = (i + List.length rest + 1)%nat.
Proof.
  induction rest as [|p rest IH]; intros i d Hall; simpl.
  - lia.
  - inversion Hall as [|? ? Hp Hrest]; subst.
    apply Z.leb_gt in Hp. rewrite Hp. rewrite IH by exact Hrest. lia.
Qed.

Lemma sorted_nth_lt (periods : list Z) :
  StronglySorted Z.lt periods ->
  forall m j, (m < j)%nat -> (j < List.length periods)%nat ->
              (nth m periods 0 < nth j periods 0)%Z.
Proof.
  induction 1 as [|a l Hs IH Hall]; intros m j Hmj Hj; simpl in *.
  - lia.
  - destruct j as [|j]; [lia|]. destruct m as [|m].
    + rewrite Forall_forall in Hall. apply Hall. apply nth_In. lia.
    + apply IH; lia.
Qed.

Lemma sorted_last_max (periods : list Z) (lastBoundary : Z) :
  StronglySorted Z.lt periods ->
  nth_error periods (List.length periods - 1) = Some lastBoundary ->
  Forall (fun p => (p <= lastBoundary)%Z) periods.
Proof.
  intros Hs Hlast. apply Forall_forall. intros p Hp.
  destruct (In_nth periods p 0%Z Hp) as [m [Hm Hnth]].
  assert (Hl : nth (List.length periods - 1) periods 0%Z = lastBoundary)
    by (apply nth_error_nth; exact Hlast).
  destruct (Nat.eq_dec m (List.length periods - 1)) as [->|Hne].
  - lia.
  - pose proof (sorted_nth_lt periods Hs m (List.length periods - 1)) as H.
    lia.
Qed.

Lemma first_boundary_cases (periods : list Z) (d : Z) :
  (exists i, (i < List.length periods)%nat
             /\ (forall m, (m < i)%nat -> (nth m periods 0 < d)%Z)
             /\ (d <= nth i periods 0)%Z)
  \/ Forall (fun p => (p < d)%Z) periods.
Proof.
  induction periods as [|p rest IH].
  - right. constructor.
  - destruct (Z_le_gt_dec d p) as [Hle|Hgt].
    + left. exists 0%nat. simpl. repeat split; [lia | | exact Hle].
      intros m Hm. lia.
    + destruct IH as [[i [Hi [Hbelow Hle]]]|Hall].
      * left. exists (S i). simpl. repeat split; [lia | | exact Hle].
        intros [|m] Hm; [lia | apply Hbelow; lia].
      * right. constructor; [lia | exact Hall].
Qed.

Lemma nth_error_last (periods : list Z) :
  periods <> [] ->
  nth_error periods (List.length periods - 1) = Some (last periods 0%Z).
Proof.
  induction periods as [|p rest IH]; intros Hne; [congruence|].
  destruct rest as [|q rest]; [reflexivity|].
  replace (List.length (p :: q :: rest) - 1)%nat
    with (S (List.length (q :: rest) - 1)) by (simpl; lia).
  change (nth_error (p :: q :: rest) (S (List.length (q :: rest) - 1)))
    with (nth_error (q :: rest) (List.length (q :: rest) - 1)).
  rewrite IH by discriminate. reflexivity.
Qed.

Lemma below_prefix_iff (periods : list Z) (i : nat) (d : Z) :
  StronglySorted Z.lt periods ->
  (i < List.length periods)%nat ->
  (0 < d)%Z ->
  (forall m, (m < i)%nat -> (nth m periods 0 < d)%Z)
  <-> (prevBoundary periods i < d)%Z.
Proof.
  intros Hs Hi Hd. destruct i as [|j]; simpl.
  - split; [lia | intros _ m Hm; lia].
  - split.
    + intros H. apply H. lia.
    + intros H m Hm. destruct (Nat.eq_dec m j) as [->|Hne]; [exact H|].
      pose proof (sorted_nth_lt periods Hs m j). lia.
Qed.

Lemma getBucketIndex_period (periods : list Z) (i : nat) (d : Z) :
  StronglySorted Z.lt periods ->
  (i < List.length periods)%nat ->
  (0 < d)%Z -> (prevBoundary periods i < d)%Z -> (d <= nth i periods 0)%Z ->
  getBucketIndex d periods = S i.
Proof.
  intros Hs Hi Hd Hprev Hle. unfold getBucketIndex.
  apply Z.leb_gt in Hd as Hd'. rewrite Hd'.
  rewrite (getBucketIndex_from_first periods 0 i d Hi); [lia | | exact Hle].
  apply below_prefix_iff; assumption.
Qed.

Lemma getBucketIndex_over (periods : list Z) (d : Z) :
  periods <> [] ->
  StronglySorted Z.lt periods ->
  (0 < d)%Z -> (last periods 0 < d)%Z ->
  getBucketIndex d periods = (List.length periods + 1)%nat.
Proof.
  intros Hne Hs Hd Hlast. unfold getBucketIndex.
  apply Z.leb_gt in Hd as Hd'. rewrite Hd'.
  rewrite getBucketIndex_from_beyond; [lia|].
  pose proof (sorted_last_max periods _ Hs (nth_error_last periods Hne)) as H.
  rewrite Forall_forall in *. intros p Hp. specialize (H p Hp). lia.
Qed.

(** Every item falls in exactly one of the three kinds of bucket. *)
Lemma getBucketIndex_cases (periods : list Z) (d : Z) :
  periods <> [] ->
  StronglySorted Z.lt periods ->
  ((d <= 0)%Z /\ getBucketIndex d periods = 0%nat)
  \/ ((0 < d)%Z
      /\ exists i, (i < List.length periods)%nat
                   /\ (prevBoundary periods i < d)%Z
                   /\ (d <= nth i periods 0)%Z
                   /\ getBucketIndex d periods = S i)
  \/ ((0 < d)%Z /\ (last periods 0 < d)%Z
      /\ getBucketIndex d periods = (List.length periods + 1)%nat).
Proof.
  intros Hne Hs. destruct (Z_le_gt_dec d 0) as [Hd|Hd].
  - left. split; [exact Hd|]. unfold getBucketIndex.
    apply Z.leb_le in Hd. rewrite Hd. reflexivity.
  - right. assert (Hd' : (0 < d)%Z) by lia.
    destruct (first_boundary_cases periods d)
      as [[i [Hi [Hbelow Hle]]]|Hall].
    + left. split; [exact Hd'|]. exists i.
      assert (Hprev : (prevBoundary periods i < d)%Z)
        by (apply below_prefix_iff; assumption).
      repeat split; try assumption.
      apply getBucketIndex_period; assumption.
    + right. assert (Hlast : (last periods 0 < d)%Z).
      { rewrite Forall_forall in Hall. apply Hall.
        pose proof (nth_error_last periods Hne) as H.
        apply nth_error_In in H. exact H. }
      repeat split; try assumption.
      apply getBucketIndex_over; assumption.
Qed.

(** C7.  Aging bucket assignment is a total, non-overlapping partition
    of open items by [daysOverdue].  For a non-empty ascending list of
    period boundaries: the item always lands in one of the buckets
    built for the report; it lands in "Current" exactly when
    [daysOverdue <= 0]; it lands in the bucket of period [i], labelled
    "{prevBoundary+1}-{boundary} days", exactly when [daysOverdue] is
    positive and [prevBoundary < daysOverdue <= boundary], so that an
    item overdue by exactly [periods[i]] days is in bucket [i]; and it
    lands in "Over {lastBoundary} days" exactly when [daysOverdue] is
    positive and beyond the last boundary. *)
Theorem aging_bucket_partition (periods : list Z) (d : Z) :
  periods <> [] ->
  StronglySorted Z.lt periods ->
  (getBucketIndex d periods < List.length (buildAgingBuckets periods))%nat
  /\ (((d <= 0)%Z <-> getBucketIndex d periods = 0%nat)
      /\ (getBucketIndex d periods = 0%nat ->
          bucketLabel d periods = Some "Current"))
  /\ (forall i, (i < List.length periods)%nat ->
        (((0 < d)%Z /\ (prevBoundary periods i < d)%Z
          /\ (d <= nth i periods 0)%Z)
         <-> getBucketIndex d periods = S i)
        /\ (getBucketIndex d periods = S i ->
            bucketLabel d periods = Some (periodLabel periods i))
        /\ ((0 < nth i periods 0)%Z ->
            getBucketIndex (nth i periods 0%Z) periods = S i))
  /\ ((((0 < d)%Z /\ (last periods 0 < d)%Z)
       <-> getBucketIndex d periods = (List.length periods + 1)%nat)
      /\ (getBucketIndex d periods = (List.length periods + 1)%nat ->
          bucketLabel d periods
          = Some ("Over " ++ string_of_Z (last periods 0%Z) ++ " days"))).
Proof.
  intros Hne Hs.
  pose proof (getBucketIndex_cases periods d Hne Hs) as Hcases.
  split; [|split; [|split]].
  - rewrite buildAgingBuckets_length.
    destruct Hcases as [[_ ->]|[[_ [i [Hi [_ [_ ->]]]]]|[_ [_ ->]]]]; lia.
  - split; [split|].
    + intros Hd. unfold getBucketIndex. apply Z.leb_le in Hd.
      rewrite Hd. reflexivity.
    + intros Hidx.
      destruct Hcases as [[Hd _]|[[_ [i [_ [_ [_ Hi]]]]]|[_ [_ Ho]]]];
        [exact Hd | congruence | lia].
    + intros Hidx. unfold bucketLabel. rewrite Hidx.
      apply buildAgingBuckets_current.
  - intros i Hi. split; [split|split].
    + intros [Hd [Hprev Hle]]. apply getBucketIndex_period; assumption.
    + intros Hidx.
      destruct Hcases as [[_ H0]|[[Hd [j [_ [Hprev [Hle Hj]]]]]|[_ [_ Ho]]]].
      * congruence.
      * assert (j = i) by congruence. subst j. auto.
      * lia.
    + intros Hidx. unfold bucketLabel. rewrite Hidx.
      apply buildAgingBuckets_period. exact Hi.
    + intros Hpos. apply getBucketIndex_period; try assumption; try lia.
      destruct i as [|j]; simpl; [exact Hpos|].
      apply sorted_nth_lt; try assumption; lia.
  - split; [split|].
    + intros [Hd Hlast]. apply getBucketIndex_over; assumption.
    + intros Hidx.
      destruct Hcases as [[_ H0]|[[_ [j [Hj [_ [_ Hi]]]]]|[Hd [Hlast _]]]].
      * lia.
      * lia.
      * auto.
    + intros Hidx. unfold bucketLabel. rewrite Hidx.
      apply buildAgingBuckets_over. apply nth_error_last. exact Hne.
Qed.

(** C7 at the default periods of the report, for an invoice exactly
    sixty days overdue. *)
Lemma aging_bucket_partition_witness :
  [30; 60; 90; 120]%Z <> []
  /\ StronglySorted Z.lt [30; 60; 90; 120]%Z
  /\ bucketLabel 60 [30; 60; 90; 120]%Z = Some "31-60 days".
Proof.
  assert (Hne : [30; 60; 90; 120]%Z <> []) by discriminate.
  assert (Hs : StronglySorted Z.lt [30; 60; 90; 120]%Z).
  { repeat constructor; lia. }
  split; [exact Hne|]. split; [exact Hs|].
  destruct (aging_bucket_partition [30; 60; 90; 120]%Z 60 Hne Hs)
    as [_ [_ [Hperiod _]]].
  destruct (Hperiod 1%nat) as [Hiff [Hlabel _]]; [simpl; lia|].
  apply Hlabel. apply Hiff. simpl. lia.
Defined.

End AgingBuckets.

(* ================================================================= *)
(** ** Sums of amounts *)

Section Sums.
Context {A : Type}.
Implicit Types (f g : A -> Q) (l : list A).

Lemma aggregate_sum_sum_of f l :
  decimalToNumber (aggregate_sum f l) = sum_of f l.
Proof. destruct l; reflexivity. Qed.

Lemma fold_left_sum f l (a : Q) :
  fold_left (fun sum x => sum + f x) l a == a + sum_of f l.
Proof.
  revert a. induction l as [|x l IH]; intros a; simpl.
  - lra.
  - rewrite IH. lra.
Qed.

Lemma reduce_sum_sum_of f l : reduce_sum f l == sum_of f l.
Proof. unfold reduce_sum. rewrite fold_left_sum. lra. Qed.

Lemma sum_of_app f l1 l2 :
  sum_of f (l1 ++ l2) == sum_of f l1 + sum_of f l2.
Proof.
  induction l1 as [|x l1 IH]; simpl.
  - lra.
  - rewrite IH. lra.
Qed.

Lemma sum_of_ext f g l :
  (forall x, In x l -> f x == g x) -> sum_of f l == sum_of g l.
Proof.
  induction l as [|x l IH]; intros H; simpl.
  - reflexivity.
  - rewrite (H x) by (left; reflexivity).
    rewrite IH by (intros y Hy; apply H; right; exact Hy). reflexivity.
Qed.


Lemma sum_of_minus f g l :
  sum_of (fun x => f x - g x) l == sum_of f l - sum_of g l.
Proof. induction l as [|x l IH]; simpl; [lra | rewrite IH; lra]. Qed.

Lemma sum_of_zero f l :
  (forall x, In x l -> f x == 0) -> sum_of f l == 0.
Proof.
  induction l as [|x l IH]; intros H; simpl.
  - reflexivity.
  - rewrite (H x) by (left; reflexivity).
    rewrite IH by (intros y Hy; apply H; right; exact Hy). lra.
Qed.

Lemma sum_of_Permutation f l l' :
  Permutation l l' -> sum_of f l == sum_of f l'.
Proof.
  induction 1 as [| x l l' _ IH | x y l | l l' l'' _ IH1 _ IH2]; simpl.
  - reflexivity.
  - rewrite IH. reflexivity.
  - lra.
  - rewrite IH1. exact IH2.
Qed.

End Sums.


Lemma sum_of_map {A B} (h : B -> Q) (k : A -> B) (l : list A) :
  sum_of h (map k l) = sum_of (fun x => h (k x)) l.
Proof. induction l as [|x l IH]; simpl; [reflexivity | now rewrite IH]. Qed.

Lemma or_zero_eq (x : Q) : or_zero x == x.
Proof.
  unfold or_zero. destruct (Qeq_bool x 0) eqn:E; [|reflexivity].
  apply Qeq_bool_eq in E. symmetry. exact E.
Qed.

Lemma Qltb_lt (x y : Q) : Qltb x y = true <-> x < y.
Proof.
  unfold Qltb. rewrite negb_true_iff. split.
  - intros H. apply Qnot_le_lt. intros Hle.
    apply Qle_bool_iff in Hle. congruence.
  - intros H. destruct (Qle_bool y x) eqn:E; [|reflexivity].
    apply Qle_bool_iff in E. lra.
Qed.

Lemma Qltb_ge (x y : Q) : Qltb x y = false <-> y <= x.
Proof.
  unfold Qltb. rewrite negb_false_iff. apply Qle_bool_iff.
Qed.

Lemma Qgeb_ge (x y : Q) : Qgeb x y = true <-> y <= x.
Proof. unfold Qgeb. apply Qle_bool_iff. Qed.

(* ================================================================= *)
(** ** Account balances *)

Section Balances.
Import ReportService.

Lemma filter_and_const {A} (p : A -> bool) (b : bool) (l : list A) :
  filter (fun x => p x && b) l = if b then filter p l else [].
Proof.
  destruct b.
  - apply filter_ext. intros x. apply andb_true_r.
  - induction l as [|x l IH]; simpl; [reflexivity|].
    rewrite andb_false_r. exact IH.
Qed.

Lemma flat_map_filter_cond {A B} (k : A -> list B) (c : A -> bool)
      (l : list A) :
  flat_map (fun x => if c x then k x else []) l = flat_map k (filter c l).
Proof.
  induction l as [|x l IH]; simpl; [reflexivity|].
  destruct (c x); simpl; rewrite IH; reflexivity.
Qed.

(** The rows read by [calculateAccountBalanceAsOf]. *)
Lemma balance_rows (db : Database) (accountId : string) (asOfDate : Z) :
  journalLine_where db
    (fun e l => String.eqb (JournalLine.accountId l) accountId
                && JournalEntry.isPosted e
                && (JournalEntry.date e <=? asOfDate)%Z)
  = postedLinesAsOf db accountId asOfDate.
Proof.
  unfold journalLine_where, postedLinesAsOf, postedEntriesAsOf.
  rewrite <- flat_map_filter_cond. apply flat_map_ext. intros e.
  unfold linesOfAccount.
  rewrite <- filter_and_const. apply filter_ext. intros l.
  rewrite andb_assoc. reflexivity.
Qed.

Lemma calculateAccountBalanceAsOf_unfold db accountId type asOfDate :
  calculateAccountBalanceAsOf db accountId type asOfDate
  = (let openingBalance :=
       match account_findUnique db accountId with
       | Some account => Account.openingBalance account
       | None => 0
       end in
     let rows := postedLinesAsOf db accountId asOfDate in
     if isDebitNormal type
     then openingBalance + sum_of JournalLine.debit rows
          - sum_of JournalLine.credit rows
     else openingBalance + sum_of JournalLine.credit rows
          - sum_of JournalLine.debit rows).
Proof.
  unfold calculateAccountBalanceAsOf. rewrite balance_rows.
  rewrite !aggregate_sum_sum_of.
  destruct (account_findUnique db accountId); reflexivity.
Qed.


Lemma sum_of_signedAmount (type : AccountType) (l : list JournalLine.t) :
  sum_of (signedAmount type) l
  == if isDebitNormal type
     then sum_of JournalLine.debit l - sum_of JournalLine.credit l
     else sum_of JournalLine.credit l - sum_of JournalLine.debit l.
Proof.
  destruct type; simpl; rewrite <- sum_of_minus; reflexivity.
Qed.

(** The balance of [AccountService] is the balance as of any date on or
    after the dates of all entries. *)
Lemma calculateAccountBalance_asOf (db : Database) (accountId : string)
      (type : AccountType) (asOfDate : Z) :
  Forall (fun e => (JournalEntry.date e <= asOfDate)%Z) (journalEntryTable db) ->
  AccountService.calculateAccountBalance db accountId type
  = calculateAccountBalanceAsOf db accountId type asOfDate.
Proof.
  intros Hdates.
  unfold AccountService.calculateAccountBalance, calculateAccountBalanceAsOf.
  assert (Hrows :
            journalLine_where db
              (fun e l => String.eqb (JournalLine.accountId l) accountId
                          && JournalEntry.isPosted e)
            = journalLine_where db
                (fun e l => String.eqb (JournalLine.accountId l) accountId
                            && JournalEntry.isPosted e
                            && (JournalEntry.date e <=? asOfDate)%Z)).
  { unfold journalLine_where.
    induction Hdates as [|e entries He _ IH]; simpl; [reflexivity|].
    rewrite IH. f_equal. apply filter_ext. intros l.
    apply Z.leb_le in He. rewrite He, andb_true_r. reflexivity. }
  rewrite Hrows. reflexivity.
Qed.


End Balances.

(* ================================================================= *)
(** ** Reversal *)

Section Reversal.
Import ReportService JournalService.


Lemma balance_as_sum (db : Database) (accountId : string)
      (type : AccountType) (asOfDate : Z) :
  calculateAccountBalanceAsOf db accountId type asOfDate
  == openingBalanceOf db accountId
     + sum_of (entryContribution accountId type asOfDate)
              (journalEntryTable db).
Proof.
  rewrite calculateAccountBalanceAsOf_unfold. cbv zeta.
  fold (openingBalanceOf db accountId).
  assert (H : sum_of (signedAmount type)
                     (postedLinesAsOf db accountId asOfDate)
              == sum_of (entryContribution accountId type asOfDate)
                        (journalEntryTable db)).
  { unfold postedLinesAsOf, postedEntriesAsOf.
    induction (journalEntryTable db) as [|e l IH]; simpl; [reflexivity|].
    unfold entryContribution at 1.
    destruct (JournalEntry.isPosted e && (JournalEntry.date e <=? asOfDate)%Z);
      simpl; [rewrite sum_of_app|]; rewrite IH; lra. }
  rewrite <- H, sum_of_signedAmount.
  destruct (isDebitNormal type); lra.
Qed.

Lemma signedAmount_reverseLine (type : AccountType) (l : JournalLine.t) :
  signedAmount type (reverseLine l) == - signedAmount type l.
Proof. destruct type; simpl; lra. Qed.

Lemma linesOfAccount_reversed (accountId : string) (ls : list JournalLine.t) :
  filter (fun l => String.eqb (JournalLine.accountId l) accountId)
         (map reverseLine ls)
  = map reverseLine
        (filter (fun l => String.eqb (JournalLine.accountId l) accountId) ls).
Proof.
  induction ls as [|l ls IH]; simpl; [reflexivity|].
  destruct (String.eqb (JournalLine.accountId l) accountId); simpl;
    rewrite IH; reflexivity.
Qed.

Lemma sum_of_reversed (type : AccountType) (ls : list JournalLine.t) :
  sum_of (signedAmount type) (map reverseLine ls)
  == - sum_of (signedAmount type) ls.
Proof.
  induction ls as [|l ls IH]; simpl; [lra|].
  rewrite IH, signedAmount_reverseLine. lra.
Qed.

Lemma reverseJournalEntry_found db companyId userId entryId reverseDate now
      newId entry :
  findEntry companyId entryId db = Some entry ->
  reverseJournalEntry companyId userId entryId reverseDate now newId db
  = (Ok (reversingEntry db companyId userId entry reverseDate now newId),
     mkDatabase (accountTable db)
       (journalEntryTable db
          ++ [reversingEntry db companyId userId entry reverseDate now newId])).
Proof.
  intros H. unfold reverseJournalEntry, bind, get. rewrite H. reflexivity.
Qed.

Lemma reverseJournalEntry_missing db companyId userId entryId reverseDate now
      newId :
  findEntry companyId entryId db = None ->
  reverseJournalEntry companyId userId entryId reverseDate now newId db
  = (Throw (NotFoundError "Journal entry not found"), db).
Proof.
  intros H. unfold reverseJournalEntry, bind, get. rewrite H. reflexivity.
Qed.

Lemma entryContribution_reversing db companyId userId entry reverseDate now
      newId accountId type asOfDate :
  (JournalEntry.date
     (reversingEntry db companyId userId entry reverseDate now newId)
   <= asOfDate)%Z ->
  entryContribution accountId type asOfDate
    (reversingEntry db companyId userId entry reverseDate now newId)
  == - sum_of (signedAmount type) (linesOfAccount accountId entry).
Proof.
  intros Hd. unfold entryContribution.
  apply Z.leb_le in Hd. rewrite Hd.
  change (JournalEntry.isPosted
            (reversingEntry db companyId userId entry reverseDate now newId))
    with true.
  simpl andb. cbv iota. unfold linesOfAccount.
  change (JournalEntry.lines
            (reversingEntry db companyId userId entry reverseDate now newId))
    with (map reverseLine (JournalEntry.lines entry)).
  rewrite linesOfAccount_reversed. apply sum_of_reversed.
Qed.

Lemma balance_after_append db e accountId type asOfDate :
  calculateAccountBalanceAsOf
    (mkDatabase (accountTable db) (journalEntryTable db ++ [e]))
    accountId type asOfDate
  == calculateAccountBalanceAsOf db accountId type asOfDate
     + entryContribution accountId type asOfDate e.
Proof.
  rewrite !balance_as_sum. simpl journalEntryTable.
  rewrite sum_of_app. simpl. unfold openingBalanceOf, account_findUnique.
  simpl accountTable. lra.
Qed.

Lemma findEntry_None_iff db companyId entryId :
  findEntry companyId entryId db = None
  <-> (forall e, In e (journalEntryTable db) ->
                 ~ (JournalEntry.id e = entryId
                    /\ JournalEntry.companyId e = companyId)).
Proof.
  unfold findEntry. split.
  - intros H e He [Hid Hc].
    pose proof (find_none _ _ H e He) as Hf. simpl in Hf.
    rewrite Hid, Hc, !String.eqb_refl in Hf. discriminate.
  - intros H.
    destruct (find _ (journalEntryTable db)) as [e|] eqn:E; [|reflexivity].
    apply find_some in E. destruct E as [He Hp].
    apply andb_true_iff in Hp. destruct Hp as [Hid Hc].
    apply String.eqb_eq in Hid. apply String.eqb_eq in Hc.
    exfalso. apply (H e He). split; assumption.
Qed.


(** C10.  [reverseJournalEntry] fails with NotFound exactly when the
    tenant has no entry with the given id.  For every existing entry,
    whether posted or voided and whether or not it is itself a
    reversing entry, it succeeds: the entry it creates is posted, is
    flagged as reversing the entry found, and carries the swapped
    lines; its lines count in every balance as of a date on or after
    its own date, so that reversing a voided entry (which contributed
    nothing) changes the balance of an account by the negated signed
    sum of the voided entry's lines on that account. *)
Theorem reverse_succeeds_on_every_entry db companyId userId entryId
        reverseDate now newId :
  ((exists message db',
       reverseJournalEntry companyId userId entryId reverseDate now newId db
       = (Throw (NotFoundError message), db'))
   <-> (forall e, In e (journalEntryTable db) ->
                  ~ (JournalEntry.id e = entryId
                     /\ JournalEntry.companyId e = companyId)))
  /\ (forall e, In e (journalEntryTable db) ->
                JournalEntry.id e = entryId ->
                JournalEntry.companyId e = companyId ->
      exists entry R db',
        findEntry companyId entryId db = Some entry
        /\ reverseJournalEntry companyId userId entryId reverseDate now
                               newId db = (Ok R, db')
        /\ journalEntryTable db' = (journalEntryTable db ++ [R])%list
        /\ JournalEntry.isPosted R = true
        /\ JournalEntry.isReversing R = true
        /\ JournalEntry.reversedEntryId R = Some (JournalEntry.id entry)
        /\ JournalEntry.lines R = map reverseLine (JournalEntry.lines entry)
        /\ forall accountId type asOfDate,
            (JournalEntry.date R <= asOfDate)%Z ->
            calculateAccountBalanceAsOf db' accountId type asOfDate
            == calculateAccountBalanceAsOf db accountId type asOfDate
               - sum_of (signedAmount type) (linesOfAccount accountId entry)).
Proof.
  split.
  - rewrite <- findEntry_None_iff. split.
    + intros [message [db' H]].
      destruct (findEntry companyId entryId db) as [entry|] eqn:E;
        [|reflexivity].
      rewrite (reverseJournalEntry_found _ _ _ _ _ _ _ _ E) in H.
      discriminate.
    + intros H. exists "Journal entry not found", db.
      apply reverseJournalEntry_missing. exact H.
  - intros e He Hid Hc.
    destruct (findEntry companyId entryId db) as [entry|] eqn:E.
    + exists entry. eexists. eexists. split; [reflexivity|]. split.
      { apply reverseJournalEntry_found. exact E. }
      repeat (split; [reflexivity|]).
      intros accountId type asOfDate HdR.
      rewrite balance_after_append.
      rewrite (entryContribution_reversing _ _ _ _ _ _ _ _ _ _ HdR). lra.
    + exfalso. apply (proj1 (findEntry_None_iff _ _ _) E e He).
      split; assumption.
Qed.

End Reversal.

(* ================================================================= *)
(** ** The scenario of the specification, evaluated *)

Section ScenarioChecks.
Import JournalService ReportService Scenario.

Example posting_creates_entry1 :
  createJournalEntry "acme" "user-1" sale "je-1" db0
  = (Ok entry1, mkDatabase [cash; sales] [entry1]).
Proof. by_evaluation. Qed.

Example cash_balance_jan31 :
  calculateAccountBalanceAsOf db1 "acc-cash" ASSET jan31 == 1500.
Proof. by_evaluation. Qed.

Example sales_balance_jan31 :
  calculateAccountBalanceAsOf db1 "acc-sales" REVENUE jan31 == 500.
Proof. by_evaluation. Qed.

Example reversal_lines :
  option_map JournalEntry.lines (nth_error (journalEntryTable db2) 1)
  = Some [ JournalLine.mk "acc-cash" 0 500 None None None;
           JournalLine.mk "acc-sales" 500 0 None None None ].
Proof. by_evaluation. Qed.

Example cash_balance_feb28 :
  calculateAccountBalanceAsOf db2 "acc-cash" ASSET feb28 == 1000.
Proof. by_evaluation. Qed.

(** Voiding the sale takes it out of the balance; reversing the voided
    sale then credits Cash although nothing is left to cancel. *)
Example voided_then_reversed :
  calculateAccountBalanceAsOf dbVoided "acc-cash" ASSET feb28 == 1000
  /\ calculateAccountBalanceAsOf dbVoidedReversed "acc-cash" ASSET feb28 == 500.
Proof. split; vm_compute; reflexivity. Qed.

Example trial_balance_jan31 :
  let report := getTrialBalance db1 "acme" jan31 in
  map (fun r => (row_code r, row_debit r, row_credit r)) (tb_accounts report)
  = [("1000", 1500, 0); ("4000", 0, 500)]
  /\ isBalanced report = false.
Proof. vm_compute. split; reflexivity. Qed.

End ScenarioChecks.

(* ================================================================= *)
(** ** Posting and its validation *)

Section Posting.
Import JournalService.

Lemma totalDebit_eq (lines : list JournalLine.t) :
  reduce_sum (fun line => or_zero (JournalLine.debit line)) lines
  == sum_of JournalLine.debit lines.
Proof.
  rewrite reduce_sum_sum_of. apply sum_of_ext. intros. apply or_zero_eq.
Qed.

Lemma totalCredit_eq (lines : list JournalLine.t) :
  reduce_sum (fun line => or_zero (JournalLine.credit line)) lines
  == sum_of JournalLine.credit lines.
Proof.
  rewrite reduce_sum_sum_of. apply sum_of_ext. intros. apply or_zero_eq.
Qed.

Lemma unbalanced_test (lines : list JournalLine.t) :
  Qgeb (Qabs (reduce_sum (fun line => or_zero (JournalLine.debit line)) lines
              - reduce_sum (fun line => or_zero (JournalLine.credit line))
                           lines))
       (1 # 100) = true
  <-> unbalanced lines.
Proof.
  unfold unbalanced. rewrite Qgeb_ge, totalDebit_eq, totalCredit_eq.
  reflexivity.
Qed.

Lemma validateDoubleEntry_unbalanced (lines : list JournalLine.t) :
  unbalanced lines ->
  validateDoubleEntry lines
  = Throw (BadRequestError
             (unbalancedMessage
                (reduce_sum (fun line => or_zero (JournalLine.debit line)) lines)
                (reduce_sum (fun line => or_zero (JournalLine.credit line)) lines))).
Proof.
  intros H. apply unbalanced_test in H. unfold validateDoubleEntry.
  cbv zeta. rewrite H. reflexivity.
Qed.

Lemma validateDoubleEntry_balanced (lines : list JournalLine.t) :
  ~ unbalanced lines ->
  validateDoubleEntry lines = validateDoubleEntry_lines lines.
Proof.
  intros H. unfold validateDoubleEntry. cbv zeta.
  destruct (Qgeb _ _) eqn:E; [|reflexivity].
  apply unbalanced_test in E. contradiction.
Qed.

Lemma Qltb_or_zero (x : Q) : Qltb 0 (or_zero x) = true <-> 0 < x.
Proof. rewrite Qltb_lt, or_zero_eq. reflexivity. Qed.

Lemma Qeq_bool_or_zero (x : Q) : Qeq_bool (or_zero x) 0 = true <-> x == 0.
Proof. rewrite Qeq_bool_iff, or_zero_eq. reflexivity. Qed.

Lemma validateDoubleEntry_lines_ok (lines : list JournalLine.t) :
  validateDoubleEntry_lines lines = Ok tt <-> Forall lineAccepted lines.
Proof.
  induction lines as [|l lines IH]; simpl.
  - split; [constructor | reflexivity].
  - destruct (Qltb 0 (or_zero (JournalLine.debit l))
              && Qltb 0 (or_zero (JournalLine.credit l))) eqn:Eb.
    + split; [discriminate|]. intros H. inversion H as [|? ? [Hnb _] _]; subst.
      exfalso. apply Hnb. apply andb_true_iff in Eb.
      rewrite !Qltb_or_zero in Eb. exact Eb.
    + destruct (Qeq_bool (or_zero (JournalLine.debit l)) 0
                && Qeq_bool (or_zero (JournalLine.credit l)) 0) eqn:En.
      * split; [discriminate|]. intros H.
        inversion H as [|? ? [_ Hnn] _]; subst.
        exfalso. apply Hnn. apply andb_true_iff in En.
        rewrite !Qeq_bool_or_zero in En. exact En.
      * rewrite IH. split.
        -- intros H. constructor; [|exact H]. split.
           ++ intros [Hd Hc]. apply Qltb_or_zero in Hd, Hc.
              rewrite Hd, Hc in Eb. discriminate.
           ++ intros [Hd Hc]. apply Qeq_bool_or_zero in Hd, Hc.
              rewrite Hd, Hc in En. discriminate.
        -- intros H. inversion H; assumption.
Qed.





(** *** The account check of manual posting *)

Lemma existsb_eqb_In (x : string) (l : list string) :
  existsb (String.eqb x) l = true <-> In x l.
Proof.
  rewrite existsb_exists. split.
  - intros [y [Hy E]]. apply String.eqb_eq in E. subst. exact Hy.
  - intros H. exists x. split; [exact H | apply String.eqb_refl].
Qed.

Lemma dedupe_spec (xs : list string) :
  forall seen,
    NoDup (dedupe seen xs)
    /\ forall x, In x (dedupe seen xs) <-> In x xs /\ ~ In x seen.
Proof.
  induction xs as [|y xs IH]; intros seen; simpl.
  - split; [constructor|]. intros x. tauto.
  - destruct (existsb (String.eqb y) seen) eqn:E.
    + apply existsb_eqb_In in E. destruct (IH seen) as [Hnd Hin].
      split; [exact Hnd|]. intros x. rewrite Hin. split.
      * tauto.
      * intros [[->|Hx] Hns]; [contradiction | tauto].
    + assert (Hy : ~ In y seen).
      { intros H. apply existsb_eqb_In in H. congruence. }
      destruct (IH (y :: seen)) as [Hnd Hin]. split.
      * constructor; [|exact Hnd]. rewrite Hin. simpl. tauto.
      * intros x. simpl. rewrite Hin. simpl.
        destruct (string_dec y x) as [->|Hne]; tauto.
Qed.

Lemma ids_distinct_filter (keep : Account.t -> bool)
      (accounts : list Account.t) :
  NoDup (map Account.id accounts) ->
  NoDup (map Account.id (filter keep accounts)).
Proof.
  induction accounts as [|a accounts IH]; simpl; intros Hnd; [constructor|].
  inversion Hnd as [|? ? Hfresh Hrest]; subst.
  destruct (keep a); simpl; [|auto].
  constructor; [|auto]. intros Hin. apply Hfresh.
  apply in_map_iff in Hin. destruct Hin as [b [Hb Hin]].
  apply filter_In in Hin. apply in_map_iff. exists b. tauto.
Qed.

Lemma NoDup_map_inj {A B} (f : A -> B) (l : list A) (x y : A) :
  NoDup (map f l) -> In x l -> In y l -> f x = f y -> x = y.
Proof.
  induction l as [|z l IH]; simpl; intros H Hx Hy E; [contradiction|].
  inversion H as [|? ? Hnotin Hrest]; subst.
  destruct Hx as [->|Hx], Hy as [->|Hy].
  - reflexivity.
  - exfalso. apply Hnotin. rewrite E. apply in_map. exact Hy.
  - exfalso. apply Hnotin. rewrite <- E. apply in_map. exact Hx.
  - auto.
Qed.

Lemma selectedAccounts_In db companyId lines a :
  In a (selectedAccounts db companyId lines)
  <-> In a (accountTable db)
      /\ (exists l, In l lines /\ JournalLine.accountId l = Account.id a)
      /\ Account.companyId a = companyId.
Proof.
  unfold selectedAccounts. rewrite filter_In, andb_true_iff.
  rewrite existsb_eqb_In, String.eqb_eq.
  destruct (dedupe_spec (map JournalLine.accountId lines) []) as [_ Hin].
  rewrite Hin, in_map_iff. simpl. split.
  - intros [Ha [[[l [E Hl]] _] Hc]]. eauto.
  - intros [Ha [[l [Hl E]] Hc]]. eauto 8.
Qed.


(** The answers of [validateAccounts]; it never writes. *)
Lemma validateAccounts_cases db companyId lines :
  validateAccounts companyId lines db = (Ok tt, db)
  \/ validateAccounts companyId lines db
     = (Throw (BadRequestError "One or more accounts not found"), db)
  \/ exists a,
      In a (accountTable db)
      /\ Account.companyId a = companyId
      /\ Account.isActive a = false
      /\ (exists l, In l lines /\ JournalLine.accountId l = Account.id a)
      /\ validateAccounts companyId lines db
         = (Throw (BadRequestError
                     ("Account " ++ Account.code a ++ " is inactive")), db).
Proof.
  unfold validateAccounts, bind, get.
  fold (selectedAccounts db companyId lines).
  destruct (negb (Nat.eqb _ _)).
  - right. left. reflexivity.
  - destruct (find _ (selectedAccounts db companyId lines)) as [a|] eqn:E.
    + right. right. exists a. apply find_some in E. destruct E as [Ha Hi].
      apply selectedAccounts_In in Ha. destruct Ha as [Hacc [Hl Hc]].
      apply negb_true_iff in Hi. repeat split; assumption.
    + left. reflexivity.
Qed.

Lemma validateAccounts_ok_inv db companyId lines :
  NoDup (map Account.id (accountTable db)) ->
  validateAccounts companyId lines db = (Ok tt, db) ->
  forall l, In l lines -> referencesActive db companyId l.
Proof.
  intros Hnd Hok l Hl. unfold validateAccounts, bind, get in Hok.
  fold (selectedAccounts db companyId lines) in Hok.
  destruct (dedupe_spec (map JournalLine.accountId lines) []) as [Hdd Hin].
  set (ids := dedupe [] (map JournalLine.accountId lines)) in *.
  set (sel := selectedAccounts db companyId lines) in *.
  destruct (Nat.eqb (List.length sel) (List.length ids)) eqn:Elen;
    [|discriminate].
  apply Nat.eqb_eq in Elen. simpl in Hok.
  destruct (find (fun a => negb (Account.isActive a)) sel) as [a|] eqn:E;
    [discriminate|].
  assert (Hsel : NoDup (map Account.id sel))
    by (apply ids_distinct_filter; exact Hnd).
  assert (H1 : incl (map Account.id sel) ids).
  { intros i Hi. apply in_map_iff in Hi. destruct Hi as [a [<- Ha]].
    apply selectedAccounts_In in Ha. destruct Ha as [_ [[l' [Hl' E']] _]].
    apply Hin. split; [|tauto]. apply in_map_iff. eauto. }
  assert (H2 : incl ids (map Account.id sel)).
  { apply NoDup_length_incl; try assumption.
    rewrite length_map. lia. }
  assert (Hid : In (JournalLine.accountId l) ids).
  { apply Hin. split; [|tauto]. apply in_map. exact Hl. }
  apply H2 in Hid. apply in_map_iff in Hid. destruct Hid as [a [Ea Ha]].
  pose proof (find_none _ _ E a Ha) as Hact. apply negb_false_iff in Hact.
  apply selectedAccounts_In in Ha. destruct Ha as [Hacc [_ Hc]].
  exists a. repeat split; assumption.
Qed.

Lemma createJournalEntry_throw db companyId userId input newId e :
  validateDoubleEntry (in_lines input) = Throw e ->
  createJournalEntry companyId userId input newId db = (Throw e, db).
Proof.
  intros H. unfold createJournalEntry, bind, lift. rewrite H. reflexivity.
Qed.

Lemma createFromTransaction_throw db companyId userId data newId e :
  validateDoubleEntry (tx_lines data) = Throw e ->
  createFromTransaction companyId userId data newId db = (Throw e, db).
Proof.
  intros H. unfold createFromTransaction, bind, lift. rewrite H. reflexivity.
Qed.

Lemma createFromTransaction_ok db companyId userId data newId :
  validateDoubleEntry (tx_lines data) = Ok tt ->
  createFromTransaction companyId userId data newId db
  = (Ok (transactionEntry db companyId userId data newId),
     appendEntry db (transactionEntry db companyId userId data newId)).
Proof.
  intros H. unfold createFromTransaction, bind, lift. rewrite H. reflexivity.
Qed.

Lemma createJournalEntry_accounts db companyId userId input newId :
  validateDoubleEntry (in_lines input) = Ok tt ->
  createJournalEntry companyId userId input newId db
  = match validateAccounts companyId (in_lines input) db with
    | (Throw e, db') => (Throw e, db')
    | (Ok _, db') =>
        (Ok (manualEntry db' companyId userId input newId),
         appendEntry db' (manualEntry db' companyId userId input newId))
    end.
Proof.
  intros H. unfold createJournalEntry, bind, lift. rewrite H.
  destruct (validateAccounts companyId (in_lines input) db) as [[e|[]] db'];
    reflexivity.
Qed.

Lemma validateDoubleEntry_ok_iff (lines : list JournalLine.t) :
  validateDoubleEntry lines = Ok tt
  <-> ~ unbalanced lines /\ Forall lineAccepted lines.
Proof.
  split.
  - intros H. assert (Hb : ~ unbalanced lines).
    { intros Hu. rewrite (validateDoubleEntry_unbalanced _ Hu) in H.
      discriminate. }
    split; [exact Hb|]. rewrite (validateDoubleEntry_balanced _ Hb) in H.
    apply validateDoubleEntry_lines_ok. exact H.
  - intros [Hb Hl]. rewrite (validateDoubleEntry_balanced _ Hb).
    apply validateDoubleEntry_lines_ok. exact Hl.
Qed.



End Posting.

(* ================================================================= *)
(** ** Examples of posting requests *)

Section PostingExamplesFacts.
Import JournalService Scenario.
Import PostingExamples.






End PostingExamplesFacts.

(* ================================================================= *)
(** ** The scenario, through the theorems *)

Section ScenarioFacts.
Import JournalService ReportService Scenario.



End ScenarioFacts.

(* ================================================================= *)
(** ** System accounts *)

Section SystemAccounts.
Import AccountService.




End SystemAccounts.

Section SystemAccountExamplesFacts.
Import AccountService.
Import SystemAccountExamples.


End SystemAccountExamplesFacts.

(* ================================================================= *)
(** ** The cycle check of reparenting *)

Section CycleCheck.
Import AccountService.

(** More fuel does not change an answer. *)
Lemma circularCheck_more_fuel (db : Database) (accountId : string) :
  forall fuel extra currentParent r,
    circularCheck fuel db accountId currentParent = Some r ->
    circularCheck (fuel + extra) db accountId currentParent = Some r.
Proof.
  induction fuel as [|fuel IH]; intros extra cur r H; simpl in *.
  - discriminate.
  - destruct (circularCheck_step db accountId cur) as [next|r'].
    + apply IH. exact H.
    + exact H.
Qed.







End CycleCheck.

Section CycleExamplesFacts.
Import AccountService.
Import CycleExamples.

(** Moving [acc-x] under its own child is refused. *)
Example reparent_under_child_refused :
  updateAccount 2 "acme" "acc-x"
                (mkUpdateInput None None (Some (Some "acc-y")) None) dbTree
  = Some (Throw (BadRequestError "Circular parent reference detected"), dbTree).
Proof. by_evaluation. Qed.

(** Moving [acc-y] to the top level is accepted. *)
Example reparent_to_root_accepted :
  option_map snd
    (updateAccount 0 "acme" "acc-y" (mkUpdateInput None None (Some None) None)
                   dbTree)
  = Some (mkDatabase [accX; asset "acc-y" "1610" None] []).
Proof. by_evaluation. Qed.





End CycleExamplesFacts.

(* ================================================================= *)
(** ** From sums per account to sums per line *)

Section LineSums.
Import ReportService.









Lemma orderBy_code_Permutation (l : list Account.t) :
  Permutation (orderBy_code l) l.
Proof.
  assert (Hins : forall a l', Permutation (insert_by_code a l') (a :: l')).
  { intros a l'. induction l' as [|b l' IH]; simpl; [reflexivity|].
    destruct (String.leb (Account.code a) (Account.code b)); [reflexivity|].
    rewrite IH. apply perm_swap. }
  induction l as [|a l IH]; simpl; [constructor|].
  rewrite Hins. constructor. exact IH.
Qed.


End LineSums.

(* ================================================================= *)
(** ** Trial balance *)

Section TrialBalance.
Import ReportService.

Lemma findUnique_member (db : Database) (a : Account.t) :
  NoDup (map Account.id (accountTable db)) ->
  In a (accountTable db) ->
  account_findUnique db (Account.id a) = Some a.
Proof.
  intros Hnd Hin. unfold account_findUnique.
  destruct (find _ (accountTable db)) as [b|] eqn:E.
  - apply find_some in E. destruct E as [Hb Hid].
    apply String.eqb_eq in Hid. f_equal.
    apply (NoDup_map_inj Account.id (accountTable db)); assumption.
  - pose proof (find_none _ _ E a Hin) as Hf. simpl in Hf.
    rewrite String.eqb_refl in Hf. discriminate.
Qed.








End TrialBalance.

(* ================================================================= *)
(** ** Trial balances of small ledgers *)

Section TrialBalanceExamplesFacts.
Import JournalService AccountService ReportService Scenario.
Import TrialBalanceExamples.




End TrialBalanceExamplesFacts.

(* ================================================================= *)
(** ** Balance sheet *)

Section BalanceSheetProofs.
Import ReportService.







Lemma mergeCompare_balance (compareAccounts l : list ReportAccount) :
  reduce_sum balance (map (mergeCompare compareAccounts) l)
  == reduce_sum balance l.
Proof.
  rewrite !reduce_sum_sum_of, sum_of_map. apply sum_of_ext. reflexivity.
Qed.



End BalanceSheetProofs.

(* ================================================================= *)
(** ** Balance sheets of small ledgers *)

Section BalanceSheetExamplesFacts.
Import JournalService AccountService ReportService Scenario.
Import TrialBalanceExamples.
Import BalanceSheetExamples.



End BalanceSheetExamplesFacts.

(* ================================================================= *)
(** ** Writes of the journal service *)

Section JournalWrites.
Import JournalService.

Lemma JournalSource_eqb_eq (a b : JournalSource) :
  JournalSource_eqb a b = true <-> a = b.
Proof. destruct a, b; simpl; split; congruence. Qed.

Lemma maxEntryNumber_max (l : list JournalEntry.t) :
  match maxEntryNumber l with
  | None => l = []
  | Some m =>
      In m l
      /\ forall e, In e l ->
                   (JournalEntry.entryNumber e <= JournalEntry.entryNumber m)%Z
  end.
Proof.
  induction l as [|x rest IH]; simpl; [reflexivity|].
  destruct (maxEntryNumber rest) as [m|].
  - destruct IH as [Hin Hmax].
    destruct (JournalEntry.entryNumber m <=? JournalEntry.entryNumber x)%Z eqn:E.
    + apply Z.leb_le in E. split; [now left|].
      intros e [<-|He]; [lia|]. specialize (Hmax e He). lia.
    + apply Z.leb_gt in E. split; [now right|].
      intros e [<-|He]; [lia|]. now apply Hmax.
  - subst rest. split; [now left|]. intros e [<-|[]]. lia.
Qed.

(** The next entry number of a tenant is above every number it has used. *)
Lemma nextEntryNumber_above (db : Database) (companyId : string)
      (e : JournalEntry.t) :
  In e (journalEntryTable db) ->
  JournalEntry.companyId e = companyId ->
  (JournalEntry.entryNumber e < nextEntryNumber companyId db)%Z.
Proof.
  intros Hin Hc. unfold nextEntryNumber, lastEntry.
  pose proof (maxEntryNumber_max
                (filter (fun e => String.eqb (JournalEntry.companyId e) companyId)
                        (journalEntryTable db))) as H.
  assert (Hf : In e (filter (fun e => String.eqb (JournalEntry.companyId e)
                                                 companyId)
                            (journalEntryTable db))).
  { apply filter_In. split; [exact Hin|]. now apply String.eqb_eq. }
  destruct (maxEntryNumber _) as [m|].
  - destruct H as [_ Hmax]. specialize (Hmax e Hf).
    destruct (JournalEntry.entryNumber m =? 0)%Z eqn:E0.
    + apply Z.eqb_eq in E0. lia.
    + lia.
  - rewrite H in Hf. destruct Hf.
Qed.

Lemma journalWrite_cases (w : JournalWrite) (db : Database) :
  (exists e, journalWrite w db = (Some e, db))
  \/ (exists c u input n,
         w = PostManual c u input n
         /\ validateDoubleEntry (in_lines input) = Ok tt
         /\ journalWrite w db
            = (None, appendEntry db (manualEntry db c u input n)))
  \/ (exists c u data n,
         w = PostTransaction c u data n
         /\ validateDoubleEntry (tx_lines data) = Ok tt
         /\ journalWrite w db
            = (None, appendEntry db (transactionEntry db c u data n)))
  \/ (exists c u i rd now n entry,
         w = ReverseEntry c u i rd now n
         /\ findEntry c i db = Some entry
         /\ journalWrite w db
            = (None, appendEntry db (reversingEntry db c u entry rd now n)))
  \/ (exists c i entry,
         w = VoidEntry c i
         /\ findEntry c i db = Some entry
         /\ JournalEntry.source entry = MANUAL
         /\ journalWrite w db
            = (None,
               mkDatabase (accountTable db)
                 (map (fun e => if String.eqb (JournalEntry.id e) i
                                then setPosted false e else e)
                      (journalEntryTable db))))
  \/ (exists c i input entry,
         w = UpdateEntry c i input
         /\ findEntry c i db = Some entry
         /\ JournalEntry.source entry = MANUAL
         /\ (forall ls, upd_lines input = Some ls ->
                        validateDoubleEntry ls = Ok tt
                        /\ validateAccounts c ls db = (Ok tt, db))
         /\ journalWrite w db
            = (None,
               mkDatabase (accountTable db)
                 (map (fun e => if String.eqb (JournalEntry.id e) i
                                then applyEntryUpdate input e else e)
                      (journalEntryTable db)))).
Proof.
  destruct w as [c u input n|c u data n|c i input|c i|c u i rd now n]; simpl.
  - destruct (validateDoubleEntry (in_lines input)) as [e|[]] eqn:V.
    + left. exists e. now rewrite (createJournalEntry_throw _ _ _ _ _ _ V).
    + rewrite (createJournalEntry_accounts _ _ _ _ _ V).
      destruct (validateAccounts_cases db c (in_lines input))
        as [H|[H|(a & _ & _ & _ & _ & H)]]; rewrite H.
      * right; left. exists c, u, input, n. now repeat split.
      * left. eexists. reflexivity.
      * left. eexists. reflexivity.
  - destruct (validateDoubleEntry (tx_lines data)) as [e|[]] eqn:V.
    + left. exists e. now rewrite (createFromTransaction_throw _ _ _ _ _ _ V).
    + rewrite (createFromTransaction_ok _ _ _ _ _ V).
      right; right; left. exists c, u, data, n. now repeat split.
  - unfold updateJournalEntry, bind, get, throw, ret, put, lift, outcome.
    destruct (findEntry c i db) as [entry|] eqn:F; simpl;
      [|left; eexists; reflexivity].
    destruct (JournalSource_eqb (JournalEntry.source entry) MANUAL) eqn:S;
      simpl; [|left; eexists; reflexivity].
    apply JournalSource_eqb_eq in S.
    destruct (upd_lines input) as [ls|] eqn:L.
    + destruct (validateDoubleEntry ls) as [e|[]] eqn:V;
        [left; eexists; reflexivity|].
      destruct (validateAccounts_cases db c ls)
        as [H|[H|(a & _ & _ & _ & _ & H)]]; rewrite H; simpl.
      * do 5 right. exists c, i, input, entry.
        split; [reflexivity|]. split; [exact F|]. split; [exact S|].
        split; [|reflexivity].
        intros ls' E. rewrite L in E. injection E as <-. now split.
      * left. eexists. reflexivity.
      * left. eexists. reflexivity.
    + do 5 right. exists c, i, input, entry.
      split; [reflexivity|]. split; [exact F|]. split; [exact S|].
      split; [|reflexivity].
      intros ls' E. rewrite L in E. discriminate.
  - unfold voidJournalEntry, bind, get, throw, put, outcome.
    destruct (findEntry c i db) as [entry|] eqn:F; simpl;
      [|left; eexists; reflexivity].
    destruct (JournalSource_eqb (JournalEntry.source entry) MANUAL) eqn:S;
      simpl; [|left; eexists; reflexivity].
    apply JournalSource_eqb_eq in S.
    do 4 right; left. exists c, i, entry. now repeat split.
  - destruct (findEntry c i db) as [entry|] eqn:F.
    + rewrite (reverseJournalEntry_found _ _ _ _ _ _ _ _ F).
      do 3 right; left. exists c, u, i, rd, now, n, entry. now repeat split.
    + rewrite (reverseJournalEntry_missing _ _ _ _ _ _ _ F).
      left. eexists. reflexivity.
Qed.

(** *** What a write keeps of the stored entries *)

Lemma keptAs_refl (e : JournalEntry.t) : keptAs e e.
Proof. split; [reflexivity|tauto]. Qed.

Lemma keptAs_setPosted (e : JournalEntry.t) : keptAs e (setPosted false e).
Proof. split; [reflexivity|]. simpl. discriminate. Qed.

Lemma keptAs_applyEntryUpdate (input : UpdateJournalEntryInput)
      (e : JournalEntry.t) :
  keptAs e (applyEntryUpdate input e).
Proof. split; [reflexivity|]. simpl. tauto. Qed.

Lemma keptAs_map (g : JournalEntry.t -> JournalEntry.t) (i : string)
      (l : list JournalEntry.t) :
  (forall e, keptAs e (g e)) ->
  Forall2 keptAs l
          (map (fun e => if String.eqb (JournalEntry.id e) i then g e else e) l).
Proof.
  intros Hg. induction l as [|x rest IH]; simpl; constructor; [|exact IH].
  destruct (String.eqb (JournalEntry.id x) i); [apply Hg|apply keptAs_refl].
Qed.

Lemma keptAs_all (l : list JournalEntry.t) : Forall2 keptAs l l.
Proof. induction l; constructor; [apply keptAs_refl|assumption]. Qed.

(** X1: a rejected write of the journal service leaves the database as
    it was, and no write of the journal service touches the accounts. *)
Theorem journal_write_rejected_changes_nothing (w : JournalWrite)
        (db : Database) :
  accountTable (snd (journalWrite w db)) = accountTable db
  /\ (forall e, fst (journalWrite w db) = Some e ->
                snd (journalWrite w db) = db).
Proof.
  destruct (journalWrite_cases w db)
    as [(e & H)|[(c & u & input & n & _ & _ & H)
       |[(c & u & data & n & _ & _ & H)
       |[(c & u & i & rd & now & n & entry & _ & _ & H)
       |[(c & i & entry & _ & _ & _ & H)
       |(c & i & input & entry & _ & _ & _ & _ & H)]]]]];
    rewrite H; simpl; split; try reflexivity; intros e'; discriminate.
Qed.

(** X2: a write of the journal service never deletes, reorders or
    renumbers a stored entry and never posts a voided one again; it adds
    at most one entry, at the end, whose number is above every number
    its tenant has used. *)
Theorem journal_history_kept (w : JournalWrite) (db : Database) :
  exists kept added,
    journalEntryTable (snd (journalWrite w db)) = (kept ++ added)%list
    /\ Forall2 keptAs (journalEntryTable db) kept
    /\ (List.length added <= 1)%nat
    /\ forall e e0,
        In e added -> In e0 (journalEntryTable db) ->
        JournalEntry.companyId e0 = JournalEntry.companyId e ->
        (JournalEntry.entryNumber e0 < JournalEntry.entryNumber e)%Z.
Proof.
  assert (Hnew : forall e,
             JournalEntry.entryNumber e
             = nextEntryNumber (JournalEntry.companyId e) db ->
             exists kept added,
               (journalEntryTable db ++ [e])%list = (kept ++ added)%list
               /\ Forall2 keptAs (journalEntryTable db) kept
               /\ (List.length added <= 1)%nat
               /\ forall e' e0,
                   In e' added -> In e0 (journalEntryTable db) ->
                   JournalEntry.companyId e0 = JournalEntry.companyId e' ->
                   (JournalEntry.entryNumber e0
                    < JournalEntry.entryNumber e')%Z).
  { intros e He. exists (journalEntryTable db), [e].
    split; [reflexivity|]. split; [apply keptAs_all|]. split; [simpl; lia|].
    intros e' e0 [<-|[]] Hin Hc. rewrite He.
    now apply nextEntryNumber_above. }
  assert (Hold : forall l,
             Forall2 keptAs (journalEntryTable db) l ->
             exists kept added,
               l = (kept ++ added)%list
               /\ Forall2 keptAs (journalEntryTable db) kept
               /\ (List.length added <= 1)%nat
               /\ forall e' e0,
                   In e' added -> In e0 (journalEntryTable db) ->
                   JournalEntry.companyId e0 = JournalEntry.companyId e' ->
                   (JournalEntry.entryNumber e0
                    < JournalEntry.entryNumber e')%Z).
  { intros l Hl. exists l, []. split; [now rewrite app_nil_r|].
    split; [exact Hl|]. split; [simpl; lia|]. intros e' e0 []. }
  destruct (journalWrite_cases w db)
    as [(e & H)|[(c & u & input & n & _ & _ & H)
       |[(c & u & data & n & _ & _ & H)
       |[(c & u & i & rd & now & n & entry & _ & _ & H)
       |[(c & i & entry & _ & _ & _ & H)
       |(c & i & input & entry & _ & _ & _ & _ & H)]]]]];
    rewrite H; simpl.
  - apply Hold, keptAs_all.
  - now apply Hnew.
  - now apply Hnew.
  - now apply Hnew.
  - apply Hold, keptAs_map, keptAs_setPosted.
  - apply Hold, keptAs_map, keptAs_applyEntryUpdate.
Qed.

(** *** Entry numbers *)

Lemma tenantEntryNumbers_append (db : Database) (e : JournalEntry.t)
      (companyId : string) :
  tenantEntryNumbers companyId (appendEntry db e)
  = (tenantEntryNumbers companyId db
     ++ if String.eqb (JournalEntry.companyId e) companyId
        then [JournalEntry.entryNumber e] else [])%list.
Proof.
  unfold tenantEntryNumbers, appendEntry. simpl.
  rewrite filter_app, map_app. simpl.
  now destruct (String.eqb (JournalEntry.companyId e) companyId).
Qed.

Lemma tenantEntryNumbers_map (db : Database) (companyId i : string)
      (g : JournalEntry.t -> JournalEntry.t) :
  (forall e, keptAs e (g e)) ->
  tenantEntryNumbers companyId
    (mkDatabase (accountTable db)
       (map (fun e => if String.eqb (JournalEntry.id e) i then g e else e)
            (journalEntryTable db)))
  = tenantEntryNumbers companyId db.
Proof.
  intros Hg. unfold tenantEntryNumbers. simpl.
  induction (journalEntryTable db) as [|x rest IH]; simpl; [reflexivity|].
  assert (Hx : JournalEntry.companyId
                 (if String.eqb (JournalEntry.id x) i then g x else x)
               = JournalEntry.companyId x
               /\ JournalEntry.entryNumber
                    (if String.eqb (JournalEntry.id x) i then g x else x)
                  = JournalEntry.entryNumber x).
  { destruct (String.eqb (JournalEntry.id x) i); [|now split].
    destruct (Hg x) as [Ho _]. unfold entryOrigin in Ho.
    injection Ho as _ Hc Hn _ _ _ _ _. now split. }
  destruct Hx as [Hc Hn]. rewrite Hc.
  destruct (String.eqb (JournalEntry.companyId x) companyId); simpl;
    [rewrite Hn|]; now rewrite IH.
Qed.

Lemma NoDup_above (l : list Z) (x : Z) :
  NoDup l -> (forall y, In y l -> (y < x)%Z) -> NoDup (l ++ [x]).
Proof.
  intros Hl Hx. induction Hl as [|y l Hy Hl IH]; simpl.
  - constructor; [intros []|constructor].
  - constructor.
    + rewrite in_app_iff. intros [H|[H|[]]]; [now apply Hy|].
      specialize (Hx y (or_introl eq_refl)). lia.
    + apply IH. intros z Hz. apply Hx. now right.
Qed.

Lemma tenantEntryNumbers_next (db : Database) (companyId : string) (y : Z) :
  In y (tenantEntryNumbers companyId db) ->
  (y < nextEntryNumber companyId db)%Z.
Proof.
  unfold tenantEntryNumbers. intros H. apply in_map_iff in H.
  destruct H as (e & <- & He). apply filter_In in He. destruct He as [He Hc].
  apply nextEntryNumber_above; [exact He|]. now apply String.eqb_eq.
Qed.

(** X3: the entry numbers of a tenant stay pairwise distinct under every
    write of the journal service. *)
Theorem entry_numbers_stay_distinct (w : JournalWrite) (db : Database)
        (companyId : string) :
  NoDup (tenantEntryNumbers companyId db) ->
  NoDup (tenantEntryNumbers companyId (snd (journalWrite w db))).
Proof.
  intros Hd.
  assert (Hnew : forall e,
             JournalEntry.entryNumber e
             = nextEntryNumber (JournalEntry.companyId e) db ->
             NoDup (tenantEntryNumbers companyId (appendEntry db e))).
  { intros e He. rewrite tenantEntryNumbers_append.
    destruct (String.eqb (JournalEntry.companyId e) companyId) eqn:E.
    - apply String.eqb_eq in E. apply NoDup_above; [exact Hd|].
      intros y Hy. rewrite He, E. now apply tenantEntryNumbers_next.
    - now rewrite app_nil_r. }
  destruct (journalWrite_cases w db)
    as [(e & H)|[(c & u & input & n & _ & _ & H)
       |[(c & u & data & n & _ & _ & H)
       |[(c & u & i & rd & now & n & entry & _ & _ & H)
       |[(c & i & entry & _ & _ & _ & H)
       |(c & i & input & entry & _ & _ & _ & _ & H)]]]]];
    rewrite H; simpl.
  - exact Hd.
  - now apply Hnew.
  - now apply Hnew.
  - now apply Hnew.
  - rewrite tenantEntryNumbers_map; [exact Hd|apply keptAs_setPosted].
  - rewrite tenantEntryNumbers_map; [exact Hd|apply keptAs_applyEntryUpdate].
Qed.

Lemma entry_numbers_stay_distinct_witness :
  NoDup (tenantEntryNumbers "acme" Scenario.db1)
  /\ NoDup (tenantEntryNumbers "acme"
              (snd (journalWrite
                      (ReverseEntry "acme" "user-1" "je-1"
                                    (Some Scenario.feb01) Scenario.feb01 "je-2")
                      Scenario.db1))).
Proof.
  assert (H : NoDup (tenantEntryNumbers "acme" Scenario.db1)).
  { vm_compute. constructor; [intros []|constructor]. }
  split; [exact H|].
  exact (entry_numbers_stay_distinct _ _ _ H).
Defined.

(** *** Double entry of the stored entries *)

Lemma sum_of_createLine (ls : list JournalLine.t) :
  sum_of JournalLine.debit (map createLine ls) == sum_of JournalLine.debit ls
  /\ sum_of JournalLine.credit (map createLine ls)
     == sum_of JournalLine.credit ls.
Proof.
  rewrite !sum_of_map. split; apply sum_of_ext; intros l _; simpl;
    apply or_zero_eq.
Qed.


Lemma lineAccepted_createLine (l : JournalLine.t) :
  lineAccepted l -> lineAccepted (createLine l).
Proof.
  unfold lineAccepted, bothPositive. simpl.
  rewrite !or_zero_eq. tauto.
Qed.


Lemma validateDoubleEntry_createLine (ls : list JournalLine.t) :
  validateDoubleEntry ls = Ok tt ->
  validateDoubleEntry (map createLine ls) = Ok tt.
Proof.
  rewrite !validateDoubleEntry_ok_iff. intros [Hb Hl]. split.
  - unfold unbalanced in *. destruct (sum_of_createLine ls) as [Hd Hc].
    now rewrite Hd, Hc.
  - apply Forall_forall. intros l' Hin. apply in_map_iff in Hin.
    destruct Hin as (l & <- & Hin). apply lineAccepted_createLine.
    now apply (proj1 (Forall_forall _ _) Hl).
Qed.


Lemma ledgerValid_append (db : Database) (e : JournalEntry.t) :
  ledgerValid db ->
  validateDoubleEntry (JournalEntry.lines e) = Ok tt ->
  ledgerValid (appendEntry db e).
Proof.
  unfold ledgerValid, appendEntry. simpl. intros Hv He.
  apply Forall_app. split; [exact Hv|]. now constructor.
Qed.


Lemma findEntry_In (db : Database) (companyId entryId : string)
      (entry : JournalEntry.t) :
  findEntry companyId entryId db = Some entry ->
  In entry (journalEntryTable db)
  /\ JournalEntry.id entry = entryId
  /\ JournalEntry.companyId entry = companyId.
Proof.
  unfold findEntry. intros H. apply find_some in H. destruct H as [Hin H].
  apply andb_true_iff in H. destruct H as [Hi Hc].
  apply String.eqb_eq in Hi, Hc. now repeat split.
Qed.



End JournalWrites.

(* ================================================================= *)
(** ** Editing and voiding a stored entry *)

Section EntryEdits.
Import JournalService ReportService.


Lemma modify_others (g : JournalEntry.t -> JournalEntry.t) (i : string)
      (l : list JournalEntry.t) :
  (forall e, In e l -> JournalEntry.id e <> i) ->
  map (fun e => if String.eqb (JournalEntry.id e) i then g e else e) l = l.
Proof.
  intros H. induction l as [|x rest IH]; simpl; [reflexivity|].
  rewrite IH by (intros e He; apply H; now right).
  destruct (String.eqb (JournalEntry.id x) i) eqn:E; [|reflexivity].
  apply String.eqb_eq in E. exfalso. now apply (H x (or_introl eq_refl)).
Qed.

Lemma find_modified (g : JournalEntry.t -> JournalEntry.t) (c i : string)
      (l : list JournalEntry.t) (x : JournalEntry.t) :
  (forall e, keptAs e (g e)) ->
  find (fun e => String.eqb (JournalEntry.id e) i
                 && String.eqb (JournalEntry.companyId e) c) l = Some x ->
  find (fun e => String.eqb (JournalEntry.id e) i
                 && String.eqb (JournalEntry.companyId e) c)
       (map (fun e => if String.eqb (JournalEntry.id e) i then g e else e) l)
  = Some (g x).
Proof.
  intros Hg. induction l as [|h rest IH]; simpl; [discriminate|].
  assert (Hh : JournalEntry.id (g h) = JournalEntry.id h
               /\ JournalEntry.companyId (g h) = JournalEntry.companyId h).
  { destruct (Hg h) as [Ho _]. unfold entryOrigin in Ho.
    injection Ho as Hi Hc _ _ _ _ _ _. now split. }
  destruct Hh as [Hi Hc].
  destruct (String.eqb (JournalEntry.id h) i) eqn:E; simpl.
  - rewrite Hi, Hc, E. simpl.
    destruct (String.eqb (JournalEntry.companyId h) c); simpl.
    + intros H. now injection H as <-.
    + exact IH.
  - rewrite E. simpl. exact IH.
Qed.

Lemma sum_of_modified (f : JournalEntry.t -> Q)
      (g : JournalEntry.t -> JournalEntry.t) (c i : string)
      (l : list JournalEntry.t) (x : JournalEntry.t) :
  NoDup (map JournalEntry.id l) ->
  find (fun e => String.eqb (JournalEntry.id e) i
                 && String.eqb (JournalEntry.companyId e) c) l = Some x ->
  sum_of f (map (fun e => if String.eqb (JournalEntry.id e) i then g e else e)
                l)
  == f (g x)
     + sum_of f (removeFirst
                   (fun e => String.eqb (JournalEntry.id e) i
                             && String.eqb (JournalEntry.companyId e) c) l).
Proof.
  induction l as [|h rest IH]; simpl; [discriminate|].
  intros Hd Hf. inversion Hd as [|? ? Hnot Hd']; subst.
  destruct (String.eqb (JournalEntry.id h) i) eqn:E; simpl in *.
  - apply String.eqb_eq in E.
    assert (Hrest : forall e, In e rest -> JournalEntry.id e <> i).
    { intros e He Hi. apply Hnot. rewrite E, <- Hi. now apply in_map. }
    destruct (String.eqb (JournalEntry.companyId h) c).
    + injection Hf as <-. now rewrite modify_others.
    + apply find_some in Hf. destruct Hf as [Hin Hp].
      apply andb_true_iff in Hp. destruct Hp as [Hp _].
      apply String.eqb_eq in Hp. exfalso. now apply (Hrest x Hin).
  - rewrite (IH Hd' Hf). lra.
Qed.

Lemma openingBalanceOf_accounts (db db' : Database) (accountId : string) :
  accountTable db' = accountTable db ->
  openingBalanceOf db' accountId = openingBalanceOf db accountId.
Proof.
  intros H. unfold openingBalanceOf, account_findUnique. now rewrite H.
Qed.

(** The balances after the row found under [entryId] has been replaced
    by [g] of it. *)
Lemma balance_after_modify (db : Database) (c i : string)
      (g : JournalEntry.t -> JournalEntry.t) (entry : JournalEntry.t)
      (accountId : string) (type : AccountType) (asOfDate : Z) :
  NoDup (map JournalEntry.id (journalEntryTable db)) ->
  findEntry c i db = Some entry ->
  calculateAccountBalanceAsOf
    (mkDatabase (accountTable db)
       (map (fun e => if String.eqb (JournalEntry.id e) i then g e else e)
            (journalEntryTable db)))
    accountId type asOfDate
  == calculateAccountBalanceAsOf (withoutEntry c i db) accountId type asOfDate
     + entryContribution accountId type asOfDate (g entry).
Proof.
  intros Hd Hf. rewrite !balance_as_sum.
  rewrite (openingBalanceOf_accounts db (mkDatabase _ _)) by reflexivity.
  rewrite (openingBalanceOf_accounts db (withoutEntry c i db)) by reflexivity.
  simpl. rewrite (sum_of_modified _ g c i _ entry Hd Hf). lra.
Qed.


(** X5: voiding a manual entry keeps its row, marked as not posted;
    every balance is then what it would be had the entry never been
    posted, and voiding the entry a second time changes nothing. *)
Theorem void_as_if_never_posted (db : Database) (companyId entryId : string)
        (entry : JournalEntry.t) :
  NoDup (map JournalEntry.id (journalEntryTable db)) ->
  findEntry companyId entryId db = Some entry ->
  JournalEntry.source entry = MANUAL ->
  exists db',
    voidJournalEntry companyId entryId db = (Ok tt, db')
    /\ findEntry companyId entryId db' = Some (setPosted false entry)
    /\ (forall accountId type asOfDate,
           calculateAccountBalanceAsOf db' accountId type asOfDate
           == calculateAccountBalanceAsOf (withoutEntry companyId entryId db)
                                          accountId type asOfDate)
    /\ voidJournalEntry companyId entryId db' = (Ok tt, db').
Proof.
  intros Hd Hf Hs.
  assert (Hf' : findEntry companyId entryId
                  (mkDatabase (accountTable db)
                     (map (fun e => if String.eqb (JournalEntry.id e) entryId
                                    then setPosted false e else e)
                          (journalEntryTable db)))
                = Some (setPosted false entry)).
  { unfold findEntry. simpl. apply find_modified; [apply keptAs_setPosted|].
    exact Hf. }
  eexists. split; [|split; [exact Hf'|split]].
  - unfold voidJournalEntry, bind, get, put, throw. rewrite Hf, Hs. reflexivity.
  - intros a t d. rewrite (balance_after_modify _ _ _ _ _ _ _ _ Hd Hf).
    unfold entryContribution. simpl. lra.
  - unfold voidJournalEntry, bind, get, put, throw. rewrite Hf'. simpl.
    rewrite Hs. simpl. do 2 f_equal. rewrite map_map. apply map_ext.
    intros e. destruct (String.eqb (JournalEntry.id e) entryId) eqn:E.
    + simpl. now rewrite E.
    + now rewrite E.
Qed.


(** X7: an entry that did not come from a manual posting is left exactly
    as it is by every write of the journal service. *)
Theorem generated_entries_untouched (w : JournalWrite) (db : Database)
        (e : JournalEntry.t) :
  NoDup (map JournalEntry.id (journalEntryTable db)) ->
  In e (journalEntryTable db) ->
  JournalEntry.source e <> MANUAL ->
  In e (journalEntryTable (snd (journalWrite w db))).
Proof.
  intros Hd He Hs.
  assert (Hmod : forall g c i entry,
             findEntry c i db = Some entry ->
             JournalEntry.source entry = MANUAL ->
             In e (map (fun x => if String.eqb (JournalEntry.id x) i
                                 then g x else x)
                       (journalEntryTable db))).
  { intros g c i entry F S. apply in_map_iff. exists e. split; [|exact He].
    destruct (String.eqb (JournalEntry.id e) i) eqn:E; [|reflexivity].
    apply String.eqb_eq in E. apply findEntry_In in F.
    destruct F as (Hin & Hi & _). exfalso. apply Hs.
    rewrite (NoDup_map_inj JournalEntry.id _ e entry Hd He Hin); [exact S|].
    now rewrite E, Hi. }
  destruct (journalWrite_cases w db)
    as [(x & H)|[(c & u & input & n & _ & _ & H)
       |[(c & u & data & n & _ & _ & H)
       |[(c & u & i & rd & now & n & entry & _ & _ & H)
       |[(c & i & entry & _ & F & S & H)
       |(c & i & input & entry & _ & F & S & _ & H)]]]]];
    rewrite H; simpl; try exact He;
      try (apply in_or_app; left; exact He).
  - now apply (Hmod _ c i entry).
  - now apply (Hmod _ c i entry).
Qed.

End EntryEdits.

Section EntryEditsFacts.
Import JournalService ReportService Scenario JournalWriteExamples.

Lemma db1_entry_ids : NoDup (map JournalEntry.id (journalEntryTable db1)).
Proof. vm_compute. constructor; [intros []|constructor]. Qed.

Lemma db1_entry1 : findEntry "acme" "je-1" db1 = Some entry1.
Proof. by_evaluation. Qed.

Lemma void_as_if_never_posted_witness :
  NoDup (map JournalEntry.id (journalEntryTable db1))
  /\ findEntry "acme" "je-1" db1 = Some entry1
  /\ JournalEntry.source entry1 = MANUAL
  /\ calculateAccountBalanceAsOf dbVoided "acc-cash" ASSET feb28
     == calculateAccountBalanceAsOf (withoutEntry "acme" "je-1" db1)
                                    "acc-cash" ASSET feb28.
Proof.
  split; [exact db1_entry_ids|]. split; [exact db1_entry1|].
  split; [reflexivity|].
  destruct (void_as_if_never_posted db1 "acme" "je-1" entry1 db1_entry_ids
                                    db1_entry1 eq_refl)
    as (db' & Hv & _ & Hb & _).
  unfold dbVoided. rewrite Hv. apply Hb.
Defined.



Lemma generated_entries_untouched_witness :
  NoDup (map JournalEntry.id (journalEntryTable dbInvoiced))
  /\ In invoiceEntry (journalEntryTable dbInvoiced)
  /\ JournalEntry.source invoiceEntry <> MANUAL
  /\ In invoiceEntry
        (journalEntryTable
           (snd (journalWrite (VoidEntry "acme" "je-9") dbInvoiced))).
Proof.
  assert (H1 : NoDup (map JournalEntry.id (journalEntryTable dbInvoiced))).
  { vm_compute. constructor; [intros []|constructor]. }
  assert (H2 : In invoiceEntry (journalEntryTable dbInvoiced)).
  { left. by_evaluation. }
  assert (H3 : JournalEntry.source invoiceEntry <> MANUAL).
  { simpl. discriminate. }
  split; [exact H1|]. split; [exact H2|]. split; [exact H3|].
  exact (generated_entries_untouched _ _ _ H1 H2 H3).
Defined.

End EntryEditsFacts.

(* ================================================================= *)
(** ** Reading back what was written *)

Section RoundTrips.
Import JournalService ReportService.







End RoundTrips.

Section RoundTripsFacts.
Import JournalService ReportService Scenario.



End RoundTripsFacts.

(* ================================================================= *)
(** ** General ledgers *)

Section Ledgers.
Import ReportService.


Lemma findMany_entries (db : Database)
      (cond : JournalEntry.t -> JournalLine.t -> bool)
      (p : JournalEntry.t * JournalLine.t) :
  In p (journalLine_findMany db cond) ->
  In (fst p) (journalEntryTable db)
  /\ In (snd p) (JournalEntry.lines (fst p))
  /\ cond (fst p) (snd p) = true.
Proof.
  unfold journalLine_findMany. intros H. apply in_flat_map in H.
  destruct H as (e & He & H). apply in_map_iff in H.
  destruct H as (l & <- & Hl). apply filter_In in Hl. simpl. tauto.
Qed.







(** *** The running balance *)

Lemma runningRows_cons (b : bool) (rb : Q) (e : JournalEntry.t)
      (l : JournalLine.t) (rest : list (JournalEntry.t * JournalLine.t)) :
  runningRows b rb ((e, l) :: rest)
  = (mkLedgerRow (JournalEntry.date e) (JournalEntry.entryNumber e)
                 (or_string (JournalLine.memo l) (JournalEntry.memo e))
                 (JournalEntry.reference e) (JournalEntry.source e)
                 (JournalLine.debit l) (JournalLine.credit l)
                 (rb + lineSigned b l)
       :: fst (runningRows b (rb + lineSigned b l) rest),
     snd (runningRows b (rb + lineSigned b l) rest)).
Proof.
  simpl. unfold lineSigned.
  destruct b; now destruct (runningRows _ _ rest).
Qed.

Lemma runningRows_length (b : bool) (lines : list (JournalEntry.t * JournalLine.t)) :
  forall rb, List.length (fst (runningRows b rb lines)) = List.length lines.
Proof.
  induction lines as [|[e l] rest IH]; intros rb; [reflexivity|].
  rewrite runningRows_cons. simpl. now rewrite IH.
Qed.











(** *** The general ledger report *)





End Ledgers.

Section LedgersFacts.
Import ReportService Scenario.



End LedgersFacts.

(* ================================================================= *)
(** ** Profit and loss *)

Section ProfitAndLossProofs.
Import ReportService.





(** *** The comparison column *)

Lemma findMany_ids_distinct (db : Database) (where_ : Account.t -> bool) :
  NoDup (map Account.id (accountTable db)) ->
  NoDup (map Account.id (account_findMany db where_)).
Proof.
  intros Hnd. unfold account_findMany.
  apply (Permutation_NoDup
           (Permutation_map Account.id
              (Permutation_sym (orderBy_code_Permutation _)))).
  now apply ids_distinct_filter.
Qed.

Lemma find_report_row (h : Account.t -> Q) (accounts : list Account.t)
      (i : string) :
  find (fun c => String.eqb (ra_id c) i)
       (map (fun a => mkReportAccount (Account.id a) (Account.code a)
                                      (Account.name a) (Account.type a)
                                      (h a) None)
            accounts)
  = option_map (fun a => mkReportAccount (Account.id a) (Account.code a)
                                         (Account.name a) (Account.type a)
                                         (h a) None)
               (find (fun a => String.eqb (Account.id a) i) accounts).
Proof.
  induction accounts as [|a rest IH]; simpl; [reflexivity|].
  destruct (String.eqb (Account.id a) i); [reflexivity|exact IH].
Qed.

Lemma compare_column (accounts : list Account.t) (f g : Account.t -> Q) :
  NoDup (map Account.id accounts) ->
  reduce_sum compareBalance_or_zero
    (map (mergeCompare
            (map (fun a => mkReportAccount (Account.id a) (Account.code a)
                                           (Account.name a) (Account.type a)
                                           (g a) None)
                 accounts))
         (map (fun a => mkReportAccount (Account.id a) (Account.code a)
                                        (Account.name a) (Account.type a)
                                        (f a) None)
              accounts))
  == reduce_sum balance
       (map (fun a => mkReportAccount (Account.id a) (Account.code a)
                                      (Account.name a) (Account.type a)
                                      (g a) None)
            accounts).
Proof.
  intros Hnd. rewrite !reduce_sum_sum_of, !sum_of_map.
  apply sum_of_ext. intros a Ha.
  unfold compareBalance_or_zero, mergeCompare. cbn [compareBalance ra_id].
  rewrite find_report_row.
  pose proof (findUnique_member (mkDatabase accounts []) a Hnd Ha) as F.
  unfold account_findUnique in F. cbn [accountTable] in F.
  rewrite F. cbn [option_map balance]. now rewrite !or_zero_eq.
Qed.

Lemma compare_total (db : Database) (companyId : string) (type : AccountType)
      (startDate endDate compareStart compareEnd : Z) :
  NoDup (map Account.id (accountTable db)) ->
  reduce_sum compareBalance_or_zero
    (map (mergeCompare
            (getAccountBalances db companyId type compareStart compareEnd))
         (getAccountBalances db companyId type startDate endDate))
  == reduce_sum balance
       (getAccountBalances db companyId type compareStart compareEnd).
Proof.
  intros Hnd. unfold getAccountBalances. cbv zeta.
  apply compare_column. now apply findMany_ids_distinct.
Qed.

Lemma no_compare_total (db : Database) (companyId : string)
      (type : AccountType) (startDate endDate : Z) :
  reduce_sum compareBalance_or_zero
             (getAccountBalances db companyId type startDate endDate)
  == 0.
Proof.
  rewrite reduce_sum_sum_of. apply sum_of_zero. intros a Ha.
  unfold getAccountBalances in Ha. apply in_map_iff in Ha.
  destruct Ha as (account & <- & _). reflexivity.
Qed.

(** X13: with a comparison period, the comparison totals and the
    comparison net income of the profit and loss statement are the
    totals and the net income of the statement of the comparison period,
    and the figures of the period itself are those of the statement
    without comparison.  Without a comparison start date no comparison
    figure is reported; with a start date and no end date the comparison
    net income is reported as zero. *)
Theorem profit_and_loss_comparison (db : Database) (companyId : string)
        (startDate endDate compareStart compareEnd : Z) :
  NoDup (map Account.id (accountTable db)) ->
  let report :=
    getProfitAndLoss db companyId startDate endDate (Some compareStart)
                     (Some compareEnd) in
  let compared :=
    getProfitAndLoss db companyId compareStart compareEnd None None in
  let plain := getProfitAndLoss db companyId startDate endDate None None in
  (exists r x n,
      ss_compareTotal (pl_revenue report) = Some r
      /\ r == ss_total (pl_revenue compared)
      /\ ss_compareTotal (pl_expenses report) = Some x
      /\ x == ss_total (pl_expenses compared)
      /\ compareNetIncome report = Some n
      /\ n == netIncome compared)
  /\ ss_total (pl_revenue report) == ss_total (pl_revenue plain)
  /\ ss_total (pl_expenses report) == ss_total (pl_expenses plain)
  /\ netIncome report == netIncome plain
  /\ (ss_compareTotal (pl_revenue plain) = None
      /\ ss_compareTotal (pl_expenses plain) = None
      /\ compareNetIncome plain = None)
  /\ exists z,
      compareNetIncome
        (getProfitAndLoss db companyId startDate endDate (Some compareStart)
                          None)
      = Some z
      /\ z == 0.
Proof.
  intros Hnd. cbv zeta. unfold getProfitAndLoss.
  cbn [ss_compareTotal ss_total pl_revenue pl_expenses compareNetIncome
       netIncome].
  pose proof (compare_total db companyId REVENUE startDate endDate
                            compareStart compareEnd Hnd) as Cr.
  pose proof (compare_total db companyId EXPENSE startDate endDate
                            compareStart compareEnd Hnd) as Cx.
  split; [|split; [|split; [|split; [|split]]]].
  - eexists _, _, _. split; [reflexivity|]. split; [exact Cr|].
    split; [reflexivity|]. split; [exact Cx|]. split; [reflexivity|].
    now rewrite Cr, Cx.
  - apply mergeCompare_balance.
  - apply mergeCompare_balance.
  - now rewrite !mergeCompare_balance.
  - now repeat split.
  - eexists. split; [reflexivity|]. rewrite !no_compare_total. ring.
Qed.


Lemma profit_and_loss_comparison_witness :
  NoDup (map Account.id (accountTable Scenario.db2))
  /\ ss_compareTotal
       (pl_revenue (getProfitAndLoss Scenario.db2 "acme" Scenario.jan10
                                     Scenario.jan31 (Some Scenario.feb01)
                                     (Some Scenario.feb28)))
     = Some (-500).
Proof.
  assert (H1 : NoDup (map Account.id (accountTable Scenario.db2)))
    by distinct_ids.
  split; [exact H1|].
  destruct (profit_and_loss_comparison Scenario.db2 "acme" Scenario.jan10
              Scenario.jan31 Scenario.feb01 Scenario.feb28 H1)
    as ((r & x & n & Hr & _) & _).
  rewrite Hr. vm_compute in Hr. injection Hr as <-. reflexivity.
Defined.

End ProfitAndLossProofs.

(* ================================================================= *)
(** ** Aging reports *)

Section AgingArrays.
Import ReportService.

(** The index computed by [getBucketIndex] is an index of the buckets,
    whatever the periods are. *)
Lemma getBucketIndex_from_bound (rest : list Z) :
  forall (i : nat) (d : Z),
    (getBucketIndex_from i d rest <= i + List.length rest + 1)%nat.
Proof.
  induction rest as [|p rest IH]; intros i d; simpl; [lia|].
  destruct (d <=? p)%Z; [lia|]. specialize (IH (S i) d). lia.
Qed.

Lemma getBucketIndex_in_range (periods : list Z) (d : Z) :
  (getBucketIndex d periods < List.length (buildAgingBuckets periods))%nat.
Proof.
  rewrite buildAgingBuckets_length. unfold getBucketIndex.
  destruct (d <=? 0)%Z; [lia|].
  pose proof (getBucketIndex_from_bound periods 0 d). lia.
Qed.

Lemma update_at_length {A} (g : A -> A) (l : list A) :
  forall i, List.length (update_at i g l) = List.length l.
Proof.
  induction l as [|x rest IH]; intros [|i]; simpl; try reflexivity.
  now rewrite IH.
Qed.

Lemma update_at_nth {A} (g : A -> A) (l : list A) :
  forall i j,
    nth_error (update_at i g l) j
    = if Nat.eqb i j then option_map g (nth_error l j) else nth_error l j.
Proof.
  induction l as [|x rest IH]; intros [|i] [|j]; simpl; try reflexivity.
  - now destruct (Nat.eqb i j).
  - apply IH.
Qed.

Lemma update_at_sum {A} (f : A -> Q) (g : A -> A) (l : list A) :
  forall i x,
    nth_error l i = Some x ->
    sum_of f (update_at i g l) == sum_of f l + (f (g x) - f x).
Proof.
  induction l as [|y rest IH]; intros [|i] x H; simpl in *; try discriminate.
  - injection H as ->. lra.
  - rewrite (IH i x H). lra.
Qed.

Lemma update_at_map {A B} (h : A -> B) (g : A -> A) (l : list A) :
  (forall x, h (g x) = h x) ->
  forall i, map h (update_at i g l) = map h l.
Proof.
  intros Hg. induction l as [|y rest IH]; intros [|i]; simpl;
    try reflexivity.
  - now rewrite Hg.
  - now rewrite IH.
Qed.

(** *** The map of totals per customer or vendor *)

Lemma map_has_In {V} (key : string) (m : list (string * V)) :
  map_has key m = true <-> In key (map fst m).
Proof.
  unfold map_has. rewrite existsb_exists, in_map_iff. split.
  - intros (kv & Hin & E). apply String.eqb_eq in E. now exists kv.
  - intros (kv & E & Hin). exists kv. split; [exact Hin|].
    now apply String.eqb_eq.
Qed.

Lemma map_update_keys {V} (key : string) (f : V -> V) (m : list (string * V)) :
  map fst (map_update key f m) = map fst m.
Proof.
  unfold map_update. rewrite map_map. apply map_ext. intros [k v]. simpl.
  now destruct (String.eqb k key).
Qed.

Lemma map_update_absent {V} (key : string) (f : V -> V)
      (m : list (string * V)) :
  ~ In key (map fst m) -> map_update key f m = m.
Proof.
  intros H. unfold map_update. induction m as [|[k v] rest IH]; simpl;
    [reflexivity|].
  destruct (String.eqb k key) eqn:E.
  - apply String.eqb_eq in E. exfalso. apply H. now left.
  - f_equal. apply IH. intros Hin. apply H. now right.
Qed.

Lemma map_update_sum {V} (w : V -> Q) (key : string) (f : V -> V)
      (delta : Q) (m : list (string * V)) :
  NoDup (map fst m) -> In key (map fst m) ->
  (forall v, w (f v) == w v + delta) ->
  sum_of (fun kv => w (snd kv)) (map_update key f m)
  == sum_of (fun kv => w (snd kv)) m + delta.
Proof.
  intros Hnd Hin Hf. induction m as [|[k v] rest IH]; simpl in *;
    [contradiction|].
  inversion Hnd as [|? ? Hk Hnd']; subst.
  destruct (String.eqb k key) eqn:E.
  - apply String.eqb_eq in E. subst k. simpl.
    fold (map_update key f rest). rewrite (map_update_absent _ _ _ Hk).
    rewrite Hf. lra.
  - apply String.eqb_neq in E. destruct Hin as [Hin|Hin]; [contradiction|].
    simpl. fold (map_update key f rest). rewrite (IH Hnd' Hin). lra.
Qed.

Lemma map_update_Forall {V} (P : V -> Prop) (key : string) (f : V -> V)
      (m : list (string * V)) :
  Forall (fun kv => P (snd kv)) m ->
  (forall v, P v -> P (f v)) ->
  Forall (fun kv => P (snd kv)) (map_update key f m).
Proof.
  intros Hm Hf. unfold map_update. apply Forall_forall. intros kv Hin.
  apply in_map_iff in Hin. destruct Hin as ([k v] & <- & Hin).
  pose proof (proj1 (Forall_forall _ _) Hm (k, v) Hin) as Hv. simpl in *.
  destruct (String.eqb k key); simpl; [now apply Hf|exact Hv].
Qed.

End AgingArrays.

Section AgingLoop.
Import ReportService.
Variable Row : Type.
Variables r_id r_number r_partyId r_partyName : Row -> string.
Variables r_date r_dueDate : Row -> Z.
Variables r_total r_amountDue : Row -> Q.
Variables (asOfDate : Z) (periods : list Z).

(** The entry of a customer or vendor is in the map after the
    [if (!totals.has(id)) totals.set(id, ...)] step. *)
Lemma ensured_party (key : string) (fresh : PartyTotals)
      (m : list (string * PartyTotals)) :
  let m' := if map_has key m then m else (m ++ [(key, fresh)])%list in
  In key (map fst m')
  /\ (NoDup (map fst m) -> NoDup (map fst m'))
  /\ (pt_total fresh == 0 ->
      sum_of (fun kv => pt_total (snd kv)) m'
      == sum_of (fun kv => pt_total (snd kv)) m)
  /\ forall P : PartyTotals -> Prop,
      Forall (fun kv => P (snd kv)) m -> P fresh ->
      Forall (fun kv => P (snd kv)) m'.
Proof.
  cbv zeta. destruct (map_has key m) eqn:E.
  - apply map_has_In in E. split; [exact E|]. split; [tauto|].
    split; [reflexivity|]. intros P Hm _. exact Hm.
  - assert (Hk : ~ In key (map fst m)).
    { intros H. apply map_has_In in H. congruence. }
    split; [|split; [|split]].
    + rewrite map_app, in_app_iff. right. now left.
    + intros Hnd. rewrite map_app. simpl.
      apply NoDup_app; [exact Hnd|now repeat constructor|].
      intros k Hin [<-|[]]. contradiction.
    + intros H0. rewrite sum_of_app. simpl. rewrite H0. lra.
    + intros P Hm Hf. apply Forall_app. split; [exact Hm|]. now constructor.
Qed.

Lemma sum_of_repeat_zero (n : nat) : sum_of (fun x : Q => x) (repeat 0 n) == 0.
Proof. induction n as [|n IH]; simpl; [reflexivity|]. rewrite IH. lra. Qed.

Lemma agingStep_invariant (done : list Row) (st : AgingState) (row : Row) :
  agingInvariant Row r_id r_number r_partyName r_date r_dueDate r_total
                 r_amountDue asOfDate periods done st ->
  exists st',
    agingStep Row r_id r_number r_partyId r_partyName r_date r_dueDate r_total
              r_amountDue asOfDate periods st row = Some st'
    /\ agingInvariant Row r_id r_number r_partyName r_date r_dueDate r_total
                      r_amountDue asOfDate periods (done ++ [row]) st'.
Proof.
  intros Hinv. pose proof Hinv as (Ha & Hb & Hc & Hd & He & Hf & Hg).
  unfold agingStep. cbn [decimalToNumber].
  destruct (Qle_bool (r_amountDue row) 0) eqn:Eopen.
  { exists st. split; [reflexivity|].
    unfold agingInvariant in *. rewrite filter_app. cbn [filter].
    unfold isOpenRow at 2. rewrite Eopen. cbn [negb]. rewrite app_nil_r.
    exact Hinv. }
  set (days := daysOverdue asOfDate (r_dueDate row)).
  set (idx := getBucketIndex days periods).
  assert (Hlen : List.length (st_buckets st)
                 = List.length (buildAgingBuckets periods)).
  { rewrite <- (length_map period (st_buckets st)), Ha. apply length_map. }
  assert (Hidx : (idx < List.length (st_buckets st))%nat).
  { rewrite Hlen. apply getBucketIndex_in_range. }
  destruct (nth_error (st_buckets st) idx) as [bucket|] eqn:Eb;
    [|apply nth_error_None in Eb; lia].
  assert (Hlabel : bucketLabel days periods = Some (period bucket)).
  { unfold bucketLabel. fold idx.
    rewrite <- nth_error_map, <- Ha, nth_error_map, Eb. reflexivity. }
  set (detail := mkAgingDetail (r_id row) (r_number row) (r_partyName row)
                               (r_date row) (r_dueDate row) (r_total row)
                               (r_amountDue row) days (period bucket)).
  assert (Hdetail : detail
                    = detailOf Row r_id r_number r_partyName r_date r_dueDate
                               r_total r_amountDue asOfDate periods row).
  { unfold detail, detailOf. fold days. now rewrite Hlabel. }
  set (grow := fun b : AgingBucket =>
                 mkAgingBucket (period b) (amount b + r_amountDue row)
                               (count b + 1)%Z).
  set (buckets := update_at idx grow (st_buckets st)).
  set (fresh := mkPartyTotals (r_partyName row)
                              (repeat 0 (List.length buckets)) 0).
  set (add := fun party : PartyTotals =>
                mkPartyTotals (pt_name party)
                              (update_at idx (fun x => x + r_amountDue row)
                                         (pt_buckets party))
                              (pt_total party + r_amountDue row)).
  destruct (ensured_party (r_partyId row) fresh (st_totals st))
    as (Hin & Hnd & Hsum & Hall).
  set (totals := if map_has (r_partyId row) (st_totals st) then st_totals st
                 else (st_totals st ++ [(r_partyId row, fresh)])%list) in *.
  assert (Hblen : List.length buckets = List.length (st_buckets st))
    by apply update_at_length.
  eexists. split; [reflexivity|].
  unfold agingInvariant. cbn [st_buckets st_details st_totals].
  fold detail. rewrite filter_app. cbn [filter].
  unfold isOpenRow at 2. rewrite Eopen. cbn [negb].
  rewrite map_app. cbn [map]. rewrite <- Hdetail, <- Hb.
  split; [|split; [|split; [|split; [|split; [|split]]]]].
  - unfold buckets. rewrite update_at_map; [exact Ha|reflexivity].
  - reflexivity.
  - intros i b Hnth. unfold buckets in Hnth. rewrite update_at_nth in Hnth.
    rewrite filter_app, sum_of_app, length_app. cbn [filter].
    cbn [ad_daysOverdue detail]. fold idx.
    destruct (Nat.eqb idx i) eqn:Ei.
    + apply Nat.eqb_eq in Ei. subst i. rewrite Eb in Hnth.
      injection Hnth as <-. destruct (Hc idx bucket Eb) as [Hamount Hcount].
      cbn [amount count grow]. rewrite Hamount, Hcount. split.
      * simpl. lra.
      * simpl. lia.
    + destruct (Hc i b Hnth) as [Hamount Hcount]. rewrite Hamount, Hcount.
      split; [simpl; lra|simpl; lia].
  - unfold buckets. rewrite (update_at_sum amount grow _ idx bucket Eb).
    rewrite sum_of_app, Hd. simpl. lra.
  - rewrite map_update_keys. now apply Hnd.
  - rewrite (map_update_sum pt_total (r_partyId row) add (r_amountDue row));
      [|now apply Hnd|exact Hin|intros v; reflexivity].
    rewrite Hsum by reflexivity. rewrite Hf, sum_of_app. simpl. lra.
  - apply (map_update_Forall
             (fun party =>
                sum_of (fun x => x) (pt_buckets party) == pt_total party
                /\ List.length (pt_buckets party) = List.length buckets)).
    + apply (Hall (fun party =>
                     sum_of (fun x => x) (pt_buckets party) == pt_total party
                     /\ List.length (pt_buckets party) = List.length buckets)).
      * eapply Forall_impl; [|exact Hg]. intros kv [H1 H2]. split;
          [exact H1|]. now rewrite Hblen.
      * split; [apply sum_of_repeat_zero|apply repeat_length].
    + intros party [H1 H2]. cbn [add pt_buckets pt_total]. split.
      * destruct (nth_error (pt_buckets party) idx) as [x|] eqn:Ex;
          [|apply nth_error_None in Ex; lia].
        rewrite (update_at_sum (fun x => x) _ _ idx x Ex), H1. lra.
      * now rewrite update_at_length.
Qed.

Lemma agingLoop_invariant (rows : list Row) :
  forall (done : list Row) (st : AgingState),
    agingInvariant Row r_id r_number r_partyName r_date r_dueDate r_total
                   r_amountDue asOfDate periods done st ->
    exists st',
      agingLoop Row r_id r_number r_partyId r_partyName r_date r_dueDate
                r_total r_amountDue asOfDate periods st rows = Some st'
      /\ agingInvariant Row r_id r_number r_partyName r_date r_dueDate r_total
                        r_amountDue asOfDate periods (done ++ rows) st'.
Proof.
  induction rows as [|row rest IH]; intros done st Hinv; simpl.
  - exists st. split; [reflexivity|]. now rewrite app_nil_r.
  - destruct (agingStep_invariant done st row Hinv) as (st1 & Hstep & Hinv1).
    rewrite Hstep. destruct (IH _ _ Hinv1) as (st' & Hloop & Hinv').
    exists st'. split; [exact Hloop|]. now rewrite <- app_assoc in Hinv'.
Qed.

(** *** Sorting *)

Lemma insert_by_dueDate_Permutation (x : Row) (l : list Row) :
  Permutation (insert_by_dueDate Row r_dueDate x l) (x :: l).
Proof.
  induction l as [|y rest IH]; simpl; [reflexivity|].
  destruct (r_dueDate x <=? r_dueDate y)%Z; [reflexivity|].
  rewrite IH. apply perm_swap.
Qed.

Lemma orderBy_dueDate_Permutation (l : list Row) :
  Permutation (orderBy_dueDate Row r_dueDate l) l.
Proof.
  induction l as [|x rest IH]; simpl; [reflexivity|].
  rewrite insert_by_dueDate_Permutation. now constructor.
Qed.

Lemma orderBy_dueDate_sorted (l : list Row) :
  StronglySorted (fun x y => (r_dueDate x <= r_dueDate y)%Z)
                 (orderBy_dueDate Row r_dueDate l).
Proof.
  induction l as [|x rest IH]; simpl; [constructor|].
  induction IH as [|y sorted Hs IH Hy]; simpl.
  - constructor; constructor.
  - destruct (r_dueDate x <=? r_dueDate y)%Z eqn:E.
    + apply Z.leb_le in E. constructor; [now constructor|].
      constructor; [exact E|].
      eapply Forall_impl; [|exact Hy]. intros z Hz. simpl in Hz. lia.
    + apply Z.leb_gt in E. constructor; [exact IH|].
      apply (Permutation_Forall
               (Permutation_sym (insert_by_dueDate_Permutation x sorted))).
      constructor; [lia|exact Hy].
Qed.

Lemma open_rows_sorted (l : list Row) :
  StronglySorted (fun x y => (r_dueDate x <= r_dueDate y)%Z) l ->
  StronglySorted (fun d1 d2 => (ad_dueDate d1 <= ad_dueDate d2)%Z)
    (map (detailOf Row r_id r_number r_partyName r_date r_dueDate r_total
                   r_amountDue asOfDate periods)
         (filter (isOpenRow Row r_amountDue) l)).
Proof.
  induction 1 as [|x rest Hs IH Hx]; simpl; [constructor|].
  destruct (isOpenRow Row r_amountDue x); [|exact IH].
  simpl. constructor; [exact IH|].
  apply Forall_forall. intros d Hd. apply in_map_iff in Hd.
  destruct Hd as (y & <- & Hy). apply filter_In in Hy. destruct Hy as [Hy _].
  simpl. exact (proj1 (Forall_forall _ _) Hx y Hy).
Qed.

(** *** The detail line of an open item *)

Lemma getBucketIndex_zero (d : Z) :
  getBucketIndex d periods = 0%nat <-> (d <= 0)%Z.
Proof.
  unfold getBucketIndex. destruct (d <=? 0)%Z eqn:E.
  - apply Z.leb_le in E. tauto.
  - apply Z.leb_gt in E. split; [|lia]. intros H.
    destruct periods as [|p rest]; simpl in H; [discriminate|].
    destruct (d <=? p)%Z; [discriminate|].
    assert (Hge : forall l i, (i + 1 <= getBucketIndex_from i d l)%nat).
    { intros l. induction l as [|q l IH]; intros i; simpl; [lia|].
      destruct (d <=? q)%Z; [lia|]. specialize (IH (S i)). lia. }
    specialize (Hge rest 1%nat). lia.
Qed.

Lemma bucketLabel_defined (d : Z) :
  exists label, bucketLabel d periods = Some label.
Proof.
  unfold bucketLabel.
  destruct (nth_error (buildAgingBuckets periods) (getBucketIndex d periods))
    as [b|] eqn:E.
  - now exists (period b).
  - apply nth_error_None in E.
    pose proof (getBucketIndex_in_range periods d). lia.
Qed.

Lemma detailOf_sound (row : Row) :
  (r_dueDate row <= asOfDate)%Z ->
  isOpenRow Row r_amountDue row = true ->
  let d := detailOf Row r_id r_number r_partyName r_date r_dueDate r_total
                    r_amountDue asOfDate periods row in
  0 < ad_amountDue d
  /\ (ad_dueDate d <= asOfDate)%Z
  /\ ad_daysOverdue d = daysOverdue asOfDate (ad_dueDate d)
  /\ (0 <= ad_daysOverdue d)%Z
  /\ (bucketOf periods d = 0%nat <-> (asOfDate - ad_dueDate d < 86400000)%Z)
  /\ bucketLabel (ad_daysOverdue d) periods = Some (ad_bucket d).
Proof.
  intros Hdue Hopen. cbv zeta. unfold detailOf, bucketOf.
  cbn [ad_amountDue ad_dueDate ad_daysOverdue ad_bucket].
  assert (Hdays : (0 <= daysOverdue asOfDate (r_dueDate row))%Z).
  { unfold daysOverdue. apply Z.div_pos; lia. }
  split; [|split; [exact Hdue|split; [reflexivity|split; [exact Hdays|split]]]].
  - unfold isOpenRow in Hopen. apply negb_true_iff in Hopen.
    apply Qnot_le_lt. intros H. apply Qle_bool_iff in H. congruence.
  - rewrite getBucketIndex_zero. unfold daysOverdue in *.
    change (1000 * 60 * 60 * 24)%Z with 86400000%Z in *.
    split; intros H.
    + assert (E : ((asOfDate - r_dueDate row) / 86400000 = 0)%Z) by lia.
      apply Z.div_small_iff in E; lia.
    + rewrite Z.div_small; lia.
  - destruct (bucketLabel_defined (daysOverdue asOfDate (r_dueDate row)))
      as (label & ->). reflexivity.
Qed.

(** *** The report *)

Lemma insert_by_total_Permutation (x : PartyTotals) (l : list PartyTotals) :
  Permutation (insert_by_total x l) (x :: l).
Proof.
  induction l as [|y rest IH]; simpl; [reflexivity|].
  destruct (Qle_bool (pt_total y) (pt_total x)); [reflexivity|].
  rewrite IH. apply perm_swap.
Qed.

Lemma sort_by_total_Permutation (l : list PartyTotals) :
  Permutation (sort_by_total l) l.
Proof.
  induction l as [|x rest IH]; simpl; [reflexivity|].
  rewrite insert_by_total_Permutation. now constructor.
Qed.

Lemma sort_by_total_sorted (l : list PartyTotals) :
  StronglySorted (fun p q => pt_total q <= pt_total p) (sort_by_total l).
Proof.
  induction l as [|x rest IH]; simpl; [constructor|].
  induction IH as [|y sorted Hs IH Hy]; simpl.
  - constructor; constructor.
  - destruct (Qle_bool (pt_total y) (pt_total x)) eqn:E.
    + apply Qle_bool_iff in E. constructor; [now constructor|].
      constructor; [exact E|].
      eapply Forall_impl; [|exact Hy]. intros z Hz. simpl in Hz.
      now apply (Qle_trans _ (pt_total y)).
    + assert (Hlt : pt_total x < pt_total y).
      { apply Qnot_le_lt. intros H. apply Qle_bool_iff in H. congruence. }
      constructor; [exact IH|].
      apply (Permutation_Forall
               (Permutation_sym (insert_by_total_Permutation x sorted))).
      constructor; [now apply Qlt_le_weak|exact Hy].
Qed.

Lemma buildAgingBuckets_empty :
  Forall (fun b => amount b = 0 /\ count b = 0%Z) (buildAgingBuckets periods).
Proof.
  unfold buildAgingBuckets.
  apply Forall_app. split; [|apply Forall_app; split].
  - constructor; [now split|constructor].
  - apply Forall_forall. intros b Hb. apply in_map_iff in Hb.
    destruct Hb as (i & <- & _). now split.
  - constructor; [now split|constructor].
Qed.

Lemma agingInvariant_start :
  agingInvariant Row r_id r_number r_partyName r_date r_dueDate r_total
                 r_amountDue asOfDate periods []
                 (mkAgingState (buildAgingBuckets periods) [] []).
Proof.
  pose proof buildAgingBuckets_empty as Hz.
  unfold agingInvariant. cbn [st_buckets st_details st_totals filter map].
  split; [reflexivity|]. split; [reflexivity|]. split; [|split; [|split]].
  - intros i b Hb. apply nth_error_In in Hb.
    destruct (proj1 (Forall_forall _ _) Hz b Hb) as [-> ->]. now split.
  - apply sum_of_zero. intros b Hb.
    destruct (proj1 (Forall_forall _ _) Hz b Hb) as [-> _]. reflexivity.
  - constructor.
  - split; [reflexivity|constructor].
Qed.

Lemma agingReport_sound (rows : list Row) :
  exists report,
    agingReport Row r_id r_number r_partyId r_partyName r_date r_dueDate
                r_total r_amountDue rows asOfDate periods = Some report
    /\ ar_details report
       = map (detailOf Row r_id r_number r_partyName r_date r_dueDate r_total
                       r_amountDue asOfDate periods)
             (filter (isOpenRow Row r_amountDue) rows)
    /\ agingTotalsAgree periods report.
Proof.
  destruct (agingLoop_invariant rows [] _ agingInvariant_start)
    as (st & Hloop & Ha & Hb & Hc & Hd & He & Hf & Hg).
  unfold agingReport. rewrite Hloop. eexists. split; [reflexivity|].
  cbn [ar_details]. split; [exact Hb|].
  unfold agingTotalsAgree.
  cbn [ar_buckets ar_details ar_total ar_byParty].
  assert (Hperm : Permutation (sort_by_total (map snd (st_totals st)))
                              (map snd (st_totals st)))
    by apply sort_by_total_Permutation.
  split; [exact Ha|]. split; [exact Hc|].
  split; [now rewrite reduce_sum_sum_of|].
  split; [|split].
  - rewrite (sum_of_Permutation _ _ _ Hperm), sum_of_map, Hf.
    now rewrite reduce_sum_sum_of, Hd.
  - apply (Permutation_Forall (Permutation_sym Hperm)).
    apply Forall_forall. intros party Hp. apply in_map_iff in Hp.
    destruct Hp as (kv & <- & Hkv).
    exact (proj1 (Forall_forall _ _) Hg kv Hkv).
  - apply sort_by_total_sorted.
Qed.

(** The details of a report on rows that are due, visited by due date. *)
Lemma agingReport_details (rows : list Row) :
  Forall (fun row => (r_dueDate row <= asOfDate)%Z) rows ->
  StronglySorted (fun x y => (r_dueDate x <= r_dueDate y)%Z) rows ->
  exists report,
    agingReport Row r_id r_number r_partyId r_partyName r_date r_dueDate
                r_total r_amountDue rows asOfDate periods = Some report
    /\ agingDetailsSound asOfDate periods
         (map r_id (filter (isOpenRow Row r_amountDue) rows)) report.
Proof.
  intros Hdue Hsorted.
  destruct (agingReport_sound rows) as (report & Hr & Hd & _).
  exists report. split; [exact Hr|]. unfold agingDetailsSound. rewrite Hd.
  split; [|split].
  - rewrite map_map. reflexivity.
  - now apply open_rows_sorted.
  - apply Forall_forall. intros d Hin. apply in_map_iff in Hin.
    destruct Hin as (row & <- & Hrow). apply filter_In in Hrow.
    destruct Hrow as [Hrow Hopen]. apply detailOf_sound; [|exact Hopen].
    exact (proj1 (Forall_forall _ _) Hdue row Hrow).
Qed.

End AgingLoop.

Section AgingReports.
Import ReportService.

Lemma filter_Permutation_rows {A} (p : A -> bool) (l l' : list A) :
  Permutation l l' -> Permutation (filter p l) (filter p l').
Proof.
  induction 1 as [|x l l' _ IH|x y l|l l' l'' _ IH1 _ IH2]; simpl.
  - constructor.
  - destruct (p x); [now constructor|exact IH].
  - destruct (p x), (p y); try reflexivity. apply perm_swap.
  - now transitivity (filter p l').
Qed.

Lemma filter_twice {A} (p q : A -> bool) (l : list A) :
  filter q (filter p l) = filter (fun x => p x && q x) l.
Proof.
  induction l as [|x rest IH]; simpl; [reflexivity|].
  destruct (p x); simpl; [|exact IH]. destruct (q x); now rewrite IH.
Qed.

Lemma agingDetailsSound_ids (asOfDate : Z) (periods : list Z)
      (ids ids' : list string) (report : AgingReport) :
  Permutation ids ids' ->
  agingDetailsSound asOfDate periods ids report ->
  agingDetailsSound asOfDate periods ids' report.
Proof.
  intros Hp (H1 & H2 & H3). split; [|now split].
  now transitivity ids.
Qed.

(** X14: the aging reports always answer, whatever the periods are.
    Their details list exactly the invoices (bills) of the tenant that
    are SENT (RECEIVED), PARTIAL or OVERDUE, due on or before the
    reference date, with a positive amount due, each once and by due
    date; each listed item is overdue by a number of whole days that is
    not negative, is in the first bucket exactly when it is due less
    than a day before the reference date, and carries the label of its
    bucket. *)
Theorem aging_reports_list_open_items (invoices : list Invoice.t)
        (bills : list Bill.t) (companyId : string) (asOfDate : Z)
        (agingPeriods : option (list Z)) :
  (exists report,
      getARAgingReport invoices companyId asOfDate agingPeriods = Some report
      /\ agingDetailsSound asOfDate (periods_or_default agingPeriods)
           (map Invoice.id (filter (openInvoice companyId asOfDate) invoices))
           report)
  /\ (exists report,
         getAPAgingReport bills companyId asOfDate agingPeriods = Some report
         /\ agingDetailsSound asOfDate (periods_or_default agingPeriods)
              (map Bill.id (filter (openBill companyId asOfDate) bills))
              report).
Proof.
  split.
  - unfold getARAgingReport. cbv zeta.
    set (sel := fun i : Invoice.t =>
                  String.eqb (Invoice.companyId i) companyId
                  && match Invoice.status i with
                     | InvoiceStatus.SENT | InvoiceStatus.PARTIAL
                     | InvoiceStatus.OVERDUE => true
                     | _ => false
                     end
                  && (Invoice.dueDate i <=? asOfDate)%Z).
    pose proof (orderBy_dueDate_Permutation Invoice.t Invoice.dueDate
                                            (filter sel invoices)) as Hperm.
    destruct (agingReport_details
                Invoice.t Invoice.id Invoice.invoiceNumber Invoice.customerId
                Invoice.customerName Invoice.date Invoice.dueDate Invoice.total
                Invoice.amountDue asOfDate (periods_or_default agingPeriods)
                (orderBy_dueDate Invoice.t Invoice.dueDate
                                 (filter sel invoices)))
      as (report & Hr & Hd).
    + apply (Permutation_Forall (Permutation_sym Hperm)).
      apply Forall_forall. intros i Hi. apply filter_In in Hi.
      destruct Hi as [_ Hi]. unfold sel in Hi.
      apply andb_true_iff in Hi. destruct Hi as [_ Hi]. now apply Z.leb_le.
    + apply orderBy_dueDate_sorted.
    + exists report. split; [exact Hr|].
      assert (E : filter (openInvoice companyId asOfDate) invoices
                  = filter (isOpenRow Invoice.t Invoice.amountDue)
                           (filter sel invoices))
        by (rewrite filter_twice; reflexivity).
      rewrite E.
      exact (agingDetailsSound_ids _ _ _ _ _
               (Permutation_map Invoice.id
                  (filter_Permutation_rows
                     (isOpenRow Invoice.t Invoice.amountDue) _ _ Hperm)) Hd).
  - unfold getAPAgingReport. cbv zeta.
    set (sel := fun b : Bill.t =>
                  String.eqb (Bill.companyId b) companyId
                  && match Bill.status b with
                     | BillStatus.RECEIVED | BillStatus.PARTIAL
                     | BillStatus.OVERDUE => true
                     | _ => false
                     end
                  && (Bill.dueDate b <=? asOfDate)%Z).
    pose proof (orderBy_dueDate_Permutation Bill.t Bill.dueDate
                                            (filter sel bills)) as Hperm.
    destruct (agingReport_details
                Bill.t Bill.id Bill.billNumber Bill.vendorId Bill.vendorName
                Bill.date Bill.dueDate Bill.total Bill.amountDue asOfDate
                (periods_or_default agingPeriods)
                (orderBy_dueDate Bill.t Bill.dueDate (filter sel bills)))
      as (report & Hr & Hd).
    + apply (Permutation_Forall (Permutation_sym Hperm)).
      apply Forall_forall. intros b Hb. apply filter_In in Hb.
      destruct Hb as [_ Hb]. unfold sel in Hb.
      apply andb_true_iff in Hb. destruct Hb as [_ Hb]. now apply Z.leb_le.
    + apply orderBy_dueDate_sorted.
    + exists report. split; [exact Hr|].
      assert (E : filter (openBill companyId asOfDate) bills
                  = filter (isOpenRow Bill.t Bill.amountDue)
                           (filter sel bills))
        by (rewrite filter_twice; reflexivity).
      rewrite E.
      exact (agingDetailsSound_ids _ _ _ _ _
               (Permutation_map Bill.id
                  (filter_Permutation_rows
                     (isOpenRow Bill.t Bill.amountDue) _ _ Hperm)) Hd).
Qed.


Example ar_aging_example :
  option_map (fun r => (map (fun b => (period b, amount b, count b))
                            (ar_buckets r),
                        ar_total r, map ad_id (ar_details r)))
             (getARAgingReport AgingExamples.invoices "acme" Scenario.feb28
                               None)
  = Some ([("Current", 0, 0%Z); ("1-30 days", 80, 1%Z);
           ("31-60 days", 120, 1%Z); ("61-90 days", 0, 0%Z);
           ("91-120 days", 0, 0%Z); ("Over 120 days", 0, 0%Z)],
          200, ["inv-1"; "inv-2"]).
Proof. by_evaluation. Qed.

End AgingReports.

(* ================================================================= *)
(** ** Writes of the account service *)

Section AccountWrites.
Import AccountService.

Lemma find_account_In (db : Database) (companyId accountId : string)
      (account : Account.t) :
  find (fun a => String.eqb (Account.id a) accountId
                 && String.eqb (Account.companyId a) companyId)
       (accountTable db) = Some account ->
  In account (accountTable db)
  /\ Account.id account = accountId
  /\ Account.companyId account = companyId.
Proof.
  intros H. apply find_some in H. destruct H as [Hin H].
  apply andb_true_iff in H. destruct H as [Hi Hc].
  apply String.eqb_eq in Hi, Hc. now repeat split.
Qed.

Lemma hasTransactions_referenced (db : Database) (accountId : string) :
  existsb (fun e =>
             existsb (fun l => String.eqb (JournalLine.accountId l) accountId)
                     (JournalEntry.lines e))
          (journalEntryTable db) = true
  <-> referenced db accountId.
Proof.
  unfold referenced. rewrite existsb_exists. split.
  - intros (e & He & H). apply existsb_exists in H. destruct H as (l & Hl & E).
    apply String.eqb_eq in E. now exists e, l.
  - intros (e & l & He & Hl & E). exists e. split; [exact He|].
    apply existsb_exists. exists l. split; [exact Hl|].
    now apply String.eqb_eq.
Qed.

(** What [createAccount] has checked when it succeeds. *)
Lemma createAccount_cases (db : Database) (companyId : string)
      (input : CreateAccountInput) (newId : string) :
  (exists e, createAccount companyId input newId db = (Throw e, db))
  \/ (find (fun a => String.eqb (Account.companyId a) companyId
                     && String.eqb (Account.code a) (ca_code input))
           (accountTable db) = None
      /\ (forall p, ca_parentId input = Some p -> p <> EmptyString ->
                    exists parent,
                      find (fun a => String.eqb (Account.id a) p
                                     && String.eqb (Account.companyId a)
                                                   companyId)
                           (accountTable db) = Some parent
                      /\ Account.type parent = ca_type input)
      /\ createAccount companyId input newId db
         = (Ok (createdAccount companyId input newId, ca_openingBalance input),
            mkDatabase
              (accountTable db ++ [createdAccount companyId input newId])
              (journalEntryTable db))).
Proof.
  unfold createAccount, bind, get, put, throw, ret.
  destruct (find _ (accountTable db)) as [existing|] eqn:F;
    [left; eexists; reflexivity|].
  destruct (ca_parentId input) as [p|] eqn:P; simpl.
  - destruct (String.eqb p "") eqn:Ep; simpl.
    + right. split; [reflexivity|]. split; [|rewrite <- P; reflexivity].
      intros p' E Hne. injection E as <-. apply String.eqb_eq in Ep.
      contradiction.
    + match goal with
      | |- context [find ?pred (accountTable db)] =>
          destruct (find pred (accountTable db)) as [parent|] eqn:Fp
      end; simpl; [|left; eexists; reflexivity].
      destruct (AccountType_eqb (Account.type parent) (ca_type input)) eqn:Et;
        simpl; [|left; eexists; reflexivity].
      right. split; [reflexivity|]. split; [|rewrite <- P; reflexivity].
      intros p' E _. injection E as <-. exists parent. split; [exact Fp|].
      now apply AccountType_eqb_eq.
  - right. split; [reflexivity|]. split; [|rewrite <- P; reflexivity].
    intros p' E. discriminate.
Qed.

(** What [deactivateAccount] does when it succeeds. *)
Lemma deactivateAccount_cases (db : Database) (companyId accountId : string) :
  (exists e, deactivateAccount companyId accountId db = (Throw e, db))
  \/ exists account,
      find (fun a => String.eqb (Account.id a) accountId
                     && String.eqb (Account.companyId a) companyId)
           (accountTable db) = Some account
      /\ Account.isSystemAccount account = false
      /\ ((referenced db accountId
           /\ deactivateAccount companyId accountId db
              = (Ok tt, replaceAccount accountId (setActive false) db))
          \/ (~ referenced db accountId
              /\ deactivateAccount companyId accountId db
                 = (Ok tt,
                    mkDatabase
                      (filter (fun a => negb (String.eqb (Account.id a)
                                                         accountId))
                              (accountTable db))
                      (journalEntryTable db)))).
Proof.
  unfold deactivateAccount, bind, get, put, throw.
  destruct (find _ (accountTable db)) as [account|] eqn:F;
    [|left; eexists; reflexivity].
  destruct (Account.isSystemAccount account) eqn:S;
    [left; eexists; reflexivity|].
  right. exists account. split; [reflexivity|]. split; [exact S|].
  destruct (existsb _ (journalEntryTable db)) eqn:E.
  - left. split; [now apply hasTransactions_referenced|reflexivity].
  - right. split; [|reflexivity]. intros H.
    apply hasTransactions_referenced in H. congruence.
Qed.

(** What [importDefaultChart] does when it succeeds. *)
Lemma importDefaultChart_cases (db : Database) (companyId : string)
      (newId : nat -> string) :
  (exists e, importDefaultChart companyId newId db = (Throw e, db))
  \/ ((forall a, In a (accountTable db) -> Account.companyId a <> companyId)
      /\ importDefaultChart companyId newId db
         = (Ok (List.length defaultChartOfAccounts_service),
            mkDatabase (accountTable db ++ importedAccounts companyId newId)
                       (journalEntryTable db))).
Proof.
  unfold importDefaultChart, bind, get, put, throw, ret.
  destruct (filter _ (accountTable db)) as [|x rest] eqn:F.
  - right. split.
    + intros a Ha Hc.
      assert (Hin : In a (filter (fun a => String.eqb (Account.companyId a)
                                                      companyId)
                                 (accountTable db))).
      { apply filter_In. split; [exact Ha|]. now apply String.eqb_eq. }
      rewrite F in Hin. destruct Hin.
    + cbn [List.length Nat.ltb Nat.leb]. unfold importedAccounts.
      now rewrite length_map, length_combine, length_seq, Nat.min_id.
  - left. eexists. reflexivity.
Qed.

(** What [updateAccount] has checked when it succeeds. *)
Lemma updateAccount_cases (fuel : nat) (db : Database)
      (companyId accountId : string) (input : UpdateAccountInput)
      (r : Result (Account.t * Q) * Database) :
  updateAccount fuel companyId accountId input db = Some r ->
  (exists e, r = (Throw e, db))
  \/ exists account,
      find (fun a => String.eqb (Account.id a) accountId
                     && String.eqb (Account.companyId a) companyId)
           (accountTable db) = Some account
      /\ (Account.isSystemAccount account = true ->
          given (up_code input) = false /\ up_isActive input <> Some false)
      /\ (forall code',
             up_code input = Some code' -> code' <> EmptyString ->
             code' <> Account.code account ->
             forall a, In a (accountTable db) ->
                       Account.companyId a = companyId ->
                       Account.code a <> code')
      /\ (forall p,
             up_parentId input = Some (Some p) -> p <> EmptyString ->
             p <> accountId
             /\ exists parent,
                 find (fun a => String.eqb (Account.id a) p
                                && String.eqb (Account.companyId a) companyId)
                      (accountTable db) = Some parent
                 /\ Account.type parent = Account.type account
                 /\ circularCheck fuel db accountId parent = Some (Ok tt))
      /\ (exists v, fst r = Ok v)
      /\ snd r = replaceAccount accountId (applyUpdate input) db.
Proof.
  unfold updateAccount.
  destruct (find _ (accountTable db)) as [account|] eqn:F.
  2:{ intros H. injection H as <-. left. eexists. reflexivity. }
  destruct (Account.isSystemAccount account
            && (given (up_code input)
                || match up_isActive input with
                   | Some false => true
                   | _ => false
                   end)) eqn:Esys.
  { intros H. injection H as <-. left. eexists. reflexivity. }
  match goal with
  | |- (if ?c then _ else _) = _ -> _ => destruct c eqn:Ecode
  end.
  { intros H. injection H as <-. left. eexists. reflexivity. }
  assert (Hsys : Account.isSystemAccount account = true ->
                 given (up_code input) = false
                 /\ up_isActive input <> Some false).
  { intros S. rewrite S in Esys. simpl in Esys.
    apply orb_false_iff in Esys. destruct Esys as [Eg Ea].
    split; [exact Eg|]. intros E. rewrite E in Ea. discriminate. }
  assert (Hcode : forall code',
             up_code input = Some code' -> code' <> EmptyString ->
             code' <> Account.code account ->
             forall a, In a (accountTable db) ->
                       Account.companyId a = companyId ->
                       Account.code a <> code').
  { intros code' Ec Hne Hdiff a Ha Hc Heq. rewrite Ec in Ecode.
    simpl in Ecode.
    apply String.eqb_neq in Hne, Hdiff. rewrite Hne, Hdiff in Ecode.
    simpl in Ecode.
    assert (Hex : existsb (fun a0 => String.eqb (Account.companyId a0) companyId
                                     && String.eqb (Account.code a0) code')
                          (accountTable db) = true).
    { apply existsb_exists. exists a. split; [exact Ha|].
      apply andb_true_iff. split; now apply String.eqb_eq. }
    congruence. }
  destruct (up_parentId input) as [[p|]|] eqn:P.
  - destruct (String.eqb p "") eqn:Ep.
    + intros H. injection H as <-. right. exists account.
      split; [reflexivity|]. split; [exact Hsys|]. split; [exact Hcode|].
      split; [|split; [eexists; reflexivity|reflexivity]].
      intros p' E Hne. injection E as <-. apply String.eqb_eq in Ep.
      contradiction.
    + unfold validateParent.
      destruct (String.eqb p accountId) eqn:Eself.
      { intros H. injection H as <-. left. eexists. reflexivity. }
      match goal with
      | |- context [find ?pred (accountTable db)] =>
          destruct (find pred (accountTable db)) as [parent|] eqn:Fp
      end.
      2:{ intros H. injection H as <-. left. eexists. reflexivity. }
      destruct (AccountType_eqb (Account.type parent) (Account.type account))
        eqn:Et; simpl.
      2:{ intros H. injection H as <-. left. eexists. reflexivity. }
      destruct (circularCheck fuel db accountId parent) as [[e|[]]|] eqn:C;
        [| |discriminate].
      { intros H. injection H as <-. left. eexists. reflexivity. }
      intros H. injection H as <-. right. exists account.
      split; [reflexivity|]. split; [exact Hsys|]. split; [exact Hcode|].
      split; [|split; [eexists; reflexivity|reflexivity]].
      intros p' E _. injection E as <-. split.
      * now apply String.eqb_neq.
      * exists parent. split; [exact Fp|]. split; [|exact C].
        now apply AccountType_eqb_eq.
  - intros H. injection H as <-. right. exists account.
    split; [reflexivity|]. split; [exact Hsys|]. split; [exact Hcode|].
    split; [|split; [eexists; reflexivity|reflexivity]].
    intros p' E. discriminate.
  - intros H. injection H as <-. right. exists account.
    split; [reflexivity|]. split; [exact Hsys|]. split; [exact Hcode|].
    split; [|split; [eexists; reflexivity|reflexivity]].
    intros p' E. discriminate.
Qed.

Lemma replaced_In (db : Database) (accountId : string)
      (g : Account.t -> Account.t) (a : Account.t) :
  In a (accountTable db) -> Account.id a <> accountId ->
  In a (accountTable (replaceAccount accountId g db)).
Proof.
  intros Ha Hne. unfold replaceAccount. cbn [accountTable].
  apply in_map_iff. exists a. split; [|exact Ha].
  apply String.eqb_neq in Hne. now rewrite Hne.
Qed.

Lemma given_false (x : option string) :
  given x = false -> x <> Some EmptyString -> x = None.
Proof.
  destruct x as [v|]; [|reflexivity]. simpl. intros H Hne.
  apply negb_false_iff, String.eqb_eq in H. subst v. contradiction.
Qed.

(** X16: with distinct account ids and requests that pass the schemas,
    no write of the account service deletes a system account, changes
    its id, tenant, code, type or subtype, takes its system flag away,
    or deactivates it. *)
Theorem system_accounts_protected (w : AccountWrite) (db : Database)
        (r : option AppError * Database) (a : Account.t) :
  NoDup (map Account.id (accountTable db)) ->
  passesSchema w ->
  accountWrite w db = Some r ->
  In a (accountTable db) ->
  Account.isSystemAccount a = true ->
  exists a',
    In a' (accountTable (snd r))
    /\ protectedPart a' = protectedPart a
    /\ (Account.isActive a = true -> Account.isActive a' = true).
Proof.
  intros Hnd Hschema Hw Ha Hsys.
  assert (Hsame : forall db' : Database,
             In a (accountTable db') ->
             exists a', In a' (accountTable db')
                        /\ protectedPart a' = protectedPart a
                        /\ (Account.isActive a = true ->
                            Account.isActive a' = true)).
  { intros db' H. exists a. now repeat split. }
  destruct w as [c input n|fuel c i input|c i|c newId];
    cbn [accountWrite passesSchema] in *.
  - injection Hw as <-. apply Hsame. unfold outcome. cbn [snd].
    destruct (createAccount_cases db c input n) as [(e & H)|(_ & _ & H)];
      rewrite H; cbn [snd accountTable]; [exact Ha|].
    apply in_or_app. now left.
  - destruct (updateAccount fuel c i input db) as [res|] eqn:U;
      [|discriminate].
    injection Hw as <-. unfold outcome. cbn [snd].
    destruct (updateAccount_cases _ _ _ _ _ _ U)
      as [(e & ->)|(account & F & Hs & _ & _ & _ & ->)]; [now apply Hsame|].
    apply find_account_In in F. destruct F as (Hin & Hi & Hc).
    destruct (String.eqb (Account.id a) i) eqn:E.
    + apply String.eqb_eq in E.
      assert (a = account)
        by (apply (NoDup_map_inj Account.id _ a account Hnd Ha Hin);
            congruence).
      subst account. destruct (Hs Hsys) as [Hg Hact].
      pose proof (given_false _ Hg Hschema) as Hnone.
      exists (applyUpdate input a). split; [|split].
      * unfold replaceAccount. cbn [accountTable]. apply in_map_iff.
        exists a. split; [|exact Ha]. apply String.eqb_eq in E.
        now rewrite E.
      * unfold protectedPart, applyUpdate. simpl. now rewrite Hnone.
      * unfold applyUpdate. simpl. intros Hactive.
        destruct (up_isActive input) as [[|]|]; congruence.
    + apply Hsame. apply replaced_In; [exact Ha|]. now apply String.eqb_neq.
  - injection Hw as <-. unfold outcome. cbn [snd]. apply Hsame.
    destruct (deactivateAccount_cases db c i)
      as [(e & H)|(account & F & Hns & [[_ H]|[_ H]])];
      rewrite H; cbn [snd]; [exact Ha| |].
    + apply find_account_In in F. destruct F as (Hin & Hi & _).
      apply replaced_In; [exact Ha|]. intros E.
      assert (a = account)
        by (apply (NoDup_map_inj Account.id _ a account Hnd Ha Hin);
            congruence).
      congruence.
    + apply find_account_In in F. destruct F as (Hin & Hi & _).
      cbn [accountTable]. apply filter_In. split; [exact Ha|].
      apply negb_true_iff, String.eqb_neq. intros E.
      assert (a = account)
        by (apply (NoDup_map_inj Account.id _ a account Hnd Ha Hin);
            congruence).
      congruence.
  - injection Hw as <-. apply Hsame. unfold outcome. cbn [snd].
    destruct (importDefaultChart_cases db c newId) as [(e & H)|(_ & H)];
      rewrite H; cbn [snd accountTable]; [exact Ha|].
    apply in_or_app. now left.
Qed.

(** *** Account ids *)

Lemma replaced_ids (db : Database) (accountId : string)
      (g : Account.t -> Account.t) :
  (forall a, Account.id (g a) = Account.id a) ->
  map Account.id (accountTable (replaceAccount accountId g db))
  = map Account.id (accountTable db).
Proof.
  intros Hg. unfold replaceAccount. cbn [accountTable]. rewrite map_map.
  apply map_ext. intros a.
  now destruct (String.eqb (Account.id a) accountId).
Qed.

Lemma importedAccounts_ids (companyId : string) (newId : nat -> string) :
  map Account.id (importedAccounts companyId newId)
  = map newId (seq 0 (List.length defaultChartOfAccounts_service)).
Proof. reflexivity. Qed.

Lemma importedAccounts_In (companyId : string) (newId : nat -> string)
      (a : Account.t) :
  In a (importedAccounts companyId newId) ->
  Account.companyId a = companyId
  /\ Account.parentId a = None
  /\ Account.isActive a = true
  /\ exists i, (i < List.length defaultChartOfAccounts_service)%nat
               /\ Account.id a = newId i.
Proof.
  unfold importedAccounts. intros H. apply in_map_iff in H.
  destruct H as ([i acc] & <- & Hin). apply in_combine_l in Hin.
  apply in_seq in Hin. repeat split. exists i. split; [lia|reflexivity].
Qed.

(** X17: when the generated uuids are new and pairwise distinct, the
    account ids stay pairwise distinct under every write of the account
    service. *)
Theorem account_ids_stay_distinct (w : AccountWrite) (db : Database)
        (r : option AppError * Database) :
  NoDup (map Account.id (accountTable db)) ->
  freshIds w db ->
  accountWrite w db = Some r ->
  NoDup (map Account.id (accountTable (snd r))).
Proof.
  intros Hnd Hfresh Hw.
  destruct w as [c input n|fuel c i input|c i|c newId];
    cbn [accountWrite freshIds] in *.
  - injection Hw as <-. unfold outcome. cbn [snd].
    destruct (createAccount_cases db c input n) as [(e & H)|(_ & _ & H)];
      rewrite H; cbn [snd accountTable]; [exact Hnd|].
    rewrite map_app. apply NoDup_app; [exact Hnd|now repeat constructor|].
    intros x Hx [<-|[]]. apply in_map_iff in Hx. destruct Hx as (a & E & Ha).
    now apply (proj1 (Hfresh a Ha)).
  - destruct (updateAccount fuel c i input db) as [res|] eqn:U;
      [|discriminate].
    injection Hw as <-. unfold outcome. cbn [snd].
    destruct (updateAccount_cases _ _ _ _ _ _ U)
      as [(e & ->)|(account & _ & _ & _ & _ & _ & ->)]; [exact Hnd|].
    now rewrite replaced_ids.
  - injection Hw as <-. unfold outcome. cbn [snd].
    destruct (deactivateAccount_cases db c i)
      as [(e & H)|(account & _ & _ & [[_ H]|[_ H]])];
      rewrite H; cbn [snd]; [exact Hnd| |].
    + now rewrite replaced_ids.
    + cbn [accountTable]. now apply ids_distinct_filter.
  - injection Hw as <-. unfold outcome. cbn [snd].
    destruct (importDefaultChart_cases db c newId) as [(e & H)|(_ & H)];
      rewrite H; cbn [snd accountTable]; [exact Hnd|].
    destruct Hfresh as [Hunused Hdistinct].
    rewrite map_app, importedAccounts_ids.
    apply NoDup_app; [exact Hnd|exact Hdistinct|].
    intros x Hx Hx'. apply in_map_iff in Hx. destruct Hx as (a & E & Ha).
    apply in_map_iff in Hx'. destruct Hx' as (k & E' & Hk).
    apply in_seq in Hk. apply (proj1 (Hunused k (proj2 Hk) a Ha)). congruence.
Qed.

(** *** Account codes *)

Lemma codes_distinct_filter (keep : Account.t -> bool)
      (accounts : list Account.t) :
  NoDup (map Account.code accounts) ->
  NoDup (map Account.code (filter keep accounts)).
Proof.
  induction accounts as [|a rest IH]; simpl; intros H; [constructor|].
  inversion H as [|? ? Hnot Hrest]; subst.
  destruct (keep a); simpl; [|now apply IH].
  constructor; [|now apply IH]. intros Hin. apply Hnot.
  apply in_map_iff in Hin. destruct Hin as (b & E & Hb).
  apply filter_In in Hb. apply in_map_iff. exists b. tauto.
Qed.

Lemma unchanged_others (accountId : string) (g : Account.t -> Account.t)
      (l : list Account.t) :
  (forall a, In a l -> Account.id a <> accountId) ->
  map (fun a => if String.eqb (Account.id a) accountId then g a else a) l = l.
Proof.
  intros H. induction l as [|x rest IH]; simpl; [reflexivity|].
  rewrite IH by (intros a Ha; apply H; now right).
  destruct (String.eqb (Account.id x) accountId) eqn:E; [|reflexivity].
  apply String.eqb_eq in E. exfalso. now apply (H x (or_introl eq_refl)).
Qed.

(** With distinct ids, replacing the rows of id [accountId] replaces
    one row, or none. *)
Lemma replace_one (accountId : string) (g : Account.t -> Account.t)
      (l : list Account.t) :
  NoDup (map Account.id l) ->
  (map (fun a => if String.eqb (Account.id a) accountId then g a else a) l = l
   /\ forall a, In a l -> Account.id a <> accountId)
  \/ exists pre x post,
      l = (pre ++ x :: post)%list
      /\ Account.id x = accountId
      /\ (forall a, In a (pre ++ post) -> Account.id a <> accountId)
      /\ map (fun a => if String.eqb (Account.id a) accountId then g a else a) l
         = (pre ++ g x :: post)%list.
Proof.
  intros Hnd.
  destruct (find (fun a => String.eqb (Account.id a) accountId) l)
    as [x|] eqn:F.
  - right. apply find_some in F. destruct F as [Hin Hx].
    apply String.eqb_eq in Hx. apply in_split in Hin.
    destruct Hin as (pre & post & ->). exists pre, x, post.
    rewrite map_app in Hnd. cbn [map] in Hnd.
    apply NoDup_remove_2 in Hnd.
    assert (Hothers : forall a, In a (pre ++ post) ->
                                Account.id a <> accountId).
    { intros a Ha E. apply Hnd. rewrite <- map_app, Hx, <- E.
      now apply in_map. }
    split; [reflexivity|]. split; [exact Hx|]. split; [exact Hothers|].
    rewrite map_app. cbn [map].
    rewrite !unchanged_others
      by (intros a Ha; apply Hothers, in_or_app; tauto).
    apply String.eqb_eq in Hx. now rewrite Hx.
  - left. assert (Hall : forall a, In a l -> Account.id a <> accountId).
    { intros a Ha E. apply (find_none _ _ F) in Ha.
      apply String.eqb_neq in Ha. contradiction. }
    split; [now apply unchanged_others|exact Hall].
Qed.

Lemma codes_after_replace (accounts : list Account.t) (accountId : string)
      (g : Account.t -> Account.t) :
  NoDup (map Account.id accounts) ->
  NoDup (map Account.code accounts) ->
  (forall a, In a accounts -> Account.id a = accountId ->
             Account.code (g a) = Account.code a
             \/ forall b, In b accounts -> Account.code b <> Account.code (g a)) ->
  NoDup (map Account.code
             (map (fun a => if String.eqb (Account.id a) accountId
                            then g a else a)
                  accounts)).
Proof.
  intros Hids Hcodes Hg.
  destruct (replace_one accountId g accounts Hids)
    as [[-> _]|(pre & x & post & -> & Hx & _ & ->)]; [exact Hcodes|].
  destruct (Hg x (in_elt x pre post) Hx) as [Hsame|Hnew].
  - rewrite map_app in *. cbn [map] in *. now rewrite Hsame.
  - rewrite map_app in *. cbn [map] in *.
    apply (Permutation_NoDup (Permutation_middle _ _ _)).
    constructor.
    + intros Hin. rewrite <- map_app in Hin. apply in_map_iff in Hin.
      destruct Hin as (b & E & Hb). apply (Hnew b); [|exact E].
      apply in_app_iff in Hb. apply in_or_app. simpl. tauto.
    + now apply NoDup_remove_1 in Hcodes.
Qed.

Lemma filter_replaced (g : Account.t -> Account.t) (accountId : string)
      (tenant : string) (l : list Account.t) :
  (forall a, Account.companyId (g a) = Account.companyId a) ->
  filter (fun a => String.eqb (Account.companyId a) tenant)
         (map (fun a => if String.eqb (Account.id a) accountId then g a else a)
              l)
  = map (fun a => if String.eqb (Account.id a) accountId then g a else a)
        (filter (fun a => String.eqb (Account.companyId a) tenant) l).
Proof.
  intros Hg. induction l as [|a rest IH]; simpl; [reflexivity|].
  assert (E : Account.companyId
                (if String.eqb (Account.id a) accountId then g a else a)
              = Account.companyId a)
    by (destruct (String.eqb (Account.id a) accountId); [apply Hg|reflexivity]).
  rewrite E.
  destruct (String.eqb (Account.companyId a) tenant); simpl; now rewrite IH.
Qed.

Lemma filter_all {A} (p : A -> bool) (l : list A) :
  (forall x, In x l -> p x = true) -> filter p l = l.
Proof.
  intros H. induction l as [|x rest IH]; simpl; [reflexivity|].
  rewrite (H x (or_introl eq_refl)), IH; [reflexivity|].
  intros y Hy. apply H. now right.
Qed.

Lemma filter_none {A} (p : A -> bool) (l : list A) :
  (forall x, In x l -> p x = false) -> filter p l = [].
Proof.
  intros H. induction l as [|x rest IH]; simpl; [reflexivity|].
  rewrite (H x (or_introl eq_refl)). apply IH.
  intros y Hy. apply H. now right.
Qed.

Lemma template_codes_distinct :
  NoDup (map t_code defaultChartOfAccounts_service).
Proof.
  assert (E : nodup string_dec (map t_code defaultChartOfAccounts_service)
              = map t_code defaultChartOfAccounts_service)
    by (vm_compute; reflexivity).
  rewrite <- E. apply NoDup_nodup.
Qed.

Lemma importedAccounts_codes (companyId : string) (newId : nat -> string) :
  map Account.code (importedAccounts companyId newId)
  = map t_code defaultChartOfAccounts_service.
Proof. reflexivity. Qed.

(** X18: with distinct account ids and requests that pass the schemas,
    the codes of the accounts of a tenant stay pairwise distinct under
    every write of the account service. *)
Theorem account_codes_stay_distinct (w : AccountWrite) (db : Database)
        (r : option AppError * Database) (tenant : string) :
  NoDup (map Account.id (accountTable db)) ->
  passesSchema w ->
  accountWrite w db = Some r ->
  NoDup (tenantCodes tenant db) ->
  NoDup (tenantCodes tenant (snd r)).
Proof.
  intros Hnd Hschema Hw Hcodes.
  destruct w as [c input n|fuel c i input|c i|c newId];
    cbn [accountWrite passesSchema] in *.
  - injection Hw as <-. unfold outcome. cbn [snd].
    destruct (createAccount_cases db c input n) as [(e & H)|(F & _ & H)];
      rewrite H; cbn [snd]; [exact Hcodes|].
    unfold tenantCodes in *. cbn [accountTable].
    rewrite filter_app, map_app. cbn [filter createdAccount Account.companyId].
    destruct (String.eqb c tenant) eqn:Ec; [|now rewrite app_nil_r].
    apply String.eqb_eq in Ec. subst tenant.
    apply NoDup_app; [exact Hcodes|now repeat constructor|].
    intros x Hx [<-|[]]. apply in_map_iff in Hx. destruct Hx as (a & E & Ha).
    apply filter_In in Ha. destruct Ha as [Ha Hc].
    pose proof (find_none _ _ F a Ha) as Hf. cbn beta in Hf.
    rewrite Hc in Hf. simpl in Hf. cbn [Account.code] in E.
    apply String.eqb_neq in Hf. contradiction.
  - destruct (updateAccount fuel c i input db) as [res|] eqn:U;
      [|discriminate].
    injection Hw as <-. unfold outcome. cbn [snd].
    destruct (updateAccount_cases _ _ _ _ _ _ U)
      as [(e & ->)|(account & F & _ & Hcode & _ & _ & ->)]; [exact Hcodes|].
    apply find_account_In in F. destruct F as (Hin & Hi & Hc).
    unfold tenantCodes in *. unfold replaceAccount. cbn [accountTable].
    rewrite filter_replaced by reflexivity.
    apply codes_after_replace;
      [now apply ids_distinct_filter|exact Hcodes|].
    intros a Ha Hai. apply filter_In in Ha. destruct Ha as [Ha Hat].
    apply String.eqb_eq in Hat.
    assert (a = account)
      by (apply (NoDup_map_inj Account.id _ a account Hnd Ha Hin);
          congruence).
    subst a. unfold applyUpdate. cbn [Account.code].
    destruct (up_code input) as [code'|] eqn:Ecode; [|now left].
    destruct (string_dec code' (Account.code account)) as [->|Hdiff];
      [now left|].
    right. intros b Hb. apply filter_In in Hb. destruct Hb as [Hb Hbt].
    apply String.eqb_eq in Hbt.
    apply (Hcode code' eq_refl); [congruence|exact Hdiff|exact Hb|congruence].
  - injection Hw as <-. unfold outcome. cbn [snd].
    destruct (deactivateAccount_cases db c i)
      as [(e & H)|(account & _ & _ & [[_ H]|[_ H]])];
      rewrite H; cbn [snd]; [exact Hcodes| |].
    + unfold tenantCodes in *. unfold replaceAccount. cbn [accountTable].
      rewrite filter_replaced by reflexivity.
      apply codes_after_replace;
        [now apply ids_distinct_filter|exact Hcodes|].
      intros a _ _. now left.
    + unfold tenantCodes in *. cbn [accountTable].
      rewrite filter_twice.
      rewrite (filter_ext _ (fun a => String.eqb (Account.companyId a) tenant
                                      && negb (String.eqb (Account.id a) i)))
        by (intros a; apply andb_comm).
      rewrite <- filter_twice. now apply codes_distinct_filter.
  - injection Hw as <-. unfold outcome. cbn [snd].
    destruct (importDefaultChart_cases db c newId) as [(e & H)|(Hempty & H)];
      rewrite H; cbn [snd]; [exact Hcodes|].
    unfold tenantCodes in *. cbn [accountTable].
    rewrite filter_app, map_app.
    destruct (String.eqb c tenant) eqn:Ec.
    + apply String.eqb_eq in Ec. subst tenant.
      rewrite (filter_none _ (accountTable db))
        by (intros a Ha; apply String.eqb_neq; now apply Hempty).
      rewrite filter_all.
      * cbn [map app]. rewrite importedAccounts_codes.
        apply template_codes_distinct.
      * intros a Ha. apply importedAccounts_In in Ha.
        apply String.eqb_eq. tauto.
    + rewrite (filter_none _ (importedAccounts c newId)).
      * now rewrite app_nil_r.
      * intros a Ha. apply importedAccounts_In in Ha.
        destruct Ha as [-> _]. exact Ec.
Qed.

(** *** Parents *)

Lemma replaced_row (db : Database) (accountId : string)
      (g : Account.t -> Account.t) (a' : Account.t) :
  In a' (accountTable (replaceAccount accountId g db)) ->
  exists a, In a (accountTable db)
            /\ a' = if String.eqb (Account.id a) accountId then g a else a.
Proof.
  unfold replaceAccount. cbn [accountTable]. intros H.
  apply in_map_iff in H. destruct H as (a & <- & Ha). now exists a.
Qed.

Lemma parentsAgree_replaced (db : Database) (accountId : string)
      (g : Account.t -> Account.t) :
  parentsAgree db ->
  (forall a, Account.id (g a) = Account.id a
             /\ Account.type (g a) = Account.type a
             /\ Account.companyId (g a) = Account.companyId a) ->
  (forall a p, In a (accountTable db) -> In p (accountTable db) ->
               Account.id a = accountId ->
               Account.parentId (g a) = Some (Account.id p) ->
               Account.id p <> EmptyString ->
               Account.type p = Account.type a
               /\ Account.companyId p = Account.companyId a) ->
  parentsAgree (replaceAccount accountId g db).
Proof.
  intros Hinv Hg Hnew a' p' Ha' Hp' Hparent Hne.
  apply replaced_row in Ha'. destruct Ha' as (a & Ha & ->).
  apply replaced_row in Hp'. destruct Hp' as (p & Hp & ->).
  assert (Ep : forall x, Account.id (if String.eqb (Account.id x) accountId
                                     then g x else x) = Account.id x
                         /\ Account.type (if String.eqb (Account.id x) accountId
                                          then g x else x) = Account.type x
                         /\ Account.companyId
                              (if String.eqb (Account.id x) accountId
                               then g x else x) = Account.companyId x).
  { intros x. destruct (String.eqb (Account.id x) accountId);
      [apply Hg|now repeat split]. }
  destruct (Ep a) as (_ & -> & ->). destruct (Ep p) as (Eid & -> & ->).
  rewrite Eid in Hparent, Hne.
  destruct (String.eqb (Account.id a) accountId) eqn:Ea.
  - apply String.eqb_eq in Ea. now apply (Hnew a p).
  - now apply Hinv.
Qed.

Lemma parentsAgree_appended (db : Database) (added : list Account.t) :
  parentsAgree db ->
  (forall n, In n added -> unusedId db (Account.id n)) ->
  (forall n p, In n added -> In p (accountTable db ++ added) ->
               Account.parentId n = Some (Account.id p) ->
               Account.id p <> EmptyString ->
               Account.type p = Account.type n
               /\ Account.companyId p = Account.companyId n) ->
  parentsAgree (mkDatabase (accountTable db ++ added) (journalEntryTable db)).
Proof.
  intros Hinv Hfresh Hnew a p Ha Hp Hparent Hne. cbn [accountTable] in *.
  apply in_app_iff in Ha. destruct Ha as [Ha|Ha].
  - apply in_app_iff in Hp. destruct Hp as [Hp|Hp]; [now apply Hinv|].
    destruct (Hfresh p Hp a Ha) as [_ H]. contradiction.
  - now apply Hnew.
Qed.

(** X19: with distinct account ids and new uuids for the rows that are
    created, every write of the account service keeps this true of the
    chart: a stored parent has the type and the tenant of its child. *)
Theorem account_parents_stay_consistent (w : AccountWrite) (db : Database)
        (r : option AppError * Database) :
  NoDup (map Account.id (accountTable db)) ->
  freshIds w db ->
  accountWrite w db = Some r ->
  parentsAgree db ->
  parentsAgree (snd r).
Proof.
  intros Hnd Hfresh Hw Hinv.
  destruct w as [c input n|fuel c i input|c i|c newId];
    cbn [accountWrite freshIds] in *.
  - injection Hw as <-. unfold outcome. cbn [snd].
    destruct (createAccount_cases db c input n) as [(e & H)|(_ & Hp & H)];
      rewrite H; cbn [snd]; [exact Hinv|].
    apply parentsAgree_appended; [exact Hinv| |].
    + intros x [<-|[]]. exact Hfresh.
    + intros x p [<-|[]] Hin Hparent Hne. cbn [createdAccount] in *.
      cbn [Account.parentId Account.type Account.companyId] in *.
      destruct (Hp (Account.id p) Hparent Hne) as (parent & F & Ht).
      apply find_account_In in F. destruct F as (Hpin & Hpi & Hpc).
      apply in_app_iff in Hin. destruct Hin as [Hin|[<-|[]]].
      * assert (p = parent)
          by (apply (NoDup_map_inj Account.id _ p parent Hnd Hin Hpin);
              congruence).
        subst p. now split.
      * destruct (Hfresh parent Hpin) as [Hid _]. cbn [Account.id] in Hpi.
        contradiction.
  - destruct (updateAccount fuel c i input db) as [res|] eqn:U;
      [|discriminate].
    injection Hw as <-. unfold outcome. cbn [snd].
    destruct (updateAccount_cases _ _ _ _ _ _ U)
      as [(e & ->)|(account & F & _ & _ & Hp & _ & ->)]; [exact Hinv|].
    apply find_account_In in F. destruct F as (Hin & Hi & Hc).
    apply parentsAgree_replaced; [exact Hinv|now repeat split|].
    intros a p Ha Hpin Hai Hparent Hne.
    assert (a = account)
      by (apply (NoDup_map_inj Account.id _ a account Hnd Ha Hin);
          congruence).
    subst a. unfold applyUpdate in Hparent. cbn [Account.parentId] in Hparent.
    destruct (up_parentId input) as [[q|]|] eqn:Eq.
    + injection Hparent as ->.
      destruct (Hp (Account.id p) eq_refl Hne) as (_ & parent & F & Ht & _).
      apply find_account_In in F. destruct F as (Hparin & Hpari & Hparc).
      assert (p = parent)
        by (apply (NoDup_map_inj Account.id _ p parent Hnd Hpin Hparin);
            congruence).
      subst p. split; congruence.
    + discriminate.
    + now apply Hinv.
  - injection Hw as <-. unfold outcome. cbn [snd].
    destruct (deactivateAccount_cases db c i)
      as [(e & H)|(account & _ & _ & [[_ H]|[_ H]])];
      rewrite H; cbn [snd]; [exact Hinv| |].
    + apply parentsAgree_replaced; [exact Hinv|now repeat split|].
      intros a p Ha Hp _ Hparent Hne. now apply Hinv.
    + intros a p Ha Hp. cbn [accountTable] in *.
      apply filter_In in Ha, Hp. apply Hinv; tauto.
  - injection Hw as <-. unfold outcome. cbn [snd].
    destruct (importDefaultChart_cases db c newId) as [(e & H)|(_ & H)];
      rewrite H; cbn [snd]; [exact Hinv|].
    destruct Hfresh as [Hunused _].
    apply parentsAgree_appended; [exact Hinv| |].
    + intros x Hx. apply importedAccounts_In in Hx.
      destruct Hx as (_ & _ & _ & k & Hk & ->). now apply Hunused.
    + intros x p Hx _ Hparent. apply importedAccounts_In in Hx.
      destruct Hx as (_ & Hnone & _). congruence.
Qed.

(** *** Parent links without a cycle *)


Lemma findUnique_id (db : Database) (q : string) (a : Account.t) :
  account_findUnique db q = Some a ->
  In a (accountTable db) /\ Account.id a = q.
Proof.
  unfold account_findUnique. intros H. apply find_some in H.
  destruct H as [Hin H]. apply String.eqb_eq in H. now split.
Qed.

Lemma findUnique_replaced (db : Database) (accountId : string)
      (g : Account.t -> Account.t) (q : string) :
  (forall a, Account.id (g a) = Account.id a) ->
  account_findUnique (replaceAccount accountId g db) q
  = option_map (fun a => if String.eqb (Account.id a) accountId
                         then g a else a)
               (account_findUnique db q).
Proof.
  intros Hg. unfold account_findUnique, replaceAccount. cbn [accountTable].
  induction (accountTable db) as [|a rest IH]; simpl; [reflexivity|].
  assert (E : Account.id (if String.eqb (Account.id a) accountId
                          then g a else a) = Account.id a)
    by (destruct (String.eqb (Account.id a) accountId);
        [apply Hg|reflexivity]).
  rewrite E. destruct (String.eqb (Account.id a) q); [reflexivity|exact IH].
Qed.





Lemma find_accounts_app (test : Account.t -> bool) (l l' : list Account.t) :
  find test (l ++ l')
  = match find test l with
    | Some a => Some a
    | None => find test l'
    end.
Proof.
  induction l as [|a rest IH]; simpl; [reflexivity|].
  now destruct (test a).
Qed.



Lemma findUnique_removed (db : Database) (accountId q : string) :
  account_findUnique
    (mkDatabase (filter (fun a => negb (String.eqb (Account.id a) accountId))
                        (accountTable db))
                (journalEntryTable db)) q
  = if String.eqb q accountId then None else account_findUnique db q.
Proof.
  unfold account_findUnique. cbn [accountTable].
  induction (accountTable db) as [|x rest IH]; simpl.
  - now destruct (String.eqb q accountId).
  - destruct (String.eqb (Account.id x) accountId) eqn:Ex; simpl.
    + rewrite IH. destruct (String.eqb q accountId) eqn:Eq; [reflexivity|].
      apply String.eqb_eq in Ex. apply String.eqb_neq in Eq.
      assert (En : String.eqb (Account.id x) q = false)
        by (apply String.eqb_neq; congruence).
      now rewrite En.
    + destruct (String.eqb (Account.id x) q) eqn:Exq; [|exact IH].
      apply String.eqb_eq in Exq. apply String.eqb_neq in Ex.
      assert (En : String.eqb q accountId = false)
        by (apply String.eqb_neq; congruence).
      now rewrite En.
Qed.




End AccountWrites.

Section AccountWritesFacts.
Import AccountService CycleExamples SystemAccountExamples AccountWriteExamples.

Lemma NoDup_by_nodup (l : list string) : nodup string_dec l = l -> NoDup l.
Proof. intros <-. apply NoDup_nodup. Qed.

Lemma dbTree_ids : NoDup (map Account.id (accountTable dbTree)).
Proof. apply NoDup_by_nodup. by_evaluation. Qed.

Lemma dbImported_ids : NoDup (map Account.id (accountTable dbImported)).
Proof. apply NoDup_by_nodup. by_evaluation. Qed.

Lemma dbTree_acyclic : acyclic dbTree.
Proof. intros a [<-|[<-|[]]]; exists 2%nat; reflexivity. Qed.

Lemma dbTree_parentsAgree : parentsAgree dbTree.
Proof.
  intros a p [<-|[<-|[]]] [<-|[<-|[]]] H _; try discriminate H.
  now split.
Qed.

Lemma system_accounts_protected_witness :
  NoDup (map Account.id (accountTable dbImported))
  /\ passesSchema (DeactivateAccount "acme" "acc-15")
  /\ accountWrite (DeactivateAccount "acme" "acc-15") dbImported
     = Some (Some (BadRequestError "Cannot deactivate system account"),
             dbImported)
  /\ In ownersEquity (accountTable dbImported)
  /\ Account.isSystemAccount ownersEquity = true
  /\ exists a',
      In a' (accountTable dbImported)
      /\ protectedPart a' = protectedPart ownersEquity
      /\ (Account.isActive ownersEquity = true -> Account.isActive a' = true).
Proof.
  assert (H3 : accountWrite (DeactivateAccount "acme" "acc-15") dbImported
               = Some (Some (BadRequestError
                               "Cannot deactivate system account"),
                       dbImported)) by by_evaluation.
  assert (H4 : In ownersEquity (accountTable dbImported)).
  { apply (nth_error_In _ 15). by_evaluation. }
  split; [exact dbImported_ids|]. split; [exact I|]. split; [exact H3|].
  split; [exact H4|]. split; [reflexivity|].
  exact (system_accounts_protected (DeactivateAccount "acme" "acc-15") _ _ _
                                   dbImported_ids I H3 H4 eq_refl).
Defined.

Lemma newChild_fresh : freshIds (CreateAccount "acme" newChild "acc-z") dbTree.
Proof. intros a [<-|[<-|[]]]; split; discriminate. Qed.

Lemma newChild_written :
  accountWrite (CreateAccount "acme" newChild "acc-z") dbTree
  = Some (None,
          mkDatabase [accX; accY; createdAccount "acme" newChild "acc-z"] []).
Proof. by_evaluation. Qed.

Lemma account_ids_stay_distinct_witness :
  NoDup (map Account.id (accountTable dbTree))
  /\ freshIds (CreateAccount "acme" newChild "acc-z") dbTree
  /\ accountWrite (CreateAccount "acme" newChild "acc-z") dbTree
     = Some (None,
             mkDatabase [accX; accY; createdAccount "acme" newChild "acc-z"]
                        [])
  /\ NoDup (map Account.id
                [accX; accY; createdAccount "acme" newChild "acc-z"]).
Proof.
  split; [exact dbTree_ids|]. split; [exact newChild_fresh|].
  split; [exact newChild_written|].
  exact (account_ids_stay_distinct _ _ _ dbTree_ids newChild_fresh
                                   newChild_written).
Defined.

Lemma recode_written :
  accountWrite (UpdateAccount 2 "acme" "acc-x" recode) dbTree
  = Some (None, replaceAccount "acc-x" (applyUpdate recode) dbTree).
Proof. by_evaluation. Qed.

Lemma account_codes_stay_distinct_witness :
  NoDup (map Account.id (accountTable dbTree))
  /\ passesSchema (UpdateAccount 2 "acme" "acc-x" recode)
  /\ accountWrite (UpdateAccount 2 "acme" "acc-x" recode) dbTree
     = Some (None, replaceAccount "acc-x" (applyUpdate recode) dbTree)
  /\ NoDup (tenantCodes "acme" dbTree)
  /\ NoDup (tenantCodes "acme"
                        (replaceAccount "acc-x" (applyUpdate recode) dbTree)).
Proof.
  assert (H2 : passesSchema (UpdateAccount 2 "acme" "acc-x" recode))
    by (simpl; discriminate).
  assert (H4 : NoDup (tenantCodes "acme" dbTree))
    by (apply NoDup_by_nodup; by_evaluation).
  split; [exact dbTree_ids|]. split; [exact H2|].
  split; [exact recode_written|]. split; [exact H4|].
  exact (account_codes_stay_distinct _ _ _ _ dbTree_ids H2 recode_written H4).
Defined.

Lemma account_parents_stay_consistent_witness :
  NoDup (map Account.id (accountTable dbTree))
  /\ freshIds (CreateAccount "acme" newChild "acc-z") dbTree
  /\ accountWrite (CreateAccount "acme" newChild "acc-z") dbTree
     = Some (None,
             mkDatabase [accX; accY; createdAccount "acme" newChild "acc-z"]
                        [])
  /\ parentsAgree dbTree
  /\ parentsAgree
       (mkDatabase [accX; accY; createdAccount "acme" newChild "acc-z"] []).
Proof.
  split; [exact dbTree_ids|]. split; [exact newChild_fresh|].
  split; [exact newChild_written|]. split; [exact dbTree_parentsAgree|].
  exact (account_parents_stay_consistent _ _ _ dbTree_ids newChild_fresh
           newChild_written dbTree_parentsAgree).
Defined.



End AccountWritesFacts.

(* ================================================================= *)
(** ** Deactivating, importing and creating accounts *)

Section AccountLifecycle.
Import AccountService JournalService ReportService.

Lemma findUnique_deactivated (db : Database) (accountId : string)
      (account : Account.t) :
  NoDup (map Account.id (accountTable db)) ->
  In account (accountTable db) ->
  Account.id account = accountId ->
  account_findUnique (replaceAccount accountId (setActive false) db) accountId
  = Some (setActive false account).
Proof.
  intros Hnd Hin Hi. rewrite findUnique_replaced by reflexivity.
  rewrite <- Hi at 1. rewrite (findUnique_member db account Hnd Hin). simpl.
  apply String.eqb_eq in Hi. now rewrite Hi.
Qed.

Lemma findUnique_other_replaced (db : Database) (accountId q : string)
      (g : Account.t -> Account.t) :
  (forall a, Account.id (g a) = Account.id a) ->
  q <> accountId ->
  account_findUnique (replaceAccount accountId g db) q
  = account_findUnique db q.
Proof.
  intros Hg Hq. rewrite findUnique_replaced by exact Hg.
  destruct (account_findUnique db q) as [a|] eqn:F; [|reflexivity].
  apply findUnique_id in F. destruct F as [_ Ha]. simpl.
  assert (E : String.eqb (Account.id a) accountId = false)
    by (apply String.eqb_neq; congruence).
  now rewrite E.
Qed.

(** The balance reads the opening balance of the account and the
    journal entries, nothing else. *)
Lemma balance_reads (db db' : Database) (accountId : string)
      (type : AccountType) (asOfDate : Z) :
  journalEntryTable db' = journalEntryTable db ->
  option_map Account.openingBalance (account_findUnique db' accountId)
  = option_map Account.openingBalance (account_findUnique db accountId) ->
  calculateAccountBalanceAsOf db' accountId type asOfDate
  = calculateAccountBalanceAsOf db accountId type asOfDate.
Proof.
  intros He Ho. rewrite !calculateAccountBalanceAsOf_unfold. cbv zeta.
  assert (Hl : postedLinesAsOf db' accountId asOfDate
               = postedLinesAsOf db accountId asOfDate)
    by (unfold postedLinesAsOf, postedEntriesAsOf; now rewrite He).
  rewrite Hl.
  destruct (account_findUnique db' accountId),
           (account_findUnique db accountId); simpl in Ho;
    try discriminate; [injection Ho as ->|]; reflexivity.
Qed.

(** A posting with a line on an account that is missing or inactive is
    rejected. *)
Lemma posting_on_closed_account (db : Database) (companyId userId : string)
      (input : CreateJournalEntryInput) (newId accountId : string) :
  NoDup (map Account.id (accountTable db)) ->
  (forall a, In a (accountTable db) -> Account.id a = accountId ->
             Account.isActive a = false) ->
  (exists l, In l (in_lines input) /\ JournalLine.accountId l = accountId) ->
  exists e, createJournalEntry companyId userId input newId db = (Throw e, db).
Proof.
  intros Hnd Hclosed (l & Hl & Hlid).
  destruct (validateDoubleEntry (in_lines input)) as [e|[]] eqn:V.
  - exists e. now apply createJournalEntry_throw.
  - rewrite (createJournalEntry_accounts _ _ _ _ _ V).
    destruct (validateAccounts_cases db companyId (in_lines input))
      as [H|[H|(a & _ & _ & _ & _ & H)]]; rewrite H;
      try (eexists; reflexivity).
    destruct (validateAccounts_ok_inv db companyId (in_lines input) Hnd H l Hl)
      as (a & Ha & Hai & _ & Hact).
    rewrite (Hclosed a Ha) in Hact by congruence. discriminate.
Qed.

(** X21: with distinct account ids, deactivating an account that is not
    a system account succeeds and leaves the journal as it is.  If a
    line references the account, its row stays, inactive, and every
    balance is unchanged; otherwise the row is deleted.  The other
    accounts are read as before, so no journal line loses its account;
    and a manual posting with a line on the deactivated account is
    rejected from then on. *)
Theorem deactivation_outcome (db : Database) (companyId accountId : string)
        (account : Account.t) :
  NoDup (map Account.id (accountTable db)) ->
  find (fun a => String.eqb (Account.id a) accountId
                 && String.eqb (Account.companyId a) companyId)
       (accountTable db) = Some account ->
  Account.isSystemAccount account = false ->
  exists db',
    deactivateAccount companyId accountId db = (Ok tt, db')
    /\ journalEntryTable db' = journalEntryTable db
    /\ (referenced db accountId ->
        account_findUnique db' accountId = Some (setActive false account)
        /\ forall a type asOfDate,
            calculateAccountBalanceAsOf db' a type asOfDate
            = calculateAccountBalanceAsOf db a type asOfDate)
    /\ (~ referenced db accountId -> account_findUnique db' accountId = None)
    /\ (forall q, q <> accountId ->
                  account_findUnique db' q = account_findUnique db q)
    /\ (forall e l a,
           In e (journalEntryTable db) -> In l (JournalEntry.lines e) ->
           account_findUnique db (JournalLine.accountId l) = Some a ->
           exists a', account_findUnique db' (JournalLine.accountId l)
                      = Some a'
                      /\ Account.id a' = Account.id a)
    /\ (forall tenant userId input newId,
           (exists l, In l (in_lines input)
                      /\ JournalLine.accountId l = accountId) ->
           exists e, createJournalEntry tenant userId input newId db'
                     = (Throw e, db')).
Proof.
  intros Hnd F Hns.
  destruct (find_account_In _ _ _ _ F) as (Hin & Hi & Hc).
  destruct (deactivateAccount_cases db companyId accountId)
    as [(e & H)|(account' & F' & _ & Hcase)].
  { unfold deactivateAccount, bind, get, throw, put in H.
    rewrite F, Hns in H. destruct (existsb _ _); discriminate. }
  rewrite F in F'. injection F' as <-.
  destruct Hcase as [[Href H]|[Hnref H]]; rewrite H; eexists;
    (split; [reflexivity|]); (split; [reflexivity|]).
  - assert (Hfound : account_findUnique
                       (replaceAccount accountId (setActive false) db) accountId
                     = Some (setActive false account))
      by now apply findUnique_deactivated.
    assert (Hother : forall q, q <> accountId ->
                account_findUnique
                  (replaceAccount accountId (setActive false) db) q
                = account_findUnique db q)
      by (intros q Hq; now apply findUnique_other_replaced).
    split; [|split; [tauto|split; [exact Hother|split]]].
    + intros _. split; [exact Hfound|]. intros a t d.
      apply balance_reads; [reflexivity|].
      destruct (string_dec a accountId) as [->|Hne].
      * rewrite Hfound, <- Hi, (findUnique_member db account Hnd Hin).
        reflexivity.
      * now rewrite Hother.
    + intros e l a He Hl Ha.
      destruct (string_dec (JournalLine.accountId l) accountId) as [E|Hne].
      * rewrite E in *. rewrite Hfound. eexists. split; [reflexivity|].
        rewrite <- Hi, (findUnique_member db account Hnd Hin) in Ha.
        injection Ha as <-. reflexivity.
      * rewrite Hother by exact Hne. now exists a.
    + intros tenant userId input newId Hline.
      apply (posting_on_closed_account _ _ _ _ _ accountId); [|
        |exact Hline].
      * now rewrite replaced_ids.
      * intros a Ha Hai. apply replaced_row in Ha.
        destruct Ha as (a0 & Ha0 & ->).
        destruct (String.eqb (Account.id a0) accountId) eqn:E;
          [reflexivity|]. apply String.eqb_neq in E. contradiction.
  - set (db' := mkDatabase
                  (filter (fun a => negb (String.eqb (Account.id a) accountId))
                          (accountTable db))
                  (journalEntryTable db)).
    assert (Hgone : account_findUnique db' accountId = None).
    { unfold db'. rewrite findUnique_removed. now rewrite String.eqb_refl. }
    assert (Hother : forall q, q <> accountId ->
                account_findUnique db' q = account_findUnique db q).
    { intros q Hq. unfold db'. rewrite findUnique_removed.
      apply String.eqb_neq in Hq. now rewrite Hq. }
    split; [tauto|]. split; [intros _; exact Hgone|].
    split; [exact Hother|split].
    + intros e l a He Hl Ha.
      rewrite Hother; [now exists a|].
      intros E. apply Hnref. now exists e, l.
    + intros tenant userId input newId Hline.
      apply (posting_on_closed_account _ _ _ _ _ accountId); [|
        |exact Hline].
      * unfold db'. cbn [accountTable]. now apply ids_distinct_filter.
      * intros a Ha Hai. unfold db' in Ha. cbn [accountTable] in Ha.
        apply filter_In in Ha. destruct Ha as [_ Ha].
        apply negb_true_iff, String.eqb_neq in Ha. contradiction.
Qed.

(** *** The default chart *)

Lemma find_pointwise {A} (f g : A -> bool) (l : list A) :
  (forall x, In x l -> f x = g x) -> find f l = find g l.
Proof.
  intros H. induction l as [|x rest IH]; simpl; [reflexivity|].
  rewrite (H x (or_introl eq_refl)), IH; [reflexivity|].
  intros y Hy. apply H. now right.
Qed.

Lemma find_none_all {A} (f : A -> bool) (l : list A) :
  (forall x, In x l -> f x = false) -> find f l = None.
Proof.
  intros H. induction l as [|x rest IH]; simpl; [reflexivity|].
  rewrite (H x (or_introl eq_refl)). apply IH.
  intros y Hy. apply H. now right.
Qed.

(** The system account of a subtype among the rows of an import. *)
Lemma imported_system_account (companyId : string) (newId : nat -> string)
      (subType : AccountSubType) :
  find (fun a => String.eqb (Account.companyId a) companyId
                 && AccountSubType_eqb (Account.subType a) subType
                 && Bool.eqb (Account.isSystemAccount a) true)
       (importedAccounts companyId newId)
  = find (fun a => AccountSubType_eqb (Account.subType a) subType
                   && Account.isSystemAccount a)
         (importedAccounts companyId newId).
Proof.
  apply find_pointwise. intros a Ha. apply importedAccounts_In in Ha.
  destruct Ha as [-> _]. rewrite String.eqb_refl. simpl.
  now destruct (Account.isSystemAccount a).
Qed.

(** X22: for a tenant without accounts, importing the default chart
    succeeds and creates its 43 accounts; afterwards [getSystemAccount]
    finds an active system account of the tenant for each of the
    subtypes CASH, ACCOUNTS_RECEIVABLE, OTHER_ASSET, ACCOUNTS_PAYABLE,
    CURRENT_LIABILITY, OWNERS_EQUITY and RETAINED_EARNINGS, fails with
    NotFound for every other subtype, and a second import is refused. *)
Theorem imported_chart_system_accounts (db : Database) (companyId : string)
        (newId newId' : nat -> string) :
  (forall a, In a (accountTable db) -> Account.companyId a <> companyId) ->
  exists db',
    importDefaultChart companyId newId db = (Ok 43%nat, db')
    /\ (forall subType,
           In subType provisionedSubTypes ->
           exists a,
             getSystemAccount companyId subType db' = (Ok a, db')
             /\ Account.companyId a = companyId
             /\ Account.subType a = subType
             /\ Account.isSystemAccount a = true
             /\ Account.isActive a = true)
    /\ (forall subType,
           ~ In subType provisionedSubTypes ->
           exists message,
             getSystemAccount companyId subType db'
             = (Throw (NotFoundError message), db'))
    /\ exists e, importDefaultChart companyId newId' db' = (Throw e, db').
Proof.
  intros Hempty.
  destruct (importDefaultChart_cases db companyId newId)
    as [(e & H)|(_ & H)].
  { unfold importDefaultChart, bind, get, throw in H.
    rewrite filter_none in H
      by (intros a Ha; apply String.eqb_neq; now apply Hempty).
    discriminate. }
  rewrite H. eexists. split; [reflexivity|].
  assert (Hfind : forall subType,
             find (fun a => String.eqb (Account.companyId a) companyId
                            && AccountSubType_eqb (Account.subType a) subType
                            && Bool.eqb (Account.isSystemAccount a) true)
                  (accountTable db ++ importedAccounts companyId newId)
             = find (fun a => AccountSubType_eqb (Account.subType a) subType
                              && Account.isSystemAccount a)
                    (importedAccounts companyId newId)).
  { intros subType. rewrite find_accounts_app, find_none_all.
    - apply imported_system_account.
    - intros a Ha. apply Hempty in Ha. apply String.eqb_neq in Ha.
      now rewrite Ha. }
  split; [|split].
  - intros subType Hs. unfold getSystemAccount, bind, get, ret, throw.
    cbn [accountTable]. rewrite Hfind.
    destruct Hs as [<-|[<-|[<-|[<-|[<-|[<-|[<-|[]]]]]]]];
      (eexists; split; [reflexivity|]); repeat split.
  - intros subType Hs. unfold getSystemAccount, bind, get, ret, throw.
    cbn [accountTable]. rewrite Hfind.
    destruct subType; try (eexists; reflexivity);
      exfalso; apply Hs; simpl; tauto.
  - destruct (importDefaultChart_cases
                (mkDatabase (accountTable db ++ importedAccounts companyId newId)
                            (journalEntryTable db))
                companyId newId') as [(e & He)|(Hnone & _)].
    + now exists e.
    + exfalso. cbn [accountTable] in Hnone.
      apply (Hnone (Account.mk (newId 0%nat) companyId "1000" "Cash" ASSET CASH
                               None true default_isActive
                               default_openingBalance)); [|reflexivity].
      apply in_or_app. right. left. reflexivity.
Qed.

(** *** A created account *)

Lemma journalLine_where_none (db : Database)
      (cond : JournalEntry.t -> JournalLine.t -> bool) :
  (forall e l, In e (journalEntryTable db) -> In l (JournalEntry.lines e) ->
               cond e l = false) ->
  journalLine_where db cond = [].
Proof.
  unfold journalLine_where. intros H.
  induction (journalEntryTable db) as [|e rest IH]; simpl; [reflexivity|].
  rewrite IH by (intros e' l He' Hl; apply H; [now right|exact Hl]).
  rewrite filter_none; [reflexivity|].
  intros l Hl. apply H; [now left|exact Hl].
Qed.

Lemma balance_without_lines (db : Database) (accountId : string)
      (type : AccountType) :
  journalLine_where db
    (fun e l => String.eqb (JournalLine.accountId l) accountId
                && JournalEntry.isPosted e) = [] ->
  calculateAccountBalance db accountId type == openingBalanceOf db accountId.
Proof.
  unfold calculateAccountBalance, openingBalanceOf. intros ->. simpl.
  destruct (account_findUnique db accountId), (isDebitNormal type); simpl;
    ring.
Qed.

(** X23: when [createAccount] succeeds under an id that no stored
    account has and no stored line references, [getAccount] then returns
    the created row; the row is active, is not a system account, has the
    requested code, type and parent, and its balance is the opening
    balance that was given. *)
Theorem created_account_read_back (db db' : Database) (companyId : string)
        (input : CreateAccountInput) (newId : string) (account : Account.t)
        (balance : Q) :
  unusedId db newId ->
  ~ referenced db newId ->
  createAccount companyId input newId db = (Ok (account, balance), db') ->
  account = createdAccount companyId input newId
  /\ balance = ca_openingBalance input
  /\ journalEntryTable db' = journalEntryTable db
  /\ exists balance',
      getAccount companyId newId db' = (Ok (account, balance'), db')
      /\ balance' == balance.
Proof.
  intros Hfresh Hnoref Hcreate.
  destruct (createAccount_cases db companyId input newId)
    as [(e & H)|(_ & _ & H)]; rewrite H in Hcreate; [discriminate|].
  injection Hcreate as <- <- <-.
  split; [reflexivity|]. split; [reflexivity|]. split; [reflexivity|].
  unfold getAccount, bind, get, ret, throw. cbn [accountTable].
  rewrite find_accounts_app, find_none_all.
  - cbn [find createdAccount Account.id Account.companyId].
    rewrite !String.eqb_refl. cbn [andb]. eexists. split; [reflexivity|].
    cbn [Account.id Account.type].
    rewrite balance_without_lines.
    + unfold openingBalanceOf, account_findUnique. cbn [accountTable].
      rewrite find_accounts_app, find_none_all.
      * cbn [find Account.id]. rewrite String.eqb_refl. reflexivity.
      * intros a Ha. apply String.eqb_neq. now apply Hfresh.
    + apply journalLine_where_none. cbn [journalEntryTable].
      intros e l He Hl. apply andb_false_iff. left. apply String.eqb_neq.
      intros E. apply Hnoref. now exists e, l.
  - intros a Ha. apply andb_false_iff. left. apply String.eqb_neq.
    now apply Hfresh.
Qed.

(** X24: a rejected write of the account service leaves the database as
    it was, and no write of the account service touches the journal. *)
Theorem account_write_rejected_changes_nothing (w : AccountWrite)
        (db : Database) (r : option AppError * Database) :
  accountWrite w db = Some r ->
  journalEntryTable (snd r) = journalEntryTable db
  /\ (forall e, fst r = Some e -> snd r = db).
Proof.
  intros Hw.
  destruct w as [c input n|fuel c i input|c i|c newId];
    cbn [accountWrite] in *.
  - injection Hw as <-. unfold outcome. cbn [fst snd].
    destruct (createAccount_cases db c input n) as [(e & H)|(_ & _ & H)];
      rewrite H; cbn [fst snd]; split; try reflexivity; discriminate.
  - destruct (updateAccount fuel c i input db) as [res|] eqn:U;
      [|discriminate].
    injection Hw as <-. unfold outcome. cbn [fst snd].
    destruct (updateAccount_cases _ _ _ _ _ _ U)
      as [(e & ->)|(account & _ & _ & _ & _ & (v & Hv) & Hs)].
    + now split.
    + rewrite Hs, Hv. split; [reflexivity|discriminate].
  - injection Hw as <-. unfold outcome. cbn [fst snd].
    destruct (deactivateAccount_cases db c i)
      as [(e & H)|(account & _ & _ & [[_ H]|[_ H]])];
      rewrite H; cbn [fst snd]; split; try reflexivity; discriminate.
  - injection Hw as <-. unfold outcome. cbn [fst snd].
    destruct (importDefaultChart_cases db c newId) as [(e & H)|(_ & H)];
      rewrite H; cbn [fst snd]; split; try reflexivity; discriminate.
Qed.

End AccountLifecycle.

Section AccountLifecycleFacts.
Import AccountService JournalService ReportService.
Import Scenario TrialBalanceExamples CycleExamples SystemAccountExamples.
Import AccountWriteExamples.

Lemma deactivation_outcome_witness :
  NoDup (map Account.id (accountTable ledger1))
  /\ find (fun a => String.eqb (Account.id a) "acc-sales"
                    && String.eqb (Account.companyId a) "acme")
          (accountTable ledger1) = Some sales
  /\ Account.isSystemAccount sales = false
  /\ exists db',
      deactivateAccount "acme" "acc-sales" ledger1 = (Ok tt, db')
      /\ journalEntryTable db' = journalEntryTable ledger1.
Proof.
  assert (H1 : NoDup (map Account.id (accountTable ledger1)))
    by (apply NoDup_by_nodup; by_evaluation).
  assert (H2 : find (fun a => String.eqb (Account.id a) "acc-sales"
                              && String.eqb (Account.companyId a) "acme")
                    (accountTable ledger1) = Some sales) by by_evaluation.
  split; [exact H1|]. split; [exact H2|]. split; [reflexivity|].
  destruct (deactivation_outcome ledger1 "acme" "acc-sales" sales H1 H2
                                 eq_refl) as (db' & Hd & He & _).
  exists db'. now split.
Defined.

Lemma imported_chart_system_accounts_witness :
  (forall a, In a (accountTable emptyDb) -> Account.companyId a <> "acme")
  /\ exists db',
      importDefaultChart "acme" newId emptyDb = (Ok 43%nat, db')
      /\ exists a, getSystemAccount "acme" ACCOUNTS_RECEIVABLE db' = (Ok a, db').
Proof.
  assert (H1 : forall a, In a (accountTable emptyDb) ->
                         Account.companyId a <> "acme") by (intros a []).
  split; [exact H1|].
  destruct (imported_chart_system_accounts emptyDb "acme" newId newId H1)
    as (db' & Hi & Hs & _).
  exists db'. split; [exact Hi|].
  destruct (Hs ACCOUNTS_RECEIVABLE) as (a & Ha & _); [simpl; tauto|].
  now exists a.
Defined.

Lemma created_account_read_back_witness :
  unusedId dbTree "acc-z"
  /\ ~ referenced dbTree "acc-z"
  /\ createAccount "acme" newChild "acc-z" dbTree
     = (Ok (createdAccount "acme" newChild "acc-z", 0),
        mkDatabase [accX; accY; createdAccount "acme" newChild "acc-z"] [])
  /\ exists balance',
      getAccount "acme" "acc-z"
        (mkDatabase [accX; accY; createdAccount "acme" newChild "acc-z"] [])
      = (Ok (createdAccount "acme" newChild "acc-z", balance'),
         mkDatabase [accX; accY; createdAccount "acme" newChild "acc-z"] [])
      /\ balance' == 0.
Proof.
  assert (H2 : ~ referenced dbTree "acc-z")
    by (intros (e & l & [] & _)).
  assert (H3 : createAccount "acme" newChild "acc-z" dbTree
               = (Ok (createdAccount "acme" newChild "acc-z", 0),
                  mkDatabase
                    [accX; accY; createdAccount "acme" newChild "acc-z"] []))
    by by_evaluation.
  split; [exact newChild_fresh|]. split; [exact H2|]. split; [exact H3|].
  exact (proj2 (proj2 (proj2 (created_account_read_back
                                _ _ _ _ _ _ _ newChild_fresh H2 H3)))).
Defined.

Lemma account_write_rejected_changes_nothing_witness :
  accountWrite (CreateAccount "acme" newChild "acc-z") dbTree
  = Some (None,
          mkDatabase [accX; accY; createdAccount "acme" newChild "acc-z"] [])
  /\ journalEntryTable
       (mkDatabase [accX; accY; createdAccount "acme" newChild "acc-z"] [])
     = journalEntryTable dbTree.
Proof.
  split; [exact newChild_written|].
  exact (proj1 (account_write_rejected_changes_nothing _ _ _ newChild_written)).
Defined.

End AccountLifecycleFacts.

(* ================================================================= *)
(** ** The tree of accounts *)

Section AccountTrees.
Import AccountService.

Lemma map_set_absent {V} (key : string) (v : V) (m : list (string * V)) :
  ~ In key (map fst m) -> map_set key v m = (m ++ [(key, v)])%list.
Proof.
  intros H. unfold map_set.
  destruct (map_has key m) eqn:E; [|reflexivity].
  apply map_has_In in E. contradiction.
Qed.

(** The first pass: one node without children per account. *)
Lemma first_pass (accounts : list AccountWithBalance) :
  forall nodes,
    NoDup (map fst nodes ++ map (fun a => Account.id (fst a)) accounts) ->
    fold_left (fun m account =>
                 map_set (Account.id (fst account)) (mkTreeNode account []) m)
              accounts nodes
    = (nodes ++ map (fun a => (Account.id (fst a), mkTreeNode a [])) accounts)%list.
Proof.
  induction accounts as [|a rest IH]; intros nodes Hnd; simpl.
  - now rewrite app_nil_r.
  - rewrite map_set_absent.
    + rewrite IH.
      * now rewrite <- app_assoc.
      * rewrite map_app. simpl. rewrite <- app_assoc. exact Hnd.
    + intros Hin. simpl in Hnd. apply NoDup_remove_2 in Hnd. apply Hnd.
      apply in_or_app. now left.
Qed.

Lemma map_has_nodes (F : AccountWithBalance -> TreeNode)
      (accounts : list AccountWithBalance) (q : string) :
  map_has q (map (fun a => (Account.id (fst a), F a)) accounts)
  = existsb (fun b => String.eqb (Account.id (fst b)) q) accounts.
Proof.
  unfold map_has. induction accounts as [|b l IHl]; [reflexivity|].
  cbn [map existsb fst]. now rewrite IHl.
Qed.

(** The nodes once the accounts [done] have been attached. *)
Lemma second_pass (accounts : list AccountWithBalance) :
  NoDup (map (fun a => Account.id (fst a)) accounts) ->
  forall rest done,
    accounts = (done ++ rest)%list ->
    fold_left attachNode rest
      (map (fun a => (Account.id (fst a),
                      mkTreeNode a
                        (map (fun c => Account.id (fst c))
                             (filter (isChildOf (Account.id (fst a))) done))))
           accounts,
       map (fun c => Account.id (fst c)) (filter (isTop accounts) done))
    = (map (fun a => (Account.id (fst a),
                      mkTreeNode a
                        (map (fun c => Account.id (fst c))
                             (filter (isChildOf (Account.id (fst a)))
                                     accounts))))
           accounts,
       map (fun c => Account.id (fst c)) (filter (isTop accounts) accounts)).
Proof.
  intros Hnd. induction rest as [|x rest IH]; intros done Hsplit.
  - rewrite app_nil_r in Hsplit. subst done. reflexivity.
  - cbn [fold_left].
    assert (Hhas : forall q,
               map_has q
                 (map (fun a => (Account.id (fst a),
                                 mkTreeNode a
                                   (map (fun c => Account.id (fst c))
                                        (filter (isChildOf (Account.id (fst a)))
                                                done))))
                      accounts)
               = existsb (fun b => String.eqb (Account.id (fst b)) q) accounts).
    { intros q. apply map_has_nodes. }
    assert (Hnext : attachNode
                      (map (fun a => (Account.id (fst a),
                                      mkTreeNode a
                                        (map (fun c => Account.id (fst c))
                                             (filter (isChildOf
                                                        (Account.id (fst a)))
                                                     done))))
                           accounts,
                       map (fun c => Account.id (fst c))
                           (filter (isTop accounts) done)) x
                    = (map (fun a => (Account.id (fst a),
                                      mkTreeNode a
                                        (map (fun c => Account.id (fst c))
                                             (filter (isChildOf
                                                        (Account.id (fst a)))
                                                     (done ++ [x])))))
                           accounts,
                       map (fun c => Account.id (fst c))
                           (filter (isTop accounts) (done ++ [x])))).
    { unfold attachNode. rewrite Hhas.
      rewrite (filter_app (isTop accounts)). cbn [filter].
      destruct (Account.parentId (fst x)) as [p|] eqn:P.
      - destruct (String.eqb p "") eqn:Ep.
        + assert (T : isTop accounts x = true).
          { unfold isTop, namedParent. now rewrite P, Ep. }
          rewrite T. unfold given. rewrite Ep. cbn [negb andb].
          rewrite map_app. cbn [map]. f_equal. apply map_ext. intros a.
          assert (C : isChildOf (Account.id (fst a)) x = false).
          { unfold isChildOf, namedParent. now rewrite P, Ep. }
          rewrite filter_app. cbn [filter]. rewrite C.
          now rewrite app_nil_r.
        + assert (T : isTop accounts x
                      = negb (existsb (fun b => String.eqb (Account.id (fst b)) p)
                                      accounts)).
          { unfold isTop, namedParent. now rewrite P, Ep. }
          assert (C : forall a : AccountWithBalance,
                     isChildOf (Account.id (fst a)) x
                     = String.eqb (Account.id (fst a)) p).
          { intros a. unfold isChildOf, namedParent. rewrite P, Ep.
            apply String.eqb_sym. }
          rewrite T. unfold given. rewrite Ep. cbn [negb andb].
          destruct (existsb (fun b => String.eqb (Account.id (fst b)) p)
                            accounts) eqn:Ex; cbn [negb].
          * rewrite app_nil_r. f_equal. unfold map_update. rewrite map_map.
            apply map_ext. intros a. cbn [fst snd].
            rewrite filter_app, map_app. cbn [filter]. rewrite C.
            destruct (String.eqb (Account.id (fst a)) p); cbn [map];
              [reflexivity|now rewrite app_nil_r].
          * rewrite map_app. cbn [map]. f_equal. apply map_ext_in.
            intros a Ha. rewrite filter_app. cbn [filter]. rewrite C.
            destruct (String.eqb (Account.id (fst a)) p) eqn:Epa;
              [|now rewrite app_nil_r].
            assert (Hex : existsb (fun b => String.eqb (Account.id (fst b)) p)
                                  accounts = true).
            { apply existsb_exists. exists a. now split. }
            congruence.
      - assert (T : isTop accounts x = true).
        { unfold isTop, namedParent. now rewrite P. }
        rewrite T. cbn [given andb]. rewrite map_app. cbn [map]. f_equal.
        apply map_ext. intros a.
        assert (C : isChildOf (Account.id (fst a)) x = false).
        { unfold isChildOf, namedParent. now rewrite P. }
        rewrite filter_app. cbn [filter]. rewrite C. now rewrite app_nil_r. }
    rewrite Hnext. apply IH. rewrite <- app_assoc. exact Hsplit.
Qed.

Lemma buildAccountTree_nodes (accounts : list AccountWithBalance) :
  NoDup (map (fun a => Account.id (fst a)) accounts) ->
  buildAccountTree accounts
  = mkAccountTree
      (map (fun c => Account.id (fst c)) (filter (isTop accounts) accounts))
      (map (fun a => (Account.id (fst a),
                      mkTreeNode a
                        (map (fun c => Account.id (fst c))
                             (filter (isChildOf (Account.id (fst a)))
                                     accounts))))
           accounts).
Proof.
  intros Hnd. unfold buildAccountTree.
  rewrite first_pass by exact Hnd. cbn [app].
  pose proof (second_pass accounts Hnd accounts [] eq_refl) as H.
  cbn [filter map] in H. rewrite H. reflexivity.
Qed.

Lemma listed_once (accounts : list AccountWithBalance)
      (a c : AccountWithBalance) :
  NoDup (map (fun a => Account.id (fst a)) accounts) ->
  In a accounts -> In c accounts ->
  Account.id (fst a) = Account.id (fst c) -> a = c.
Proof.
  induction accounts as [|x rest IH]; intros Hnd Ha Hc Hid; [contradiction|].
  cbn [map] in Hnd. inversion Hnd as [|? ? Hx Hrest]. subst.
  destruct Ha as [<-|Ha], Hc as [<-|Hc].
  - reflexivity.
  - exfalso. apply Hx. rewrite Hid.
    exact (in_map (fun a => Account.id (fst a)) rest c Hc).
  - exfalso. apply Hx. rewrite <- Hid.
    exact (in_map (fun a => Account.id (fst a)) rest a Ha).
  - now apply IH.
Qed.

Lemma concat_split {A B} (f g : A -> list B) (l : list A) :
  Permutation (List.concat (map (fun a => f a ++ g a)%list l))
              (List.concat (map f l) ++ List.concat (map g l)).
Proof.
  induction l as [|a l IH]; [constructor|]. cbn [map List.concat].
  rewrite IH. rewrite <- !app_assoc. apply Permutation_app_head.
  rewrite !app_assoc. apply Permutation_app_tail. apply Permutation_app_comm.
Qed.

(** Among accounts of distinct ids, one at most has the id [q]. *)
Lemma one_parent (accounts : list AccountWithBalance) (q : string)
      (x : AccountWithBalance) :
  NoDup (map (fun a => Account.id (fst a)) accounts) ->
  List.concat (map (fun a => if String.eqb (Account.id (fst a)) q then [x] else [])
              accounts)
  = if existsb (fun b => String.eqb (Account.id (fst b)) q) accounts
    then [x] else [].
Proof.
  induction accounts as [|a rest IH]; intros Hnd; [reflexivity|].
  cbn [map] in Hnd. inversion Hnd as [|? ? Ha Hrest]. subst.
  cbn [map List.concat existsb]. rewrite (IH Hrest).
  destruct (String.eqb (Account.id (fst a)) q) eqn:E; [|reflexivity].
  cbn [orb app].
  destruct (existsb (fun b => String.eqb (Account.id (fst b)) q) rest) eqn:Ex;
    [|reflexivity].
  exfalso. apply Ha. apply existsb_exists in Ex. destruct Ex as [b [Hb Eb]].
  apply String.eqb_eq in E. apply String.eqb_eq in Eb. rewrite E, <- Eb.
  exact (in_map (fun a => Account.id (fst a)) rest b Hb).
Qed.

(** The children of all the listed accounts, taken among [l], are the
    accounts of [l] that are not at the top. *)
Lemma children_of_all (accounts l : list AccountWithBalance) :
  NoDup (map (fun a => Account.id (fst a)) accounts) ->
  Permutation
    (List.concat (map (fun a => filter (isChildOf (Account.id (fst a))) l) accounts))
    (filter (fun x => negb (isTop accounts x)) l).
Proof.
  intros Hnd. induction l as [|x l IH].
  - cbn [filter]. induction accounts as [|a rest IHa]; [constructor|].
    cbn [map List.concat app]. apply IHa. cbn [map] in Hnd.
    now inversion Hnd.
  - cbn [filter].
    transitivity
      (List.concat (map (fun a => if isChildOf (Account.id (fst a)) x
                             then [x] else []) accounts)
       ++ List.concat (map (fun a => filter (isChildOf (Account.id (fst a))) l)
                      accounts))%list.
    + rewrite <- (concat_split
                    (fun a => if isChildOf (Account.id (fst a)) x
                              then [x] else [])
                    (fun a => filter (isChildOf (Account.id (fst a))) l)).
      apply Permutation_refl'. f_equal. apply map_ext. intros a.
      now destruct (isChildOf (Account.id (fst a)) x).
    + destruct (namedParent x) as [q|] eqn:N.
      * assert (E : map (fun a : Account.t * Q =>
                           if isChildOf (Account.id (fst a)) x
                           then [x] else []) accounts
                    = map (fun a : Account.t * Q =>
                             if String.eqb (Account.id (fst a)) q
                             then [x] else []) accounts).
        { apply map_ext. intros a. unfold isChildOf. rewrite N.
          now rewrite String.eqb_sym. }
        assert (T : isTop accounts x
                    = negb (existsb (fun b => String.eqb (Account.id (fst b)) q)
                                    accounts)).
        { unfold isTop. now rewrite N. }
        rewrite E, T, (one_parent accounts q x Hnd).
        destruct (existsb (fun b => String.eqb (Account.id (fst b)) q) accounts);
          cbn [negb app]; [now constructor|exact IH].
      * assert (E : List.concat
                      (map (fun a : Account.t * Q =>
                              if isChildOf (Account.id (fst a)) x
                              then [x] else []) accounts) = []).
        { clear - N. induction accounts as [|a rest IHa]; [reflexivity|].
          cbn [map List.concat]. unfold isChildOf at 1. rewrite N.
          exact IHa. }
        assert (T : isTop accounts x = true).
        { unfold isTop. now rewrite N. }
        rewrite E, T. exact IH.
Qed.

Lemma top_or_child (accounts l : list AccountWithBalance) :
  Permutation (filter (isTop accounts) l
               ++ filter (fun x => negb (isTop accounts x)) l) l.
Proof.
  induction l as [|x l IH]; [constructor|]. cbn [filter].
  destruct (isTop accounts x); cbn [negb app].
  - now constructor.
  - apply Permutation_sym, Permutation_cons_app, Permutation_sym, IH.
Qed.

(** X25: for accounts of distinct ids, [buildAccountTree] returns as roots
    the accounts that name no parent, or a parent that is not listed, in
    the order of the list; the children of a node are the listed accounts
    that name it as parent, in the order of the list; and every listed
    account is put in exactly one of these arrays, exactly once. *)
Theorem account_tree_structure (accounts : list AccountWithBalance) :
  NoDup (map (fun a => Account.id (fst a)) accounts) ->
  let tree := buildAccountTree accounts in
  rootAccounts tree
  = map (fun a => Account.id (fst a)) (filter (isTop accounts) accounts)
  /\ map fst (accountMap tree) = map (fun a => Account.id (fst a)) accounts
  /\ (forall p node,
         In (p, node) (accountMap tree) ->
         In (node_account node) accounts
         /\ Account.id (fst (node_account node)) = p
         /\ node_children node
            = map (fun a => Account.id (fst a))
                  (filter (isChildOf p) accounts))
  /\ Permutation
       (rootAccounts tree
        ++ List.concat (map (fun kv => node_children (snd kv)) (accountMap tree)))
       (map (fun a => Account.id (fst a)) accounts).
Proof.
  intros Hnd tree. subst tree. rewrite (buildAccountTree_nodes accounts Hnd).
  cbn [rootAccounts accountMap].
  split; [reflexivity|]. split; [|split].
  - rewrite map_map. reflexivity.
  - intros p node Hin. apply in_map_iff in Hin.
    destruct Hin as [a [Ha Hin]]. inversion Ha. subst. cbn [node_account node_children].
    now repeat split.
  - rewrite map_map. cbn [snd node_children].
    assert (E : List.concat
                  (map (fun x : Account.t * Q =>
                          map (fun a : Account.t * Q => Account.id (fst a))
                              (filter (isChildOf (Account.id (fst x))) accounts))
                       accounts)
                = map (fun a : Account.t * Q => Account.id (fst a))
                      (List.concat
                         (map (fun x : Account.t * Q =>
                                 filter (isChildOf (Account.id (fst x))) accounts)
                              accounts))).
    { rewrite List.concat_map, map_map. reflexivity. }
    rewrite E.
    rewrite <- map_app. apply Permutation_map.
    rewrite (children_of_all accounts accounts Hnd).
    apply top_or_child.
Qed.

Lemma namedParent_top (accounts : list AccountWithBalance)
      (a : AccountWithBalance) (fuel : nat) :
  isTop accounts a = true ->
  reachesRoot (S fuel) (mkDatabase (map fst accounts) []) (fst a) = true.
Proof.
  unfold isTop, namedParent. cbn [reachesRoot].
  destruct (Account.parentId (fst a)) as [p|]; [|reflexivity].
  destruct (String.eqb p EmptyString); [reflexivity|].
  intros H. apply negb_true_iff in H.
  destruct (account_findUnique (mkDatabase (map fst accounts) []) p)
    as [next|] eqn:F; [|reflexivity].
  apply findUnique_id in F. cbn [accountTable] in F. destruct F as [Hin Hid].
  apply in_map_iff in Hin. destruct Hin as [b [Hb Hin]].
  assert (Hex : existsb (fun b => String.eqb (Account.id (fst b)) p) accounts
                = true).
  { apply existsb_exists. exists b. split; [exact Hin|].
    apply String.eqb_eq. now rewrite Hb. }
  congruence.
Qed.

Lemma listed_parent (accounts : list AccountWithBalance)
      (b : AccountWithBalance) :
  NoDup (map (fun a => Account.id (fst a)) accounts) ->
  In b accounts ->
  account_findUnique (mkDatabase (map fst accounts) []) (Account.id (fst b))
  = Some (fst b).
Proof.
  intros Hnd Hb. apply findUnique_member; cbn [accountTable].
  - now rewrite map_map.
  - now apply in_map.
Qed.

Lemma account_tree_rooted (accounts : list AccountWithBalance)
      (a : AccountWithBalance) :
  NoDup (map (fun a => Account.id (fst a)) accounts) ->
  In a accounts ->
  (exists fuel,
      reachesRoot fuel (mkDatabase (map fst accounts) []) (fst a) = true) ->
  shown (buildAccountTree accounts) (Account.id (fst a)).
Proof.
  intros Hnd Ha. rewrite (buildAccountTree_nodes accounts Hnd).
  intros [fuel Hfuel]. revert a Ha Hfuel.
  induction fuel as [|fuel IH]; intros a Ha Hfuel; [discriminate|].
  destruct (isTop accounts a) eqn:T.
  + apply shown_root. cbn [rootAccounts].
    apply (in_map (fun c => Account.id (fst c))).
    apply filter_In. now split.
  + unfold isTop in T. destruct (namedParent a) as [q|] eqn:N;
      [|discriminate].
    apply negb_false_iff, existsb_exists in T.
    destruct T as [b [Hb Hq]]. apply String.eqb_eq in Hq.
    assert (P : Account.parentId (fst a) = Some q
                /\ String.eqb q EmptyString = false).
    { unfold namedParent in N.
      destruct (Account.parentId (fst a)) as [p|]; [|discriminate].
      destruct (String.eqb p EmptyString) eqn:E; [discriminate|].
      inversion N. now subst. }
    destruct P as [P Eq]. cbn [reachesRoot] in Hfuel.
    rewrite P, Eq, <- Hq, (listed_parent accounts b Hnd Hb) in Hfuel.
    apply (shown_child _ (Account.id (fst b))
             (mkTreeNode b
                (map (fun c => Account.id (fst c))
                     (filter (isChildOf (Account.id (fst b))) accounts)))).
    * now apply IH.
    * cbn [accountMap].
      exact (in_map (fun a => (Account.id (fst a),
                               mkTreeNode a
                                 (map (fun c => Account.id (fst c))
                                      (filter (isChildOf (Account.id (fst a)))
                                              accounts))))
                    accounts b Hb).
    * cbn [node_children]. apply (in_map (fun c => Account.id (fst c))).
      apply filter_In. split; [exact Ha|].
      unfold isChildOf. rewrite N. now apply String.eqb_eq.
Qed.

(** X26: for accounts of distinct ids, an account is part of the tree
    that [buildAccountTree] returns exactly when following its parent
    links among the listed accounts comes to an end: in a list without
    parent cycle every account is shown, and the accounts on or below a
    cycle are in no array that can be reached from the roots. *)
Theorem account_tree_shows_rooted_accounts
        (accounts : list AccountWithBalance) (a : AccountWithBalance) :
  NoDup (map (fun a => Account.id (fst a)) accounts) ->
  In a accounts ->
  shown (buildAccountTree accounts) (Account.id (fst a))
  <-> exists fuel,
      reachesRoot fuel (mkDatabase (map fst accounts) []) (fst a) = true.
Proof.
  intros Hnd Ha. split.
  - rewrite (buildAccountTree_nodes accounts Hnd).
    intros Hs. remember (Account.id (fst a)) as i eqn:Hi.
    revert a Ha Hi. induction Hs as [i Hroot|p node i Hp IH Hnode Hchild];
      intros a Ha Hi; cbn [rootAccounts accountMap] in *.
    + apply in_map_iff in Hroot. destruct Hroot as [c [Hc Hin]].
      apply filter_In in Hin. destruct Hin as [Hin Htop].
      assert (c = a) by (apply (listed_once accounts c a Hnd Hin Ha);
                         congruence).
      subst c. exists 1%nat. now apply namedParent_top.
    + apply in_map_iff in Hnode. destruct Hnode as [b [Hb Hin]].
      inversion Hb. subst p node. cbn [node_children] in Hchild.
      apply in_map_iff in Hchild. destruct Hchild as [c [Hc Hcin]].
      apply filter_In in Hcin. destruct Hcin as [Hcin Hchild].
      assert (c = a) by (apply (listed_once accounts c a Hnd Hcin Ha);
                         congruence).
      subst c. destruct (IH b Hin eq_refl) as [fuel Hfuel].
      exists (S fuel). cbn [reachesRoot].
      unfold isChildOf, namedParent in Hchild.
      destruct (Account.parentId (fst a)) as [q|]; [|discriminate].
      destruct (String.eqb q EmptyString); [discriminate|].
      apply String.eqb_eq in Hchild. subst q.
      now rewrite (listed_parent accounts b Hnd Hin).
  - now apply account_tree_rooted.
Qed.

Lemma insert_account_Permutation (a : Account.t) (l : list Account.t) :
  Permutation (insert_account a l) (a :: l).
Proof.
  induction l as [|b rest IH]; cbn [insert_account]; [constructor; constructor|].
  destruct (String.leb (Account.code a) (Account.code b)); [apply Permutation_refl|].
  rewrite IH. apply perm_swap.
Qed.

Lemma ordered_accounts_Permutation (l : list Account.t) :
  Permutation (fold_right insert_account [] l) l.
Proof.
  induction l as [|a rest IH]; [constructor|]. cbn [fold_right].
  rewrite insert_account_Permutation. now constructor.
Qed.

Lemma selected_ids_distinct (db : Database) (sel : Account.t -> bool) :
  NoDup (map Account.id (accountTable db)) ->
  NoDup (map Account.id (filter sel (accountTable db))).
Proof.
  induction (accountTable db) as [|a rest IH]; intros Hnd; [constructor|].
  cbn [map] in Hnd. inversion Hnd as [|? ? Ha Hrest]. subst.
  cbn [filter]. destruct (sel a); [|now apply IH].
  cbn [map]. constructor; [|now apply IH].
  intros Hin. apply Ha. apply in_map_iff in Hin.
  destruct Hin as [b [Hb Hin]]. apply filter_In in Hin.
  rewrite <- Hb. apply in_map. tauto.
Qed.

(** Following parent links among a part of the stored accounts ends no
    later than among all of them. *)
Lemma reachesRoot_among (db : Database) (listed : list Account.t)
      (fuel : nat) :
  NoDup (map Account.id (accountTable db)) ->
  (forall x, In x listed -> In x (accountTable db)) ->
  forall a,
    reachesRoot fuel db a = true ->
    reachesRoot fuel (mkDatabase listed []) a = true.
Proof.
  intros Hnd Hsub. induction fuel as [|fuel IH]; intros a H; [discriminate|].
  cbn [reachesRoot] in *.
  destruct (Account.parentId a) as [p|]; [|reflexivity].
  destruct (String.eqb p EmptyString); [reflexivity|].
  destruct (account_findUnique (mkDatabase listed []) p) as [next|] eqn:F;
    [|reflexivity].
  apply findUnique_id in F. cbn [accountTable] in F. destruct F as [Hin Hid].
  subst p. rewrite (findUnique_member db next Hnd (Hsub next Hin)) in H.
  now apply IH.
Qed.

(** X27: on a chart of distinct ids whose parent links form no cycle,
    the tree that [getAccounts] returns shows every account of the company
    that the query selects, with its balance, and shows nothing else:
    an account whose parent the query leaves out is listed as a root. *)
Theorem tree_listing_complete (contains : string -> string -> bool)
        (db : Database) (companyId : string) (query : AccountQuery) :
  NoDup (map Account.id (accountTable db)) ->
  acyclic db ->
  q_flat query <> Some true ->
  exists tree,
    getAccounts contains db companyId query = TreeListing tree
    /\ (forall a,
           In a (accountTable db) ->
           accountWhere contains companyId query a = true ->
           shown tree (Account.id a)
           /\ exists children,
               In (Account.id a,
                   mkTreeNode
                     (a, calculateAccountBalance db (Account.id a) (Account.type a))
                     children)
                  (accountMap tree))
    /\ (forall i,
           shown tree i ->
           exists a,
             In a (accountTable db)
             /\ accountWhere contains companyId query a = true
             /\ Account.id a = i).
Proof.
  intros Hnd Hacyclic Hflat. unfold getAccounts.
  set (listed := fold_right insert_account []
                   (filter (accountWhere contains companyId query)
                           (accountTable db))).
  set (rows := map (fun account =>
                      (account,
                       calculateAccountBalance db (Account.id account)
                                               (Account.type account))) listed).
  assert (Hlisted : forall a,
             In a listed
             <-> In a (accountTable db)
                 /\ accountWhere contains companyId query a = true).
  { intros a. rewrite <- filter_In. subst listed. split; intros H.
    - exact (Permutation_in a (ordered_accounts_Permutation _) H).
    - exact (Permutation_in a
               (Permutation_sym (ordered_accounts_Permutation _)) H). }
  assert (Hfst : map fst rows = listed).
  { subst rows. rewrite map_map. cbn [fst]. apply map_id. }
  assert (Hids : NoDup (map (fun a : AccountWithBalance => Account.id (fst a))
                            rows)).
  { subst rows. rewrite map_map. cbn [fst].
    apply (Permutation_NoDup
             (l := map Account.id
                       (filter (accountWhere contains companyId query)
                               (accountTable db)))).
    - apply Permutation_map, Permutation_sym, ordered_accounts_Permutation.
    - now apply selected_ids_distinct. }
  exists (buildAccountTree rows). split; [|split].
  - destruct (q_flat query) as [[|]|]; [congruence|reflexivity|reflexivity].
  - intros a Ha Hw.
    assert (Hin : In a listed) by (apply Hlisted; now split).
    assert (Hrow : In (a, calculateAccountBalance db (Account.id a) (Account.type a))
                      rows).
    { subst rows.
      exact (in_map (fun account =>
                       (account,
                        calculateAccountBalance db (Account.id account)
                                                (Account.type account)))
                    listed a Hin). }
    split.
    + apply (account_tree_rooted rows _ Hids Hrow). cbn [fst].
      destruct (Hacyclic a Ha) as [fuel Hfuel]. exists fuel. rewrite Hfst.
      apply (reachesRoot_among db listed fuel Hnd); [|exact Hfuel].
      intros x Hx. now apply Hlisted.
    + rewrite (buildAccountTree_nodes rows Hids). cbn [accountMap].
      eexists.
      exact (in_map (fun a : AccountWithBalance =>
                       (Account.id (fst a),
                        mkTreeNode a
                          (map (fun c : AccountWithBalance => Account.id (fst c))
                               (filter (isChildOf (Account.id (fst a))) rows))))
                    rows _ Hrow).
  - intros i Hs.
    assert (Hi : In i (map (fun a : AccountWithBalance => Account.id (fst a))
                           rows)).
    { rewrite (buildAccountTree_nodes rows Hids) in Hs.
      destruct Hs as [i Hroot|p node i _ Hnode Hchild];
        cbn [rootAccounts accountMap] in *.
      - apply in_map_iff in Hroot. destruct Hroot as [c [Hc Hin]].
        apply filter_In in Hin. rewrite <- Hc.
        apply (in_map (fun a : AccountWithBalance => Account.id (fst a))).
        tauto.
      - apply in_map_iff in Hnode. destruct Hnode as [b [Hb Hin]].
        inversion Hb. subst p node. cbn [node_children] in Hchild.
        apply in_map_iff in Hchild. destruct Hchild as [c [Hc Hcin]].
        apply filter_In in Hcin. rewrite <- Hc.
        apply (in_map (fun a : AccountWithBalance => Account.id (fst a))).
        tauto. }
    apply in_map_iff in Hi. destruct Hi as [row [Hrow Hin]].
    assert (Hl : In (fst row) listed) by (rewrite <- Hfst; now apply in_map).
    apply Hlisted in Hl. destruct Hl as [Hstored Hw].
    exists (fst row). now repeat split.
Qed.

End AccountTrees.

Section AccountTreesFacts.
Import AccountService CycleExamples AccountTreeExamples.

Lemma cycleAccounts_ids :
  NoDup (map (fun a : AccountWithBalance => Account.id (fst a)) cycleAccounts).
Proof. apply NoDup_by_nodup. by_evaluation. Qed.

Lemma account_tree_structure_witness :
  NoDup (map (fun a : AccountWithBalance => Account.id (fst a)) cycleAccounts)
  /\ rootAccounts (buildAccountTree cycleAccounts) = ["acc-a"]
  /\ Permutation
       (rootAccounts (buildAccountTree cycleAccounts)
        ++ List.concat (map (fun kv => node_children (snd kv))
                            (accountMap (buildAccountTree cycleAccounts))))
       (map (fun a : AccountWithBalance => Account.id (fst a)) cycleAccounts).
Proof.
  destruct (account_tree_structure cycleAccounts cycleAccounts_ids)
    as [Hroots [_ [_ Hall]]].
  split; [exact cycleAccounts_ids|]. split; [|exact Hall].
  rewrite Hroots. reflexivity.
Defined.

Lemma account_tree_shows_rooted_accounts_witness :
  NoDup (map (fun a : AccountWithBalance => Account.id (fst a)) cycleAccounts)
  /\ In (accA, 0) cycleAccounts
  /\ (shown (buildAccountTree cycleAccounts) "acc-a"
      <-> exists fuel,
          reachesRoot fuel (mkDatabase (map fst cycleAccounts) []) accA = true).
Proof.
  split; [exact cycleAccounts_ids|]. split; [now left|].
  exact (account_tree_shows_rooted_accounts cycleAccounts (accA, 0)
           cycleAccounts_ids (or_introl eq_refl)).
Defined.

Lemma tree_listing_complete_witness :
  NoDup (map Account.id (accountTable dbTree))
  /\ acyclic dbTree
  /\ q_flat everyAccount <> Some true
  /\ exists tree,
      getAccounts String.eqb dbTree "acme" everyAccount = TreeListing tree
      /\ shown tree "acc-y".
Proof.
  assert (Hflat : q_flat everyAccount <> Some true) by discriminate.
  split; [exact dbTree_ids|]. split; [exact dbTree_acyclic|].
  split; [exact Hflat|].
  destruct (tree_listing_complete String.eqb dbTree "acme" everyAccount
              dbTree_ids dbTree_acyclic Hflat) as [tree [Htree [Hall _]]].
  exists tree. split; [exact Htree|].
  apply (Hall accY); [right; now left|reflexivity].
Defined.

End AccountTreesFacts.

(* ================================================================= *)
(** ** Invoices and the journal *)

Section InvoiceWrites.
Import JournalService AccountService StoredInvoice InvoiceService.

Lemma getSystemAccount_reads (companyId : string) (subType : AccountSubType)
      (db : Database) :
  snd (getSystemAccount companyId subType db) = db.
Proof.
  unfold getSystemAccount, bind, get, throw, ret.
  now destruct (find _ (accountTable db)).
Qed.

Lemma invoice_update_twice (invoiceId : string)
      (g1 g2 : StoredInvoice.t -> StoredInvoice.t)
      (invoices : list StoredInvoice.t) :
  (forall r, Invoice.id (invoice (g1 r)) = Invoice.id (invoice r)) ->
  invoice_update invoiceId g2 (invoice_update invoiceId g1 invoices)
  = invoice_update invoiceId (fun r => g2 (g1 r)) invoices.
Proof.
  intros Hg. unfold invoice_update. rewrite map_map. apply map_ext.
  intros r. destruct (String.eqb (Invoice.id (invoice r)) invoiceId) eqn:E.
  - now rewrite Hg, E.
  - now rewrite E.
Qed.

(** The two outcomes of [sendInvoice]. *)
Lemma sendInvoice_cases (companyId userId invoiceId : string) (now : Z)
      (newId : string) (db : Database) (invoices : list StoredInvoice.t) :
  (exists e,
      sendInvoice companyId userId invoiceId now newId db invoices
      = (Throw e, db, invoices))
  \/ (exists r arAccount taxAccount,
         invoice_findFirst companyId invoiceId invoices = Some r
         /\ Invoice.status (invoice r) = InvoiceStatus.DRAFT
         /\ getSystemAccount companyId ACCOUNTS_RECEIVABLE db
            = (Ok arAccount, db)
         /\ getSystemAccount companyId CURRENT_LIABILITY db
            = (Ok taxAccount, db)
         /\ validateDoubleEntry (journalLines arAccount taxAccount r) = Ok tt
         /\ sendInvoice companyId userId invoiceId now newId db invoices
            = (Ok (markSent now r),
               appendEntry db
                 (transactionEntry db companyId userId
                    (invoiceTransaction arAccount taxAccount r) newId),
               invoice_update invoiceId
                 (fun x => setStatus (statusAfterSend now r) (markSent now x))
                 invoices)).
Proof.
  unfold sendInvoice.
  destruct (invoice_findFirst companyId invoiceId invoices) as [r|] eqn:F;
    [|left; eexists; reflexivity].
  destruct (Invoice.status (invoice r)) eqn:S;
    try (left; eexists; reflexivity).
  pose proof (getSystemAccount_reads companyId ACCOUNTS_RECEIVABLE db) as R1.
  destruct (getSystemAccount companyId ACCOUNTS_RECEIVABLE db)
    as [[e|arAccount] db1] eqn:G1; cbn [snd] in R1; subst db1;
    [left; eexists; reflexivity|].
  pose proof (getSystemAccount_reads companyId CURRENT_LIABILITY db) as R2.
  destruct (getSystemAccount companyId CURRENT_LIABILITY db)
    as [[e|taxAccount] db2] eqn:G2; cbn [snd] in R2; subst db2;
    [left; eexists; reflexivity|].
  destruct (validateDoubleEntry (journalLines arAccount taxAccount r))
    as [e|[]] eqn:V.
  - rewrite (createFromTransaction_throw db companyId userId
               (invoiceTransaction arAccount taxAccount r) newId e V).
    left. eexists. reflexivity.
  - rewrite (createFromTransaction_ok db companyId userId
               (invoiceTransaction arAccount taxAccount r) newId V).
    right. exists r, arAccount, taxAccount.
    repeat (split; [assumption || reflexivity|]).
    f_equal. cbv zeta. unfold statusAfterSend.
    change (Invoice.dueDate (invoice (markSent now r)))
      with (Invoice.dueDate (invoice r)).
    change (Invoice.amountDue (invoice (markSent now r)))
      with (Invoice.amountDue (invoice r)).
    destruct ((Invoice.dueDate (invoice r) <? now)%Z
              && Qltb 0 (Invoice.amountDue (invoice r))).
    + now rewrite invoice_update_twice.
    + reflexivity.
Qed.

(** The two outcomes of [voidInvoice]. *)
Lemma voidInvoice_cases (companyId invoiceId : string) (db : Database)
      (invoices : list StoredInvoice.t) :
  (exists e, voidInvoice companyId invoiceId db invoices
             = (Throw e, db, invoices))
  \/ (exists r,
         invoice_findFirst companyId invoiceId invoices = Some r
         /\ Invoice.status (invoice r) <> InvoiceStatus.VOID
         /\ amountPaid r <= 0
         /\ voidInvoice companyId invoiceId db invoices
            = (Ok tt,
               unpostSource companyId INVOICE invoiceId db,
               invoice_update invoiceId (setStatus InvoiceStatus.VOID)
                              invoices)).
Proof.
  unfold voidInvoice.
  destruct (invoice_findFirst companyId invoiceId invoices) as [r|] eqn:F;
    [|left; eexists; reflexivity].
  assert (Hid : Invoice.id (invoice r) = invoiceId).
  { unfold invoice_findFirst in F. apply find_some in F. destruct F as [_ F].
    apply andb_true_iff in F. destruct F as [F _]. now apply String.eqb_eq. }
  destruct (Qltb 0 (decimalToNumber (Some (amountPaid r)))) eqn:P.
  - left. destruct (Invoice.status (invoice r)); eexists; reflexivity.
  - apply Qltb_ge in P. cbn [decimalToNumber] in P.
    destruct (Invoice.status (invoice r)) eqn:S;
      try (right; exists r; rewrite Hid;
           split; [reflexivity|]; split; [rewrite S; discriminate|];
           split; [exact P|reflexivity]).
    left. eexists. reflexivity.
Qed.

Lemma unpostSource_kept (companyId : string) (source : JournalSource)
      (sourceId : string) (db : Database) :
  Forall2 keptAs (journalEntryTable db)
          (journalEntryTable (unpostSource companyId source sourceId db)).
Proof.
  unfold unpostSource. cbn [journalEntryTable].
  induction (journalEntryTable db) as [|x rest IH]; cbn [map];
    constructor; [|exact IH].
  destruct (_ && _); [apply keptAs_setPosted|apply keptAs_refl].
Qed.

Lemma unpostSource_numbers (companyId : string) (source : JournalSource)
      (sourceId tenant : string) (db : Database) :
  tenantEntryNumbers tenant (unpostSource companyId source sourceId db)
  = tenantEntryNumbers tenant db.
Proof.
  unfold tenantEntryNumbers, unpostSource. cbn [journalEntryTable].
  induction (journalEntryTable db) as [|x rest IH]; cbn [map filter];
    [reflexivity|].
  destruct (_ && _); cbn [setPosted JournalEntry.companyId];
    (destruct (String.eqb (JournalEntry.companyId x) tenant); cbn [map];
     now rewrite IH).
Qed.

Lemma unpostSource_valid (companyId : string) (source : JournalSource)
      (sourceId : string) (db : Database) :
  ledgerValid db ->
  ledgerValid (unpostSource companyId source sourceId db).
Proof.
  unfold ledgerValid, unpostSource. cbn [journalEntryTable]. intros Hv.
  induction Hv as [|x rest Hx Hv IH]; cbn [map]; constructor; [|exact IH].
  now destruct (_ && _).
Qed.

Lemma invoice_update_content (invoiceId : string)
      (g : StoredInvoice.t -> StoredInvoice.t)
      (invoices : list StoredInvoice.t) :
  (forall r, invoiceContent (g r) = invoiceContent r) ->
  map invoiceContent (invoice_update invoiceId g invoices)
  = map invoiceContent invoices.
Proof.
  intros Hg. unfold invoice_update. rewrite map_map. apply map_ext.
  intros r. now destruct (String.eqb (Invoice.id (invoice r)) invoiceId).
Qed.

(** X28: a rejected [sendInvoice] or [voidInvoice] changes neither the
    journal nor the invoices.  Whatever the outcome, the accounts are
    untouched; no journal entry is deleted, reordered, renumbered or
    posted again, and at most one is added, at the end, under a number
    above those of its tenant; entry numbers that were distinct stay
    distinct; entries that passed the double-entry validation still pass
    it, the added one included; and no invoice is deleted or changed in
    anything but its status and the time it was sent. *)
Theorem invoice_writes_keep_the_books (w : InvoiceWrite) (db : Database)
        (invoices : list StoredInvoice.t) :
  (forall e, thrown (invoiceWrite w db invoices) = Some e ->
             booksAfter (invoiceWrite w db invoices) = db
             /\ invoicesAfter (invoiceWrite w db invoices) = invoices)
  /\ accountTable (booksAfter (invoiceWrite w db invoices)) = accountTable db
  /\ (exists kept added,
         journalEntryTable (booksAfter (invoiceWrite w db invoices))
         = (kept ++ added)%list
         /\ Forall2 keptAs (journalEntryTable db) kept
         /\ (List.length added <= 1)%nat
         /\ forall e e0,
             In e added -> In e0 (journalEntryTable db) ->
             JournalEntry.companyId e0 = JournalEntry.companyId e ->
             (JournalEntry.entryNumber e0 < JournalEntry.entryNumber e)%Z)
  /\ (forall tenant,
         NoDup (tenantEntryNumbers tenant db) ->
         NoDup (tenantEntryNumbers tenant
                  (booksAfter (invoiceWrite w db invoices))))
  /\ (ledgerValid db -> ledgerValid (booksAfter (invoiceWrite w db invoices)))
  /\ map invoiceContent (invoicesAfter (invoiceWrite w db invoices))
     = map invoiceContent invoices.
Proof.
  assert (Hsame : forall out,
             booksAfter out = db -> invoicesAfter out = invoices ->
             (forall e, thrown out = Some e ->
                        booksAfter out = db /\ invoicesAfter out = invoices)
             /\ accountTable (booksAfter out) = accountTable db
             /\ (exists kept added,
                    journalEntryTable (booksAfter out) = (kept ++ added)%list
                    /\ Forall2 keptAs (journalEntryTable db) kept
                    /\ (List.length added <= 1)%nat
                    /\ forall e e0,
                        In e added -> In e0 (journalEntryTable db) ->
                        JournalEntry.companyId e0 = JournalEntry.companyId e ->
                        (JournalEntry.entryNumber e0
                         < JournalEntry.entryNumber e)%Z)
             /\ (forall tenant,
                    NoDup (tenantEntryNumbers tenant db) ->
                    NoDup (tenantEntryNumbers tenant (booksAfter out)))
             /\ (ledgerValid db -> ledgerValid (booksAfter out))
             /\ map invoiceContent (invoicesAfter out)
                = map invoiceContent invoices).
  { intros out -> ->. split; [now split|]. split; [reflexivity|].
    split; [|now repeat split].
    exists (journalEntryTable db), []. rewrite app_nil_r.
    split; [reflexivity|]. split; [apply keptAs_all|].
    split; [cbn; lia|]. intros e e0 []. }
  destruct w as [c u i now n|c i]; cbn [invoiceWrite].
  - destruct (sendInvoice_cases c u i now n db invoices)
      as [(e & H)|(r & ar & tax & _ & _ & _ & _ & V & H)]; rewrite H;
      [now apply Hsame|].
    unfold invoiceOutcome. cbn [fst snd thrown booksAfter invoicesAfter].
    split; [intros e; discriminate|]. split; [reflexivity|].
    split; [|split; [|split]].
    + exists (journalEntryTable db),
        [transactionEntry db c u (invoiceTransaction ar tax r) n].
      split; [reflexivity|]. split; [apply keptAs_all|].
      split; [cbn; lia|]. intros e e0 [<-|[]] Hin Hc. cbn in *.
      now apply nextEntryNumber_above.
    + intros tenant Hd. rewrite tenantEntryNumbers_append.
      cbn [transactionEntry JournalEntry.companyId JournalEntry.entryNumber].
      destruct (String.eqb c tenant) eqn:E; [|now rewrite app_nil_r].
      apply String.eqb_eq in E. subst tenant. apply NoDup_above; [exact Hd|].
      intros y Hy. now apply tenantEntryNumbers_next.
    + intros Hv. apply ledgerValid_append; [exact Hv|].
      cbn [transactionEntry JournalEntry.lines invoiceTransaction tx_lines].
      now apply validateDoubleEntry_createLine.
    + now apply invoice_update_content.
  - destruct (voidInvoice_cases c i db invoices)
      as [(e & H)|(r & _ & _ & _ & H)]; rewrite H; [now apply Hsame|].
    unfold invoiceOutcome. cbn [fst snd thrown booksAfter invoicesAfter].
    split; [intros e; discriminate|]. split; [reflexivity|].
    split; [|split; [|split]].
    + exists (journalEntryTable (unpostSource c INVOICE i db)), [].
      rewrite app_nil_r. split; [reflexivity|].
      split; [apply unpostSource_kept|]. split; [cbn; lia|].
      intros e e0 [].
    + intros tenant Hd. now rewrite unpostSource_numbers.
    + apply unpostSource_valid.
    + now apply invoice_update_content.
Qed.

Lemma invoice_findFirst_found (companyId invoiceId : string)
      (invoices : list StoredInvoice.t) (r : StoredInvoice.t) :
  invoice_findFirst companyId invoiceId invoices = Some r ->
  In r invoices
  /\ Invoice.id (invoice r) = invoiceId
  /\ Invoice.companyId (invoice r) = companyId.
Proof.
  unfold invoice_findFirst. intros F. apply find_some in F.
  destruct F as [Hin F]. apply andb_true_iff in F. destruct F as [F1 F2].
  apply String.eqb_eq in F1. apply String.eqb_eq in F2. now repeat split.
Qed.

Lemma invoice_findFirst_updated (companyId invoiceId : string)
      (g : StoredInvoice.t -> StoredInvoice.t)
      (invoices : list StoredInvoice.t) (r : StoredInvoice.t) :
  (forall x, invoiceContent (g x) = invoiceContent x) ->
  invoice_findFirst companyId invoiceId invoices = Some r ->
  invoice_findFirst companyId invoiceId (invoice_update invoiceId g invoices)
  = Some (g r).
Proof.
  intros Hg. unfold invoice_findFirst, invoice_update.
  induction invoices as [|x rest IH]; cbn [map find]; [discriminate|].
  assert (Hx : Invoice.id (invoice (g x)) = Invoice.id (invoice x)
               /\ Invoice.companyId (invoice (g x))
                  = Invoice.companyId (invoice x)).
  { pose proof (Hg x) as H. unfold invoiceContent in H.
    injection H as H1 H2. now split. }
  destruct Hx as [Hi Hc].
  destruct (String.eqb (Invoice.id (invoice x)) invoiceId) eqn:E.
  - rewrite Hi, Hc, E. cbn [andb].
    destruct (String.eqb (Invoice.companyId (invoice x)) companyId).
    + intros H. now injection H as <-.
    + exact IH.
  - rewrite E. cbn [andb]. exact IH.
Qed.






Lemma unpostSource_selects (companyId sourceId : string)
      (e : JournalEntry.t) :
  String.eqb (JournalEntry.companyId e) companyId
  && JournalSource_eqb (JournalEntry.source e) INVOICE
  && match JournalEntry.sourceId e with
     | Some s => String.eqb s sourceId
     | None => false
     end = true
  <-> fromInvoice companyId sourceId e.
Proof.
  unfold fromInvoice. rewrite !andb_true_iff, String.eqb_eq,
    JournalSource_eqb_eq.
  destruct (JournalEntry.sourceId e) as [s|].
  - rewrite String.eqb_eq. split.
    + intros [[H1 H2] H3]. now subst.
    + intros [H1 [H2 H3]]. injection H3 as ->. now repeat split.
  - split; [intros [_ H]; discriminate|intros [_ [_ H]]; discriminate].
Qed.

(** Taking the entries of an invoice out of the books changes no
    balance when none of them was posted. *)
Lemma unpostSource_unposted (companyId sourceId accountId : string)
      (type : AccountType) (asOfDate : Z) (entries : list JournalEntry.t) :
  (forall e, In e entries -> fromInvoice companyId sourceId e ->
             JournalEntry.isPosted e = false) ->
  sum_of (entryContribution accountId type asOfDate)
         (journalEntryTable
            (unpostSource companyId INVOICE sourceId (mkDatabase [] entries)))
  == sum_of (entryContribution accountId type asOfDate) entries.
Proof.
  unfold unpostSource. cbn [journalEntryTable].
  induction entries as [|x rest IH]; intros H; [reflexivity|].
  cbn [map sum_of fold_right].
  fold (sum_of (entryContribution accountId type asOfDate) rest).
  fold (sum_of (entryContribution accountId type asOfDate)
               (map (fun e =>
                       if String.eqb (JournalEntry.companyId e) companyId
                          && JournalSource_eqb (JournalEntry.source e) INVOICE
                          && match JournalEntry.sourceId e with
                             | Some s => String.eqb s sourceId
                             | None => false
                             end
                       then setPosted false e else e) rest)).
  rewrite IH by (intros e He; apply H; now right).
  apply Qplus_inj_r.
  destruct (_ && _ && _) eqn:E; [|reflexivity].
  apply unpostSource_selects in E.
  unfold entryContribution. cbn [setPosted JournalEntry.isPosted andb].
  now rewrite (H x (or_introl eq_refl) E).
Qed.

(** X30: voiding an invoice that [sendInvoice] has just posted succeeds
    when nothing was paid on it.  When no entry of the invoice was posted
    before, every balance is then back to what it was before the invoice
    was sent; the entry stays in the journal, not posted; the invoice is
    stored as VOID, is left out of the aging report, and can be neither
    voided nor sent again. *)
Theorem send_then_void_restores_balances
        (companyId userId invoiceId : string) (now : Z) (newId : string)
        (db db1 : Database) (invoices invoices1 : list StoredInvoice.t)
        (updated : StoredInvoice.t) :
  sendInvoice companyId userId invoiceId now newId db invoices
  = (Ok updated, db1, invoices1) ->
  (forall e, In e (journalEntryTable db) ->
             fromInvoice companyId invoiceId e ->
             JournalEntry.isPosted e = false) ->
  amountPaid updated <= 0 ->
  exists db2 invoices2 r2,
    voidInvoice companyId invoiceId db1 invoices1 = (Ok tt, db2, invoices2)
    /\ (forall accountId type asOfDate,
           ReportService.calculateAccountBalanceAsOf db2 accountId type
                                                     asOfDate
           == ReportService.calculateAccountBalanceAsOf db accountId type
                                                        asOfDate)
    /\ (forall e, In e (journalEntryTable db2) ->
                  fromInvoice companyId invoiceId e ->
                  JournalEntry.isPosted e = false)
    /\ List.length (journalEntryTable db2)
       = S (List.length (journalEntryTable db))
    /\ invoice_findFirst companyId invoiceId invoices2 = Some r2
    /\ Invoice.status (invoice r2) = InvoiceStatus.VOID
    /\ invoiceContent r2 = invoiceContent updated
    /\ (forall asOfDate, openInvoice companyId asOfDate (invoice r2) = false)
    /\ voidInvoice companyId invoiceId db2 invoices2
       = (Throw (BadRequestError "Invoice is already voided"), db2, invoices2)
    /\ (forall userId' now' newId',
           sendInvoice companyId userId' invoiceId now' newId' db2 invoices2
           = (Throw (BadRequestError "Invoice has already been sent"),
              db2, invoices2)).
Proof.
  intros Hsend Hbefore Hpaid.
  destruct (sendInvoice_cases companyId userId invoiceId now newId db invoices)
    as [(err & H)|(r & ar & tax & F & S & _ & _ & _ & H)];
    rewrite H in Hsend; [discriminate|].
  injection Hsend as <- <- <-.
  destruct (invoice_findFirst_found _ _ _ _ F) as [_ [Hid Hcompany]].
  set (e := transactionEntry db companyId userId
              (invoiceTransaction ar tax r) newId) in *.
  set (g := fun x => setStatus (statusAfterSend now r) (markSent now x)) in *.
  assert (F1 : invoice_findFirst companyId invoiceId
                 (invoice_update invoiceId g invoices) = Some (g r)).
  { now apply invoice_findFirst_updated. }
  assert (F2 : invoice_findFirst companyId invoiceId
                 (invoice_update invoiceId (setStatus InvoiceStatus.VOID)
                    (invoice_update invoiceId g invoices))
               = Some (setStatus InvoiceStatus.VOID (g r))).
  { now apply invoice_findFirst_updated. }
  assert (He : fromInvoice companyId invoiceId e).
  { unfold fromInvoice. subst e. cbn. now rewrite Hid. }
  exists (unpostSource companyId INVOICE invoiceId (appendEntry db e)),
    (invoice_update invoiceId (setStatus InvoiceStatus.VOID)
                    (invoice_update invoiceId g invoices)),
    (setStatus InvoiceStatus.VOID (g r)).
  split; [|split; [|split; [|split; [|split; [|split; [|split; [|split;
    [|split]]]]]]]].
  - unfold voidInvoice. rewrite F1.
    change (Invoice.status (invoice (g r))) with (statusAfterSend now r).
    change (amountPaid (g r)) with (amountPaid r).
    change (Invoice.id (invoice (g r))) with (Invoice.id (invoice r)).
    change (amountPaid (markSent now r)) with (amountPaid r) in Hpaid.
    assert (P : Qltb 0 (decimalToNumber (Some (amountPaid r))) = false).
    { apply Qltb_ge. exact Hpaid. }
    rewrite P, Hid. unfold statusAfterSend.
    now destruct ((Invoice.dueDate (invoice r) <? now)%Z
                  && Qltb 0 (Invoice.amountDue (invoice r))).
  - intros accountId type asOfDate. rewrite !balance_as_sum.
    rewrite (openingBalanceOf_accounts
               db (unpostSource companyId INVOICE invoiceId (appendEntry db e)))
      by reflexivity.
    apply Qplus_inj_l.
    pose proof (unpostSource_unposted companyId invoiceId accountId type
                  asOfDate (journalEntryTable db) Hbefore) as Hold.
    unfold unpostSource, appendEntry in *. cbn [journalEntryTable] in *.
    rewrite map_app, sum_of_app, Hold. cbn [map].
    apply unpostSource_selects in He. rewrite He.
    unfold entryContribution at 2. cbn [setPosted JournalEntry.isPosted andb].
    cbn. lra.
  - intros e' Hin Hfrom. unfold unpostSource in Hin.
    cbn [journalEntryTable] in Hin. apply in_map_iff in Hin.
    destruct Hin as [x [Hx _]].
    destruct (_ && _ && _) eqn:E in Hx.
    + subst e'. reflexivity.
    + subst e'. apply unpostSource_selects in Hfrom. congruence.
  - unfold unpostSource, appendEntry. cbn [journalEntryTable].
    rewrite length_map, length_app. cbn. lia.
  - exact F2.
  - reflexivity.
  - reflexivity.
  - intros asOfDate. unfold openInvoice.
    change (Invoice.status (invoice (setStatus InvoiceStatus.VOID (g r))))
      with InvoiceStatus.VOID.
    now rewrite andb_false_r.
  - unfold voidInvoice. now rewrite F2.
  - intros userId' now' newId'. unfold sendInvoice. now rewrite F2.
Qed.

End InvoiceWrites.

Section InvoiceWritesFacts.
Import JournalService AccountService StoredInvoice InvoiceService.
Import Scenario SystemAccountExamples InvoiceExamples.



Lemma send_then_void_restores_balances_witness :
  sendInvoice "acme" "user-1" "inv-1" feb28 "je-1" dbImported invoiceTable
  = (Ok (markSent feb28 consulting), snd (fst sent), snd sent)
  /\ (forall e, In e (journalEntryTable dbImported) ->
                fromInvoice "acme" "inv-1" e ->
                JournalEntry.isPosted e = false)
  /\ amountPaid (markSent feb28 consulting) <= 0
  /\ exists db2 invoices2,
      voidInvoice "acme" "inv-1" (snd (fst sent)) (snd sent)
      = (Ok tt, db2, invoices2)
      /\ forall accountId type asOfDate,
          ReportService.calculateAccountBalanceAsOf db2 accountId type asOfDate
          == ReportService.calculateAccountBalanceAsOf dbImported accountId
                                                       type asOfDate.
Proof.
  assert (Hsend : sendInvoice "acme" "user-1" "inv-1" feb28 "je-1" dbImported
                              invoiceTable
                  = (Ok (markSent feb28 consulting), snd (fst sent), snd sent))
    by reflexivity.
  assert (Hbefore : forall e, In e (journalEntryTable dbImported) ->
                              fromInvoice "acme" "inv-1" e ->
                              JournalEntry.isPosted e = false)
    by (intros e []).
  assert (Hpaid : amountPaid (markSent feb28 consulting) <= 0)
    by apply Qle_refl.
  split; [exact Hsend|]. split; [exact Hbefore|]. split; [exact Hpaid|].
  destruct (send_then_void_restores_balances
              "acme" "user-1" "inv-1" feb28 "je-1" dbImported (snd (fst sent))
              invoiceTable (snd sent) (markSent feb28 consulting)
              Hsend Hbefore Hpaid)
    as (db2 & invoices2 & r2 & Hvoid & Hbalance & _).
  exists db2, invoices2. split; [exact Hvoid|exact Hbalance].
Defined.

End InvoiceWritesFacts.
